(** * AREngineSimple: optical-flow plane tracking

    A shallow embedding of [src/ar/AREngineSimple.js] and the properties of
    its frame pipeline.

    Numbers.  Every JavaScript number is an IEEE 754 binary64 value, so the
    coordinates, displacements and the plane confidence are primitive
    [float]s: [+], [-], [*], [/] and [Math.sqrt] are the correctly rounded
    operations of [PrimFloat], [<] is [ltb], and [isNaN] is [is_nan].
    Counters and sizes that only ever hold small non-negative integers
    ([rows], [length], [frameCount], [Date.now()]) are integers here; the
    one place where the double representation shows, [frameCount++] at
    2^53, is written out in [js_incr].

    Collaborators.  OpenCV ([cv.cvtColor], [cv.goodFeaturesToTrack],
    [cv.calcOpticalFlowPyrLK]) and the canvas capture are outside the
    repository.  They are parameters of the development; each may throw,
    which is the [None] answer.  Releasing matrices ([delete]) and console
    output have no counterpart. *)

From Stdlib Require Import Floats ZArith List Bool Lia.
Import ListNotations.

Set Warnings "-inexact-float".
Set Implicit Arguments.

(** ** JavaScript numbers *)

Module JS.

Local Open Scope float_scope.

(** [Math.max(a, b)]: NaN when an argument is NaN, and [+0] is larger
    than [-0]. *)
Definition Math_max (a b : float) : float :=
  if is_nan a || is_nan b then nan
  else if a <? b then b
  else if b <? a then a
  else if get_sign a then b else a.

(** [Math.min(a, b)]: NaN when an argument is NaN, and [-0] is smaller
    than [+0]. *)
Definition Math_min (a b : float) : float :=
  if is_nan a || is_nan b then nan
  else if a <? b then a
  else if b <? a then b
  else if get_sign a then a else b.

Definition isNaN (x : float) : bool := is_nan x.

Definition Math_sqrt (x : float) : float := sqrt x.

Definition Math_PI : float := 0x1.921fb54442d18p+1.

(** The number an array length denotes (lengths stay below 2^32, where
    the conversion is exact). *)
Definition of_length (n : nat) : float :=
  of_uint63 (Uint63.of_Z (Z.of_nat n)).

(** [x || 0] on a number that may be absent: [0] replaces the falsy
    values (absent, NaN, either zero). *)
Definition or_zero (x : option float) : float :=
  match x with
  | None => 0
  | Some v => if is_nan v || is_zero v then 0 else v
  end.

(** [n++] on a counter that holds a non-negative integer: above 2^53 the
    sum [n + 1] rounds back to [n]. *)
Definition js_incr (n : Z) : Z :=
  if (n <? 2 ^ 53)%Z then (n + 1)%Z else n.

(** [a % n === 0] on integers: the remainder takes the sign of [a], and
    [a % 0] is NaN. *)
Definition rem_is_zero (a n : Z) : bool :=
  if (n =? 0)%Z then false else (Z.rem a n =? 0)%Z.

End JS.

(** ** Data model *)

(** A [cv.Mat] seen through the fields the engine reads: its shape and
    its element array ([data], [data32F]). *)
Record Mat (A : Type) : Type := mkMat {
  rows : nat;
  cols : nat;
  data : list A
}.

(** [new cv.Mat()] *)
Definition emptyMat {A : Type} : Mat A := mkMat 0 0 [].

(** [m.data32F[k]]; a read past the end gives [undefined], which every
    use below ([isNaN], [-]) converts to NaN. *)
Definition get32F (m : Mat float) (k : nat) : float := nth k (data m) nan.

(** [m.data[i] === 1] on a byte array. *)
Definition byte_is_one (m : Mat Z) (i : nat) : bool :=
  match nth_error (data m) i with
  | Some b => (b =? 1)%Z
  | None => false
  end.

(** [cv.matFromArray(a.length / 2, 1, cv.CV_32FC2, a)] *)
Definition matFromArray (a : list float) : Mat float :=
  mkMat (Nat.div (length a) 2) 1 a.

Record Point : Type := mkPoint { px : float; py : float }.

Record Correspondence : Type := mkCorr { prev : Point; curr : Point }.

Record Motion : Type := mkMotion { mdx : float; mdy : float }.

Record Plane : Type := mkPlane {
  center : Point;
  confidence : float;
  motion : Motion
}.

Record Vec3 : Type := mkVec3 { vx : float; vy : float; vz : float }.

Record Pose : Type := mkPose {
  position : Vec3;
  rotation : Vec3;
  planeCenter : Point;
  poseConfidence : float
}.

Record Imu : Type := mkImu { alpha : float; beta : float; gamma : float }.

Record Settings : Type := mkSettings {
  maxCorners : Z;
  qualityLevel : float;
  minDistance : Z;
  blockSize : Z;
  winSize : Z;
  maxLevel : Z;
  minFeatures : Z;
  featureRefreshInterval : Z
}.

Definition default_settings : Settings :=
  mkSettings 200 0.01%float 15 7 21 3 15 15.

Record Canvas : Type := mkCanvas { width : nat; height : nat }.

(** The video element: its intrinsic size and the frame it shows. *)
Record Video : Type := mkVideo {
  videoWidth : nat;
  videoHeight : nat;
  picture : list Z
}.

(** The fields of an [AREngineSimple].  A matrix field holds [None]
    until [init()] allocates it.  [err] and [showDebug], which nothing
    reads, are left out, and so are the methods that only touch the page
    or release memory ([setupIMU], [setDebugVisible], [dispose]). *)
Record Engine : Type := mkEngine {
  frame : option (Mat Z);
  grayFrame : option (Mat Z);
  prevGrayFrame : option (Mat Z);
  prevPoints : option (Mat float);
  nextPoints : option (Mat float);
  status : option (Mat Z);
  isTracking : bool;
  currentPose : option Pose;
  trackedPoints : list Correspondence;
  goodFeatures : list Point;
  groundPlane : option Plane;
  planeConfidence : float;
  imuData : Imu;
  settings : Settings;
  frameCount : Z;
  initialized : bool;
  debugCanvas : option Canvas;
  debugCtx : bool;
  lastLogTime : Z
}.

(** [this.field = v], one update per field. *)
Definition set_frame (v : option (Mat Z)) (e : Engine) : Engine :=
  mkEngine v (grayFrame e) (prevGrayFrame e) (prevPoints e) (nextPoints e)
    (status e) (isTracking e) (currentPose e) (trackedPoints e)
    (goodFeatures e) (groundPlane e) (planeConfidence e) (imuData e)
    (settings e) (frameCount e) (initialized e) (debugCanvas e) (debugCtx e)
    (lastLogTime e).

Definition set_grayFrame (v : option (Mat Z)) (e : Engine) : Engine :=
  mkEngine (frame e) v (prevGrayFrame e) (prevPoints e) (nextPoints e)
    (status e) (isTracking e) (currentPose e) (trackedPoints e)
    (goodFeatures e) (groundPlane e) (planeConfidence e) (imuData e)
    (settings e) (frameCount e) (initialized e) (debugCanvas e) (debugCtx e)
    (lastLogTime e).

Definition set_prevGrayFrame (v : option (Mat Z)) (e : Engine) : Engine :=
  mkEngine (frame e) (grayFrame e) v (prevPoints e) (nextPoints e)
    (status e) (isTracking e) (currentPose e) (trackedPoints e)
    (goodFeatures e) (groundPlane e) (planeConfidence e) (imuData e)
    (settings e) (frameCount e) (initialized e) (debugCanvas e) (debugCtx e)
    (lastLogTime e).

Definition set_prevPoints (v : option (Mat float)) (e : Engine) : Engine :=
  mkEngine (frame e) (grayFrame e) (prevGrayFrame e) v (nextPoints e)
    (status e) (isTracking e) (currentPose e) (trackedPoints e)
    (goodFeatures e) (groundPlane e) (planeConfidence e) (imuData e)
    (settings e) (frameCount e) (initialized e) (debugCanvas e) (debugCtx e)
    (lastLogTime e).

Definition set_nextPoints (v : option (Mat float)) (e : Engine) : Engine :=
  mkEngine (frame e) (grayFrame e) (prevGrayFrame e) (prevPoints e) v
    (status e) (isTracking e) (currentPose e) (trackedPoints e)
    (goodFeatures e) (groundPlane e) (planeConfidence e) (imuData e)
    (settings e) (frameCount e) (initialized e) (debugCanvas e) (debugCtx e)
    (lastLogTime e).

Definition set_status (v : option (Mat Z)) (e : Engine) : Engine :=
  mkEngine (frame e) (grayFrame e) (prevGrayFrame e) (prevPoints e)
    (nextPoints e) v (isTracking e) (currentPose e) (trackedPoints e)
    (goodFeatures e) (groundPlane e) (planeConfidence e) (imuData e)
    (settings e) (frameCount e) (initialized e) (debugCanvas e) (debugCtx e)
    (lastLogTime e).

Definition set_isTracking (v : bool) (e : Engine) : Engine :=
  mkEngine (frame e) (grayFrame e) (prevGrayFrame e) (prevPoints e)
    (nextPoints e) (status e) v (currentPose e) (trackedPoints e)
    (goodFeatures e) (groundPlane e) (planeConfidence e) (imuData e)
    (settings e) (frameCount e) (initialized e) (debugCanvas e) (debugCtx e)
    (lastLogTime e).

Definition set_currentPose (v : option Pose) (e : Engine) : Engine :=
  mkEngine (frame e) (grayFrame e) (prevGrayFrame e) (prevPoints e)
    (nextPoints e) (status e) (isTracking e) v (trackedPoints e)
    (goodFeatures e) (groundPlane e) (planeConfidence e) (imuData e)
    (settings e) (frameCount e) (initialized e) (debugCanvas e) (debugCtx e)
    (lastLogTime e).

Definition set_trackedPoints (v : list Correspondence) (e : Engine) : Engine :=
  mkEngine (frame e) (grayFrame e) (prevGrayFrame e) (prevPoints e)
    (nextPoints e) (status e) (isTracking e) (currentPose e) v
    (goodFeatures e) (groundPlane e) (planeConfidence e) (imuData e)
    (settings e) (frameCount e) (initialized e) (debugCanvas e) (debugCtx e)
    (lastLogTime e).

Definition set_goodFeatures (v : list Point) (e : Engine) : Engine :=
  mkEngine (frame e) (grayFrame e) (prevGrayFrame e) (prevPoints e)
    (nextPoints e) (status e) (isTracking e) (currentPose e)
    (trackedPoints e) v (groundPlane e) (planeConfidence e) (imuData e)
    (settings e) (frameCount e) (initialized e) (debugCanvas e) (debugCtx e)
    (lastLogTime e).

Definition set_groundPlane (v : option Plane) (e : Engine) : Engine :=
  mkEngine (frame e) (grayFrame e) (prevGrayFrame e) (prevPoints e)
    (nextPoints e) (status e) (isTracking e) (currentPose e)
    (trackedPoints e) (goodFeatures e) v (planeConfidence e) (imuData e)
    (settings e) (frameCount e) (initialized e) (debugCanvas e) (debugCtx e)
    (lastLogTime e).

Definition set_planeConfidence (v : float) (e : Engine) : Engine :=
  mkEngine (frame e) (grayFrame e) (prevGrayFrame e) (prevPoints e)
    (nextPoints e) (status e) (isTracking e) (currentPose e)
    (trackedPoints e) (goodFeatures e) (groundPlane e) v (imuData e)
    (settings e) (frameCount e) (initialized e) (debugCanvas e) (debugCtx e)
    (lastLogTime e).

Definition set_imuData (v : Imu) (e : Engine) : Engine :=
  mkEngine (frame e) (grayFrame e) (prevGrayFrame e) (prevPoints e)
    (nextPoints e) (status e) (isTracking e) (currentPose e)
    (trackedPoints e) (goodFeatures e) (groundPlane e) (planeConfidence e) v
    (settings e) (frameCount e) (initialized e) (debugCanvas e) (debugCtx e)
    (lastLogTime e).

Definition set_settings (v : Settings) (e : Engine) : Engine :=
  mkEngine (frame e) (grayFrame e) (prevGrayFrame e) (prevPoints e)
    (nextPoints e) (status e) (isTracking e) (currentPose e)
    (trackedPoints e) (goodFeatures e) (groundPlane e) (planeConfidence e)
    (imuData e) v (frameCount e) (initialized e) (debugCanvas e)
    (debugCtx e) (lastLogTime e).

Definition set_frameCount (v : Z) (e : Engine) : Engine :=
  mkEngine (frame e) (grayFrame e) (prevGrayFrame e) (prevPoints e)
    (nextPoints e) (status e) (isTracking e) (currentPose e)
    (trackedPoints e) (goodFeatures e) (groundPlane e) (planeConfidence e)
    (imuData e) (settings e) v (initialized e) (debugCanvas e) (debugCtx e)
    (lastLogTime e).

Definition set_initialized (v : bool) (e : Engine) : Engine :=
  mkEngine (frame e) (grayFrame e) (prevGrayFrame e) (prevPoints e)
    (nextPoints e) (status e) (isTracking e) (currentPose e)
    (trackedPoints e) (goodFeatures e) (groundPlane e) (planeConfidence e)
    (imuData e) (settings e) (frameCount e) v (debugCanvas e) (debugCtx e)
    (lastLogTime e).

Definition set_debugCanvas (v : option Canvas) (e : Engine) : Engine :=
  mkEngine (frame e) (grayFrame e) (prevGrayFrame e) (prevPoints e)
    (nextPoints e) (status e) (isTracking e) (currentPose e)
    (trackedPoints e) (goodFeatures e) (groundPlane e) (planeConfidence e)
    (imuData e) (settings e) (frameCount e) (initialized e) v (debugCtx e)
    (lastLogTime e).

Definition set_debugCtx (v : bool) (e : Engine) : Engine :=
  mkEngine (frame e) (grayFrame e) (prevGrayFrame e) (prevPoints e)
    (nextPoints e) (status e) (isTracking e) (currentPose e)
    (trackedPoints e) (goodFeatures e) (groundPlane e) (planeConfidence e)
    (imuData e) (settings e) (frameCount e) (initialized e) (debugCanvas e)
    v (lastLogTime e).

Definition set_lastLogTime (v : Z) (e : Engine) : Engine :=
  mkEngine (frame e) (grayFrame e) (prevGrayFrame e) (prevPoints e)
    (nextPoints e) (status e) (isTracking e) (currentPose e)
    (trackedPoints e) (goodFeatures e) (groundPlane e) (planeConfidence e)
    (imuData e) (settings e) (frameCount e) (initialized e) (debugCanvas e)
    (debugCtx e) v.

(** The object [processFrame] returns. *)
Record FrameResult : Type := mkResult {
  r_isTracking : bool;
  r_hasFeatures : bool;
  r_featureCount : nat;
  r_planeCount : nat;
  r_pose : option Pose;
  r_imu : Imu
}.

(** ** The engine *)

(** [new AREngineSimple()]; the debug canvas is looked up in the page. *)
Definition constructor (canvas : option Canvas) (ctx : bool) : Engine :=
  {| frame := None; grayFrame := None; prevGrayFrame := None;
     prevPoints := None; nextPoints := None; status := None;
     isTracking := false; currentPose := None;
     trackedPoints := []; goodFeatures := [];
     groundPlane := None; planeConfidence := 0%float;
     imuData := mkImu 0 0 0; settings := default_settings;
     frameCount := 0; initialized := false;
     debugCanvas := canvas;
     debugCtx := match canvas with Some _ => ctx | None => false end;
     lastLogTime := 0 |}.

(** [init()]: [None] is the thrown "OpenCV.js not loaded". *)
Definition init (cv_loaded : bool) (e : Engine) : option Engine :=
  if cv_loaded then
    Some (set_initialized true
         (set_status (Some emptyMat)
         (set_nextPoints (Some emptyMat)
         (set_prevPoints (Some emptyMat)
         (set_prevGrayFrame (Some emptyMat)
         (set_grayFrame (Some emptyMat) e))))))
  else None.

(** The [deviceorientation] listener of [bindIMU]. *)
Definition on_deviceorientation (a b g : option float) (e : Engine) : Engine :=
  set_imuData (mkImu (JS.or_zero a) (JS.or_zero b) (JS.or_zero g)) e.

(** [updateSettings(settings)]: [Object.assign] overrides the fields the
    caller names, which is some function [f] of the settings. *)
Definition updateSettings (f : Settings -> Settings) (e : Engine) : Engine :=
  set_settings (f (settings e)) e.

(** [reset()] *)
Definition reset (e : Engine) : Engine :=
  let e := set_isTracking false e in
  let e := set_trackedPoints [] e in
  let e := set_goodFeatures [] e in
  let e := set_currentPose None e in
  let e := set_groundPlane None e in
  let e := set_planeConfidence 0%float e in
  let e := set_frameCount 0 e in
  let e :=
    match prevPoints e with
    | Some m => if (0 <? rows m)%nat then set_prevPoints (Some emptyMat) e else e
    | None => e
    end in
  match prevGrayFrame e with
  | Some m => if (0 <? rows m)%nat then set_prevGrayFrame (Some emptyMat) e else e
  | None => e
  end.

(** *** Plane hypothesis *)

Section Plane.

Local Open Scope float_scope.

Definition disp_x (pt : Correspondence) : float := px (curr pt) - px (prev pt).
Definition disp_y (pt : Correspondence) : float := py (curr pt) - py (prev pt).

(** The two accumulating loops of [estimatePlane], and the one over the
    features. *)
Definition total_motion (tracked : list Correspondence) : float * float :=
  fold_left (fun acc pt => (fst acc + disp_x pt, snd acc + disp_y pt))
            tracked (0, 0).

Definition motion_variance_sum (avgDX avgDY : float)
    (tracked : list Correspondence) : float :=
  fold_left (fun acc pt =>
               let dx := disp_x pt - avgDX in
               let dy := disp_y pt - avgDY in
               acc + (dx * dx + dy * dy))
            tracked 0.

Definition center_sum (feats : list Point) : float * float :=
  fold_left (fun acc feat => (fst acc + px feat, snd acc + py feat))
            feats (0, 0).

Definition avg_motion (tracked : list Correspondence) : Motion :=
  let n := JS.of_length (length tracked) in
  let t := total_motion tracked in
  mkMotion (fst t / n) (snd t / n).

Definition motionVariance (tracked : list Correspondence) : float :=
  let avg := avg_motion tracked in
  motion_variance_sum (mdx avg) (mdy avg) tracked
    / JS.of_length (length tracked).

Definition isCoherent (tracked : list Correspondence) : bool :=
  motionVariance tracked <? 100.

Definition conf_incr (c : float) : float := JS.Math_min 1 (c + 0.15).
Definition conf_decr (c : float) : float := JS.Math_max 0 (c - 0.1).

(** [estimatePlane()]: the returned flag and the engine afterwards. *)
Definition estimatePlane (e : Engine) : bool * Engine :=
  if (length (trackedPoints e) <? 8)%nat then
    (false, set_planeConfidence (conf_decr (planeConfidence e)) e)
  else
    let avg := avg_motion (trackedPoints e) in
    if isCoherent (trackedPoints e) then
      let e := set_planeConfidence (conf_incr (planeConfidence e)) e in
      let n := JS.of_length (length (goodFeatures e)) in
      let c := center_sum (goodFeatures e) in
      let e :=
        set_groundPlane
          (Some {| center := mkPoint (fst c / n) (snd c / n);
                   confidence := planeConfidence e;
                   motion := avg |}) e in
      (0.5 <? planeConfidence e, e)
    else
      (false, set_planeConfidence (conf_decr (planeConfidence e)) e).

(** [estimatePose()] *)
Definition estimatePose (e : Engine) : Engine :=
  match groundPlane e with
  | None => e
  | Some plane =>
      let m := motion plane in
      let tx := - mdx m * 0.001 in
      let ty := mdy m * 0.001 in
      let tz := 3 in
      let rotX := beta (imuData e) * (JS.Math_PI / 180) in
      let rotY := gamma (imuData e) * (JS.Math_PI / 180) in
      let rotZ := alpha (imuData e) * (JS.Math_PI / 180) in
      set_currentPose
        (Some {| position := mkVec3 tx ty tz;
                 rotation := mkVec3 rotX rotY rotZ;
                 planeCenter := center plane;
                 poseConfidence := confidence plane |}) e
  end.

End Plane.

(** *** Collaborators *)

(** What [cv.calcOpticalFlowPyrLK] writes: the new positions and the
    per-point validity flags. *)
Record Flow : Type := mkFlow {
  flow_next : Mat float;
  flow_status : Mat Z
}.

(** The collaborators of the engine.  [None] is a thrown exception. *)
Record Vision : Type := mkVision {
  (* drawImage + getImageData on a scratch canvas: the RGBA bytes *)
  capture : Video -> option (list Z);
  (* cv.cvtColor(frame, gray, cv.COLOR_RGBA2GRAY) *)
  cvtColor : Mat Z -> option (Mat Z);
  (* cv.goodFeaturesToTrack(gray, corners, maxCorners, ...) *)
  goodFeaturesToTrack : Mat Z -> Settings -> option (Mat float);
  (* cv.calcOpticalFlowPyrLK(prevGray, gray, prevPts, nextPts, status, ...) *)
  calcOpticalFlowPyrLK : Mat Z -> Mat Z -> Mat float -> Settings -> option Flow
}.

Inductive StatusLabel : Type := TRACKING | SEARCHING | NO_FEATURES.

(** The calls that leave the engine, in the order they are made. *)
Inductive Call : Type :=
  | CallCapture
  | CallCvtColor
  | CallGoodFeaturesToTrack
  | CallCalcOpticalFlowPyrLK
  | CallDrawDebug (label : StatusLabel).

Definition Call_eqb (a b : Call) : bool :=
  match a, b with
  | CallCapture, CallCapture
  | CallCvtColor, CallCvtColor
  | CallGoodFeaturesToTrack, CallGoodFeaturesToTrack
  | CallCalcOpticalFlowPyrLK, CallCalcOpticalFlowPyrLK => true
  | CallDrawDebug TRACKING, CallDrawDebug TRACKING
  | CallDrawDebug SEARCHING, CallDrawDebug SEARCHING
  | CallDrawDebug NO_FEATURES, CallDrawDebug NO_FEATURES => true
  | _, _ => false
  end.

Section Engine.

Variable cv : Vision.

Local Open Scope float_scope.

(** [detectFeatures()]: the detector's answer replaces [prevPoints]; a
    throw leaves an empty matrix. *)
Definition detectFeatures (e : Engine) : Engine * list Call :=
  match grayFrame e with
  | None => (set_prevPoints (Some emptyMat) e, [])
  | Some gray =>
      match goodFeaturesToTrack cv gray (settings e) with
      | Some corners =>
          (set_prevPoints (Some corners) e, [CallGoodFeaturesToTrack])
      | None =>
          (set_prevPoints (Some emptyMat) e, [CallGoodFeaturesToTrack])
      end
  end.

(** The three arrays the filter loop of [trackPoints] fills. *)
Record Filtered : Type := mkFiltered {
  f_good : list Point;
  f_tracked : list Correspondence;
  f_newPrev : list float
}.

(** The displacement magnitude the outlier test looks at, from
    [(x0, y0)] to [(x1, y1)]. *)
Definition dist (x0 y0 x1 y1 : float) : float :=
  let dx := x1 - x0 in
  let dy := y1 - y0 in
  JS.Math_sqrt (dx * dx + dy * dy).

(** One iteration of [for (let i = 0; i < this.status.rows; i++)]. *)
Definition filter_step (pts next : Mat float) (st : Mat Z)
    (acc : Filtered) (i : nat) : Filtered :=
  if byte_is_one st i then
    let prevX := get32F pts (i * 2) in
    let prevY := get32F pts (i * 2 + 1) in
    let nextX := get32F next (i * 2) in
    let nextY := get32F next (i * 2 + 1) in
    if JS.isNaN prevX || JS.isNaN nextX then acc
    else
      let dx := nextX - prevX in
      let dy := nextY - prevY in
      let dist := JS.Math_sqrt (dx * dx + dy * dy) in
      if dist <? 50 then
        {| f_good := f_good acc ++ [mkPoint nextX nextY];
           f_tracked := f_tracked acc
                          ++ [mkCorr (mkPoint prevX prevY) (mkPoint nextX nextY)];
           f_newPrev := f_newPrev acc ++ [nextX; nextY] |}
      else acc
  else acc.

Definition filter_points (pts next : Mat float) (st : Mat Z) : Filtered :=
  fold_left (filter_step pts next st) (seq 0 (rows st)) (mkFiltered [] [] []).

(** [trackPoints()] *)
Definition trackPoints (e : Engine) : Engine * list Call :=
  match prevPoints e with
  | None => (e, [])
  | Some pts =>
      if (rows pts =? 0)%nat then (e, [])
      else
        let e := set_status (Some emptyMat) (set_nextPoints (Some emptyMat) e) in
        let caught := set_trackedPoints [] (set_goodFeatures [] e) in
        match prevGrayFrame e, grayFrame e with
        | Some prevGray, Some gray =>
            match calcOpticalFlowPyrLK cv prevGray gray pts (settings e) with
            | None => (caught, [CallCalcOpticalFlowPyrLK])
            | Some flow =>
                let e := set_nextPoints (Some (flow_next flow)) e in
                let e := set_status (Some (flow_status flow)) e in
                let f := filter_points pts (flow_next flow) (flow_status flow) in
                let e := set_goodFeatures (f_good f) e in
                let e := set_trackedPoints (f_tracked f) e in
                let e :=
                  match f_newPrev f with
                  | [] => set_prevPoints (Some emptyMat) e
                  | _ :: _ => set_prevPoints (Some (matFromArray (f_newPrev f))) e
                  end in
                (e, [CallCalcOpticalFlowPyrLK])
            end
        | _, _ => (caught, [])
        end
  end.

(** The status line of [drawDebug(result)]. *)
Definition status_label (r : FrameResult) : StatusLabel :=
  if r_isTracking r then TRACKING
  else if r_hasFeatures r then SEARCHING else NO_FEATURES.

(** [drawDebug(result)] only reads the engine; what it paints is left to
    the canvas. *)
Definition drawDebug (e : Engine) (r : FrameResult) : list Call :=
  match debugCanvas e with
  | Some _ => if debugCtx e then [CallDrawDebug (status_label r)] else []
  | None => []
  end.

End Engine.

(** *** The frame pipeline *)

(** How a statement of the [try] block of [processFrame] ends. *)
Inductive Completion (A : Type) : Type :=
  | Normal (a : A)   (* control reaches the next statement *)
  | Returned         (* [return result;] *)
  | Thrown.          (* an exception, on its way to [catch] *)

Arguments Returned {A}.
Arguments Thrown {A}.

(** What the block works on: the engine, the [result] object under
    construction, and the calls made so far. *)
Record Ctx : Type := mkCtx {
  this : Engine;
  result : FrameResult;
  calls : list Call
}.

Definition M (A : Type) : Type := Ctx -> Completion A * Ctx.

Definition ret {A : Type} (a : A) : M A := fun c => (Normal a, c).

Definition bind {A B : Type} (m : M A) (k : A -> M B) : M B :=
  fun c =>
    match m c with
    | (Normal a, c') => k a c'
    | (Returned, c') => (Returned, c')
    | (Thrown, c') => (Thrown, c')
    end.

Declare Scope frame_scope.
Delimit Scope frame_scope with frame.
Bind Scope frame_scope with M.

Notation "x <- m ;; k" := (bind m (fun x => k))
  (at level 61, m at next level, right associativity) : frame_scope.
Notation "m ;; k" := (bind m (fun _ => k))
  (at level 61, right associativity) : frame_scope.

Definition return_result : M unit := fun c => (Returned, c).

Definition get_this : M Engine := fun c => (Normal (this c), c).
Definition get_result : M FrameResult := fun c => (Normal (result c), c).

Definition modify (f : Engine -> Engine) : M unit :=
  fun c => (Normal tt, mkCtx (f (this c)) (result c) (calls c)).

Definition modify_result (f : FrameResult -> FrameResult) : M unit :=
  fun c => (Normal tt, mkCtx (this c) (f (result c)) (calls c)).

Definition log (l : list Call) : M unit :=
  fun c => (Normal tt, mkCtx (this c) (result c) (calls c ++ l)).

Definition when (b : bool) (m : M unit) : M unit :=
  if b then m else ret tt.

(** Reading a property of a field that may hold [null] throws. *)
Definition deref {A : Type} (field : Engine -> option A) : M A :=
  fun c =>
    match field (this c) with
    | Some a => (Normal a, c)
    | None => (Thrown, c)
    end.

(** A call to a collaborator: logged, and a throw propagates. *)
Definition external {A : Type} (name : Call) (answer : option A) : M A :=
  fun c =>
    let c := mkCtx (this c) (result c) (calls c ++ [name]) in
    match answer with
    | Some a => (Normal a, c)
    | None => (Thrown, c)
    end.

(** A method that catches its own exceptions. *)
Definition method (f : Engine -> Engine * list Call) : M unit :=
  fun c =>
    let '(e, l) := f (this c) in
    (Normal tt, mkCtx e (result c) (calls c ++ l)).

Definition set_r_isTracking (v : bool) (r : FrameResult) : FrameResult :=
  mkResult v (r_hasFeatures r) (r_featureCount r) (r_planeCount r)
    (r_pose r) (r_imu r).
Definition set_r_hasFeatures (v : bool) (r : FrameResult) : FrameResult :=
  mkResult (r_isTracking r) v (r_featureCount r) (r_planeCount r)
    (r_pose r) (r_imu r).
Definition set_r_featureCount (v : nat) (r : FrameResult) : FrameResult :=
  mkResult (r_isTracking r) (r_hasFeatures r) v (r_planeCount r)
    (r_pose r) (r_imu r).
Definition set_r_planeCount (v : nat) (r : FrameResult) : FrameResult :=
  mkResult (r_isTracking r) (r_hasFeatures r) (r_featureCount r) v
    (r_pose r) (r_imu r).
Definition set_r_pose (v : option Pose) (r : FrameResult) : FrameResult :=
  mkResult (r_isTracking r) (r_hasFeatures r) (r_featureCount r)
    (r_planeCount r) v (r_imu r).

Section Pipeline.

Variable cv : Vision.

Local Open Scope frame_scope.
Local Open Scope Z_scope.

(** "Initialize frame matrix on first run": a buffer of the video's size,
    whose bytes are only defined once the capture has filled them. *)
Definition ensure_frame (videoWidth videoHeight : nat) : M unit :=
  e <- get_this ;;
  let stale :=
    match frame e with
    | None => true
    | Some f =>
        negb (rows f =? videoHeight)%nat || negb (cols f =? videoWidth)%nat
    end in
  when stale
    (modify (set_frame (Some (mkMat videoHeight videoWidth []))) ;;
     modify (fun e =>
               match debugCanvas e with
               | Some _ => set_debugCanvas (Some (mkCanvas videoWidth videoHeight)) e
               | None => e
               end)).

(** "Capture frame from video using canvas", then "Convert to grayscale". *)
Definition grab_frame (video : Video) : M unit :=
  pixels <- external CallCapture (capture cv video) ;;
  f <- deref frame ;;
  let f := mkMat (rows f) (cols f) pixels in
  modify (set_frame (Some f)) ;;
  e <- get_this ;;
  gray <- external CallCvtColor
            (match grayFrame e with
             | Some _ => cvtColor cv f
             | None => None
             end) ;;
  modify (set_grayFrame (Some gray)).

(** "Detect features on first frame or periodically" (the log line that
    follows the detection only writes to the console). *)
Definition refresh_features : M unit :=
  pts <- deref prevPoints ;;
  e <- get_this ;;
  let needsFeatures := Z.of_nat (rows pts) <? minFeatures (settings e) in
  let refreshInterval :=
    JS.rem_is_zero (frameCount e) (featureRefreshInterval (settings e)) in
  when (needsFeatures || refreshInterval) (method (detectFeatures cv)).

(** [this.prevGrayFrame.rows > 0 &&
     this.prevPoints.rows >= this.settings.minFeatures] *)
Definition can_track : M bool :=
  prevGray <- deref prevGrayFrame ;;
  if (0 <? rows prevGray)%nat then
    pts <- deref prevPoints ;;
    e <- get_this ;;
    ret (minFeatures (settings e) <=? Z.of_nat (rows pts))
  else ret false.

(** "Track if we have previous frame and enough points". *)
Definition track_and_estimate : M unit :=
  method (trackPoints cv) ;;
  e <- get_this ;;
  modify_result (set_r_featureCount (length (goodFeatures e))) ;;
  r <- get_result ;;
  modify_result
    (set_r_hasFeatures
       (minFeatures (settings e) <=? Z.of_nat (r_featureCount r))) ;;
  r <- get_result ;;
  when (r_hasFeatures r)
    (e <- get_this ;;
     let '(planeFound, e') := estimatePlane e in
     modify (fun _ => e') ;;
     modify_result (set_r_planeCount (if planeFound then 1%nat else 0%nat)) ;;
     when planeFound
       (modify estimatePose ;;
        modify_result (set_r_isTracking true) ;;
        e <- get_this ;;
        modify_result (set_r_pose (currentPose e)))).

(** "Still building up - report features detected". *)
Definition report_detected : M unit :=
  pts <- deref prevPoints ;;
  modify_result (set_r_featureCount (rows pts)) ;;
  r <- get_result ;;
  modify_result (set_r_hasFeatures (0 <? r_featureCount r)%nat).

(** The [try] block of [processFrame(video)]; [now] is [Date.now()]. *)
Definition processFrame_try (now : Z) (video : Video) : M unit :=
  e <- get_this ;;
  when (2000 <? now - lastLogTime e) (modify (set_lastLogTime now)) ;;
  if (videoWidth video =? 0)%nat || (videoHeight video =? 0)%nat then
    return_result
  else
    ensure_frame (videoWidth video) (videoHeight video) ;;
    grab_frame video ;;
    modify (fun e => set_frameCount (JS.js_incr (frameCount e)) e) ;;
    refresh_features ;;
    tracking <- can_track ;;
    (if tracking then track_and_estimate else report_detected) ;;
    gray <- deref grayFrame ;;
    _ <- deref prevGrayFrame ;;
    modify (set_prevGrayFrame (Some gray)) ;;
    e <- get_this ;;
    r <- get_result ;;
    log (drawDebug e r).

(** [processFrame(video)]: the returned object, the engine afterwards and
    the calls made. *)
Definition processFrame (now : Z) (video : Video) (e : Engine)
    : FrameResult * Engine * list Call :=
  let r0 := mkResult false false 0 0 None (imuData e) in
  if negb (initialized e) then (r0, e, [])
  else
    match processFrame_try now video (mkCtx e r0 []) with
    | (Returned, c) => (result c, this c, calls c)
    | (_, c) =>
        (result c, set_isTracking (r_isTracking (result c)) (this c), calls c)
    end.

End Pipeline.

(** * Binary64 arithmetic

    The facts about rounding that the engine's numeric claims rest on,
    derived from the specification of the primitive operations
    ([SpecFloat], [FloatAxioms]). *)

Module FloatOrder.

Local Open Scope Z_scope.

(** The value of the binary64 pair [(m, e)], in units of 2^-1074. *)
Definition scaled (m : Z) (e : Z) : Z := m * 2 ^ (e + 1074).

Definition fexp64 (d : Z) : Z := Z.max (d - 53) (-1074).

Lemma fexp_eq d : SpecFloat.fexp prec emax d = fexp64 d.
Proof. reflexivity. Qed.

Lemma pow2_pos k : 0 <= k -> 0 < 2 ^ k.
Proof. intros; apply Z.pow_pos_nonneg; lia. Qed.

Lemma pow2_step k : 0 <= k -> 2 ^ (k + 1) = 2 * 2 ^ k.
Proof. intros; rewrite Z.pow_add_r by lia; lia. Qed.

Lemma pow2_le a b : 0 <= a <= b -> 2 ^ a <= 2 ^ b.
Proof. intros; apply Z.pow_le_mono_r; lia. Qed.

Lemma digits2_pos_spec (p : positive) :
  2 ^ (Zpos (digits2_pos p) - 1) <= Zpos p < 2 ^ Zpos (digits2_pos p).
Proof.
  induction p as [p IH | p IH | ]; cbn [digits2_pos];
    try (rewrite Pos2Z.inj_succ;
         set (d := Zpos (digits2_pos p)) in *;
         assert (Hd : 1 <= d) by (unfold d; lia);
         replace (Z.succ d - 1) with (d - 1 + 1) by lia;
         replace (Z.succ d) with (d + 1) by lia;
         rewrite !pow2_step by lia; lia).
  cbn. lia.
Qed.


Definition canonical (m : positive) (e : Z) : Prop :=
  fexp64 (Zpos (digits2_pos m) + e) = e.

Lemma valid_finite_inv s m e :
  valid_binary (S754_finite s m e) = true -> canonical m e /\ e <= 971.
Proof.
  unfold valid_binary, bounded, canonical_mantissa, canonical.
  rewrite fexp_eq. intros H. apply andb_prop in H. destruct H as [H1 H2].
  apply Z.eqb_eq in H1. apply Z.leb_le in H2. change (emax - prec) with 971 in H2.
  auto.
Qed.

Lemma canonical_bounds m e :
  canonical m e ->
  -1074 <= e /\ Zpos m < 2 ^ 53 /\ (-1074 < e -> 2 ^ 52 <= Zpos m).
Proof.
  unfold canonical, fexp64. intros H.
  pose proof (digits2_pos_spec m) as [Hlo Hhi].
  set (d := Zpos (digits2_pos m)) in *.
  assert (Hd : 1 <= d) by (unfold d; lia).
  assert (d <= 53) by lia.
  repeat split.
  - lia.
  - eapply Z.lt_le_trans; [exact Hhi|]. apply pow2_le. lia.
  - intros He. assert (d = 53) by lia. subst d.
    replace 52 with (Zpos (digits2_pos m) - 1) by lia. exact Hlo.
Qed.

Lemma scaled_exp_lt m1 e1 m2 e2 :
  canonical m1 e1 -> canonical m2 e2 -> e1 < e2 ->
  scaled (Zpos m1) e1 < scaled (Zpos m2) e2.
Proof.
  intros C1 C2 Hlt.
  destruct (canonical_bounds C1) as (L1 & U1 & _).
  destruct (canonical_bounds C2) as (L2 & _ & N2).
  specialize (N2 ltac:(lia)). unfold scaled.
  assert (P1 : 0 < 2 ^ (e1 + 1074)) by (apply pow2_pos; lia).
  assert (Hstep : 2 * 2 ^ (e1 + 1074) <= 2 ^ (e2 + 1074)).
  { rewrite <- pow2_step by lia. apply pow2_le. lia. }
  assert (P2 : 0 < 2 ^ (e2 + 1074)) by (apply pow2_pos; lia).
  change (2 ^ 53) with (2 * 2 ^ 52) in U1.
  nia.
Qed.

Lemma SFcompare_scaled m1 e1 m2 e2 :
  valid_binary (S754_finite false m1 e1) = true ->
  valid_binary (S754_finite false m2 e2) = true ->
  SFcompare (S754_finite false m1 e1) (S754_finite false m2 e2)
  = Some (scaled (Zpos m1) e1 ?= scaled (Zpos m2) e2).
Proof.
  intros V1 V2.
  destruct (valid_finite_inv false m1 e1 V1) as [C1 _].
  destruct (valid_finite_inv false m2 e2 V2) as [C2 _].
  cbn [SFcompare]. f_equal.
  destruct (Z.compare_spec e1 e2) as [E | L | G].
  - subst e2. unfold scaled. rewrite Pos.compare_cont_spec. cbn [Pos.switch_Eq].
    destruct (canonical_bounds C1) as (L1 & _ & _).
    assert (P : 0 < 2 ^ (e1 + 1074)) by (apply pow2_pos; lia).
    change (Pos.compare m1 m2) with (Zpos m1 ?= Zpos m2).
    destruct (Z.compare_spec (Zpos m1) (Zpos m2)); symmetry.
    + apply Z.compare_eq_iff. congruence.
    + apply Z.compare_lt_iff. nia.
    + apply Z.compare_gt_iff. nia.
  - symmetry. apply Z.compare_lt_iff. apply scaled_exp_lt; auto.
  - symmetry. apply Z.compare_gt_iff. apply scaled_exp_lt; auto.
Qed.


(** *** Shifting right with a round bit and a sticky bit *)

(** [mrs] is [m0] after [k] applications of [shr_1]. *)
Definition tracks (m0 k : Z) (mrs : shr_record) : Prop :=
  0 <= k /\ shr_m mrs = m0 / 2 ^ k /\
  (m0 mod 2 ^ k = 0 -> shr_r mrs = false /\ shr_s mrs = false).

Lemma mod_pow2_step m0 k :
  0 <= k -> m0 mod 2 ^ (k + 1) = 0 ->
  m0 mod 2 ^ k = 0 /\ (m0 / 2 ^ k) mod 2 = 0.
Proof.
  intros Hk H.
  assert (P : 0 < 2 ^ k) by (apply pow2_pos; lia).
  apply Z.mod_divide in H; [| rewrite pow2_step by lia; lia].
  destruct H as [c Hc]. rewrite pow2_step in Hc by lia.
  assert (E : m0 = (2 * c) * 2 ^ k) by lia.
  rewrite E. rewrite Z.mod_mul by lia. rewrite Z.div_mul by lia.
  split; [reflexivity|]. rewrite Z.mul_comm. apply Z.mod_mul. lia.
Qed.

Lemma div_pow2_step m0 k : 0 <= k -> m0 / 2 ^ (k + 1) = m0 / 2 ^ k / 2.
Proof.
  intros Hk. assert (P : 0 < 2 ^ k) by (apply pow2_pos; lia).
  rewrite pow2_step by lia. rewrite Z.div_div by lia.
  f_equal. lia.
Qed.

Lemma tracks_shr_1 m0 k mrs :
  0 <= m0 -> tracks m0 k mrs -> tracks m0 (k + 1) (shr_1 mrs).
Proof.
  intros Hm (Hk & Hq & Hx).
  assert (P : 0 < 2 ^ k) by (apply pow2_pos; lia).
  assert (Hq0 : 0 <= m0 / 2 ^ k) by (apply Z.div_pos; lia).
  destruct mrs as [m r s]. cbn [shr_m shr_r shr_s] in *.
  unfold tracks. rewrite div_pow2_step by lia. rewrite <- Hq.
  split; [lia|].
  assert (Hs : m0 mod 2 ^ (k + 1) = 0 -> (r || s)%bool = false /\ m mod 2 = 0).
  { intros H0. destruct (mod_pow2_step m0 Hk H0) as [A B].
    destruct (Hx A) as [-> ->]. rewrite Hq. auto. }
  destruct m as [| [p | p |] | p]; cbn [shr_1 shr_m shr_r shr_s]; try lia.
  - split; [reflexivity|]. intros H0. destruct (Hs H0); auto.
  - split. { rewrite Pos2Z.inj_xI. apply Z.div_unique with 1; lia. }
    intros H0. destruct (Hs H0) as [_ B].
    rewrite Pos2Z.inj_xI in B.
    replace (2 * Z.pos p + 1) with (1 + Z.pos p * 2) in B by lia.
    rewrite Z.mod_add in B by lia. discriminate B.
  - split. { rewrite Pos2Z.inj_xO. rewrite Z.mul_comm. symmetry. apply Z.div_mul. lia. }
    intros H0. destruct (Hs H0); auto.
  - split; [reflexivity|]. intros H0. destruct (Hs H0) as [_ B]. discriminate B.
Qed.

Lemma tracks_iter m0 p : 0 <= m0 ->
  forall k mrs, tracks m0 k mrs ->
  tracks m0 (k + Zpos p) (SpecFloat.iter_pos shr_1 p mrs).
Proof.
  intros Hm. induction p as [p IH | p IH |]; intros k mrs T; cbn [SpecFloat.iter_pos].
  - replace (k + Zpos p~1) with (k + 1 + Zpos p + Zpos p) by lia.
    apply IH, IH, tracks_shr_1; assumption.
  - replace (k + Zpos p~0) with (k + Zpos p + Zpos p) by lia.
    apply IH, IH; assumption.
  - apply tracks_shr_1; assumption.
Qed.


Lemma tracks_0 m : tracks m 0 (Build_shr_record m false false).
Proof.
  unfold tracks; cbn. rewrite Z.div_1_r. auto with zarith.
Qed.

Lemma shr_fexp_exact m e :
  0 <= m ->
  exists mrs k,
    shr_fexp prec emax m e loc_Exact = (mrs, e + k) /\
    k = Z.max (fexp64 (Zdigits2 m + e) - e) 0 /\
    tracks m k mrs.
Proof.
  intros Hm. unfold shr_fexp, shr. rewrite fexp_eq.
  cbn [shr_record_of_loc].
  destruct (fexp64 (Zdigits2 m + e) - e) as [| n | n] eqn:En.
  - exists (Build_shr_record m false false), 0.
    rewrite Z.add_0_r. split; [reflexivity | split; [lia | apply tracks_0]].
  - exists (SpecFloat.iter_pos shr_1 n (Build_shr_record m false false)), (Zpos n).
    split; [reflexivity | split; [lia |]].
    change (Zpos n) with (0 + Zpos n). apply tracks_iter; auto using tracks_0.
  - exists (Build_shr_record m false false), 0.
    rewrite Z.add_0_r. split; [reflexivity | split; [lia | apply tracks_0]].
Qed.

Lemma round_nearest_even_bounds m l :
  m <= round_nearest_even m l <= m + 1.
Proof.
  destruct l as [| []]; cbn [round_nearest_even]; try lia.
  destruct (Z.even m); lia.
Qed.

(** Rounding after [k] shifts never passes a multiple of [2 ^ k] that
    the unshifted value did not pass. *)
Lemma round_step m k mrs :
  0 <= m -> tracks m k mrs ->
  let m1 := round_nearest_even (shr_m mrs) (loc_of_shr_record mrs) in
  0 <= m1 /\ forall K, m <= K * 2 ^ k -> m1 <= K.
Proof.
  intros Hm (Hk & Hq & Hx) m1.
  assert (P : 0 < 2 ^ k) by (apply pow2_pos; lia).
  assert (Hq0 : 0 <= m / 2 ^ k) by (apply Z.div_pos; lia).
  pose proof (round_nearest_even_bounds (shr_m mrs) (loc_of_shr_record mrs)) as Hb.
  fold m1 in Hb. split; [lia|].
  intros K HK.
  pose proof (Z.div_mod m (2 ^ k) ltac:(lia)) as Hdm.
  pose proof (Z.mod_pos_bound m (2 ^ k) P) as Hmb.
  destruct (Z.eq_dec (m mod 2 ^ k) 0) as [Hz | Hnz].
  - destruct (Hx Hz) as [Hr Hs].
    assert (m1 = shr_m mrs).
    { unfold m1. destruct mrs as [a r s]; cbn in *. subst r s. reflexivity. }
    nia.
  - nia.
Qed.

Lemma trunc_step m k mrs :
  0 <= m -> tracks m k mrs -> 0 <= shr_m mrs /\ shr_m mrs * 2 ^ k <= m.
Proof.
  intros Hm (Hk & Hq & _).
  assert (P : 0 < 2 ^ k) by (apply pow2_pos; lia).
  rewrite Hq. split; [apply Z.div_pos; lia|].
  rewrite Z.mul_comm. apply Z.mul_div_le. lia.
Qed.

Definition round_result (sx : bool) (m2 e2 : Z) : spec_float :=
  match m2 with
  | Z0 => S754_zero sx
  | Zpos m => if e2 <=? 971 then S754_finite sx m e2 else S754_infinity sx
  | Zneg _ => S754_nan
  end.

Lemma binary_round_aux_spec sx p ex :
  exists m1 e1 m2 e2,
    binary_round_aux prec emax sx (Zpos p) ex loc_Exact = round_result sx m2 e2 /\
    e1 = Z.max ex (fexp64 (Zpos (digits2_pos p) + ex)) /\
    (forall K, Zpos p <= K * 2 ^ (e1 - ex) -> m1 <= K) /\
    e1 <= e2 /\ 0 <= m2 /\ m2 * 2 ^ (e2 - e1) <= m1 /\
    Zpos p / 2 ^ (e1 - ex) <= m1 /\
    e2 = Z.max e1 (fexp64 (Zdigits2 m1 + e1)) /\
    m2 = m1 / 2 ^ (e2 - e1).
Proof.
  unfold binary_round_aux.
  destruct (shr_fexp_exact ex (Pos2Z.is_nonneg p)) as (mrs1 & k1 & E1 & Hk1 & T1).
  rewrite E1.
  destruct (round_step (Pos2Z.is_nonneg p) T1) as [Hm1 HK].
  pose proof (round_nearest_even_bounds (shr_m mrs1) (loc_of_shr_record mrs1))
    as [Hfloor _].
  set (m1 := round_nearest_even (shr_m mrs1) (loc_of_shr_record mrs1)) in *.
  destruct (shr_fexp_exact (m := m1) (ex + k1) Hm1) as (mrs2 & k2 & E2 & Hk2 & T2).
  rewrite E2.
  destruct (trunc_step Hm1 T2) as [Hm2 Hle].
  exists m1, (ex + k1), (shr_m mrs2), (ex + k1 + k2).
  cbn [Zdigits2] in Hk1.
  split; [reflexivity|].
  split; [lia|].
  split.
  { intros K HK'. apply HK. replace (ex + k1 - ex) with k1 in HK' by lia. exact HK'. }
  split; [lia|].
  split; [exact Hm2|].
  replace (ex + k1 + k2 - (ex + k1)) with k2 by lia.
  replace (ex + k1 - ex) with k1 by lia.
  split; [exact Hle|].
  split. { destruct T1 as (_ & <- & _). exact Hfloor. }
  split; [lia|]. destruct T2 as (_ & Hq & _). exact Hq.
Qed.

Lemma scaled_shift m e k :
  -1074 <= e -> 0 <= k -> scaled (m * 2 ^ k) e = scaled m (e + k).
Proof.
  intros He Hk. unfold scaled.
  replace (e + k + 1074) with (k + (e + 1074)) by lia.
  rewrite (Z.pow_add_r 2 k (e + 1074)) by lia. ring.
Qed.

Lemma magnitude_le p ex mB eB :
  -1074 <= ex -> -1074 <= eB ->
  scaled (Zpos p) ex <= scaled (Zpos mB) eB ->
  Zpos (digits2_pos p) + ex <= Zpos (digits2_pos mB) + eB.
Proof.
  intros Hex HeB Hle. unfold scaled in Hle.
  pose proof (digits2_pos_spec p) as [Lp _].
  pose proof (digits2_pos_spec mB) as [_ UB].
  set (dp := Zpos (digits2_pos p)) in *. set (dB := Zpos (digits2_pos mB)) in *.
  assert (1 <= dp) by (unfold dp; lia). assert (1 <= dB) by (unfold dB; lia).
  assert (P1 : 0 < 2 ^ (ex + 1074)) by (apply pow2_pos; lia).
  assert (P2 : 0 < 2 ^ (eB + 1074)) by (apply pow2_pos; lia).
  assert (Hlt : 2 ^ (dp - 1 + (ex + 1074)) < 2 ^ (dB + (eB + 1074))).
  { rewrite (Z.pow_add_r 2 (dp - 1) (ex + 1074)) by lia.
    rewrite (Z.pow_add_r 2 dB (eB + 1074)) by lia.
    apply Z.le_lt_trans with (Zpos p * 2 ^ (ex + 1074)).
    - apply Z.mul_le_mono_nonneg_r; lia.
    - apply Z.le_lt_trans with (Zpos mB * 2 ^ (eB + 1074)); [exact Hle|].
      apply Z.mul_lt_mono_pos_r; lia. }
  apply Z.pow_lt_mono_r_iff in Hlt; lia.
Qed.

(** Rounding to nearest does not pass a representable number that the
    exact value does not pass. *)
Lemma binary_round_aux_le sx p ex mB eB :
  -1074 <= ex -> canonical mB eB ->
  scaled (Zpos p) ex <= scaled (Zpos mB) eB ->
  match binary_round_aux prec emax sx (Zpos p) ex loc_Exact with
  | S754_zero s => s = sx
  | S754_finite s m e =>
      s = sx /\ -1074 <= e /\ scaled (Zpos m) e <= scaled (Zpos mB) eB
  | S754_infinity s => s = sx /\ 2 ^ 2046 <= scaled (Zpos mB) eB
  | S754_nan => False
  end.
Proof.
  intros Hex CB Hle.
  destruct (canonical_bounds CB) as (HeB & _ & _).
  destruct (binary_round_aux_spec sx p ex)
    as (m1 & e1 & m2 & e2 & -> & He1 & HK & He12 & Hm2 & Htr & _).
  pose proof (@magnitude_le p ex mB eB Hex HeB Hle) as Hmag.
  assert (H1 : scaled m1 e1 <= scaled (Zpos mB) eB).
  { destruct (Z.le_gt_cases ex (fexp64 (Zpos (digits2_pos p) + ex))) as [Hn | Hn].
    - assert (He1' : e1 = fexp64 (Zpos (digits2_pos p) + ex)) by lia.
      assert (He1B : e1 <= eB).
      { unfold canonical in CB. rewrite <- CB, He1'. unfold fexp64. lia. }
      assert (Hm1 : m1 <= Zpos mB * 2 ^ (eB - e1)).
      { apply HK.
        assert (P : 0 < 2 ^ (ex + 1074)) by (apply pow2_pos; lia).
        apply Z.mul_le_mono_pos_r with (p := 2 ^ (ex + 1074)); [exact P|].
        fold (scaled (Zpos p) ex).
        rewrite <- !Z.mul_assoc, <- !Z.pow_add_r by lia.
        replace (eB - e1 + (e1 - ex + (ex + 1074))) with (eB + 1074) by lia.
        exact Hle. }
      assert (P : 0 < 2 ^ (e1 + 1074)) by (apply pow2_pos; lia).
      unfold scaled.
      replace (eB + 1074) with (eB - e1 + (e1 + 1074)) by lia.
      rewrite (Z.pow_add_r 2 (eB - e1) (e1 + 1074)) by lia. nia.
    - assert (He1' : e1 = ex) by lia.
      assert (m1 <= Zpos p).
      { apply HK. rewrite He1', Z.sub_diag. cbn. lia. }
      assert (P : 0 < 2 ^ (ex + 1074)) by (apply pow2_pos; lia).
      rewrite He1'. unfold scaled in *. nia. }
  assert (H2 : scaled m2 e2 <= scaled m1 e1).
  { assert (He1lo : -1074 <= e1) by lia.
    assert (P : 0 < 2 ^ (e1 + 1074)) by (apply pow2_pos; lia).
    unfold scaled. replace (e2 + 1074) with (e2 - e1 + (e1 + 1074)) by lia.
    rewrite (Z.pow_add_r 2 (e2 - e1) (e1 + 1074)) by lia. nia. }
  unfold round_result. destruct m2 as [| m | m]; [reflexivity | | lia].
  destruct (Z.leb_spec e2 971) as [Hfin | Hinf].
  - split; [reflexivity|]. split; lia.
  - split; [reflexivity|].
    assert (2 ^ 2046 <= scaled (Zpos m) e2); [|lia].
    unfold scaled.
    assert (2 ^ 2046 <= 2 ^ (e2 + 1074)) by (apply pow2_le; lia).
    nia.
Qed.

Lemma binary_round_aux_sign sx p ex :
  match binary_round_aux prec emax sx (Zpos p) ex loc_Exact with
  | S754_zero s | S754_infinity s | S754_finite s _ _ => s = sx
  | S754_nan => False
  end.
Proof.
  destruct (binary_round_aux_spec sx p ex)
    as (m1 & e1 & m2 & e2 & -> & _ & _ & _ & Hm2 & _).
  unfold round_result. destruct m2 as [| m | m]; [reflexivity | | lia].
  destruct (e2 <=? 971); reflexivity.
Qed.


(** *** Alignment, [binary_round] and [binary_normalize] *)

Lemma iter_xO m d : Zpos (Pos.iter xO m d) = Zpos m * 2 ^ Zpos d.
Proof.
  induction d as [| d IH] using Pos.peano_ind.
  - cbn. lia.
  - rewrite Pos.iter_succ, Pos2Z.inj_xO, IH, Pos2Z.inj_succ.
    unfold Z.succ. rewrite pow2_step by lia. ring.
Qed.

Lemma shl_align_spec mx ex ex' :
  snd (shl_align mx ex ex') = Z.min ex ex' /\
  Zpos (fst (shl_align mx ex ex')) = Zpos mx * 2 ^ (ex - Z.min ex ex').
Proof.
  unfold shl_align. destruct (ex' - ex) as [| d | d] eqn:E; cbn [fst snd].
  - replace (Z.min ex ex') with ex by lia. rewrite Z.sub_diag. cbn. lia.
  - replace (Z.min ex ex') with ex by lia. rewrite Z.sub_diag. cbn. lia.
  - replace (Z.min ex ex') with ex' by lia.
    replace (ex - ex') with (Zpos d) by lia. split; [reflexivity | apply iter_xO].
Qed.

Lemma shl_align_scaled mx ex ex' :
  -1074 <= ex -> -1074 <= ex' ->
  scaled (Zpos (fst (shl_align mx ex ex'))) (Z.min ex ex') = scaled (Zpos mx) ex.
Proof.
  intros H1 H2. destruct (shl_align_spec mx ex ex') as [_ ->].
  rewrite scaled_shift by lia. f_equal. lia.
Qed.

(** What a rounding towards a non-negative result may produce, below a
    representable bound [(mB, eB)]. *)
Definition rounds_below (sx : bool) (mB : positive) (eB : Z) (r : spec_float)
    : Prop :=
  match r with
  | S754_zero s => s = sx
  | S754_finite s m e =>
      s = sx /\ -1074 <= e /\ scaled (Zpos m) e <= scaled (Zpos mB) eB
  | S754_infinity s => s = sx /\ 2 ^ 2046 <= scaled (Zpos mB) eB
  | S754_nan => False
  end.

Definition has_sign (sx : bool) (r : spec_float) : Prop :=
  match r with
  | S754_zero s | S754_infinity s | S754_finite s _ _ => s = sx
  | S754_nan => False
  end.

Lemma fexp64_lower d : -1074 <= fexp64 d.
Proof. unfold fexp64. lia. Qed.

Lemma binary_round_le sx mx ex mB eB :
  -1074 <= ex -> canonical mB eB ->
  scaled (Zpos mx) ex <= scaled (Zpos mB) eB ->
  rounds_below sx mB eB (binary_round prec emax sx mx ex).
Proof.
  intros Hex CB Hle. unfold binary_round. rewrite fexp_eq.
  set (t := fexp64 (Zpos (digits2_pos mx) + ex)).
  pose proof (fexp64_lower (Zpos (digits2_pos mx) + ex)) as Ht. fold t in Ht.
  pose proof (shl_align_spec mx ex t) as [Hs _].
  pose proof (@shl_align_scaled mx ex t Hex Ht) as Hv.
  destruct (shl_align mx ex t) as [mz ez]. cbn [fst snd] in *. subst ez.
  apply binary_round_aux_le; [lia | exact CB | rewrite Hv; exact Hle].
Qed.

Lemma binary_round_sign sx mx ex :
  has_sign sx (binary_round prec emax sx mx ex).
Proof.
  unfold binary_round.
  destruct (shl_align mx ex _) as [mz ez]. apply binary_round_aux_sign.
Qed.


(** *** Rounding does not fall below a representable number *)

(** Dropping the low bits of [(m, e)] down to the format's exponent
    keeps the value at or above every representable [(mB, eB)] below
    it. *)
Lemma trunc_ge m e mB eB :
  0 <= m -> -1074 <= e -> canonical mB eB ->
  scaled (Zpos mB) eB <= scaled m e ->
  let e' := Z.max e (fexp64 (Zdigits2 m + e)) in
  scaled (Zpos mB) eB <= scaled (m / 2 ^ (e' - e)) e'.
Proof.
  intros Hm He CB Hle. cbv zeta.
  destruct (canonical_bounds CB) as (HeB & HmB & _).
  set (e' := Z.max e (fexp64 (Zdigits2 m + e))).
  assert (He' : e <= e') by (unfold e'; lia).
  assert (P : 0 < 2 ^ (e' - e)) by (apply pow2_pos; lia).
  assert (Pe : 0 < 2 ^ (e + 1074)) by (apply pow2_pos; lia).
  assert (Pe' : 0 < 2 ^ (e' + 1074)) by (apply pow2_pos; lia).
  assert (PB : 0 < 2 ^ (eB + 1074)) by (apply pow2_pos; lia).
  assert (Hsplit : 2 ^ (e' + 1074) = 2 ^ (e' - e) * 2 ^ (e + 1074)).
  { rewrite <- Z.pow_add_r by lia. f_equal. lia. }
  destruct (Z.le_gt_cases e' eB) as [Hcase | Hcase].
  - (* the bound is a multiple of the target unit *)
    set (K := Zpos mB * 2 ^ (eB - e')).
    assert (HK : scaled (Zpos mB) eB = K * 2 ^ (e' + 1074)).
    { unfold scaled, K. rewrite <- Z.mul_assoc, <- Z.pow_add_r by lia.
      do 2 f_equal. lia. }
    assert (HKm : K * 2 ^ (e' - e) <= m).
    { apply Z.mul_le_mono_pos_r with (p := 2 ^ (e + 1074)); [exact Pe|].
      rewrite <- Z.mul_assoc, <- Hsplit, <- HK. exact Hle. }
    assert (HKq : K <= m / 2 ^ (e' - e)).
    { apply Z.div_le_lower_bound; [exact P | lia]. }
    rewrite HK. unfold scaled. apply Z.mul_le_mono_nonneg_r; lia.
  - (* the bound lies a whole binade below *)
    destruct (Z.eq_dec e' e) as [Heq | Hne].
    + rewrite Heq, Z.sub_diag. cbn [Z.pow]. rewrite Z.div_1_r. exact Hle.
    + assert (Hfe : e' = fexp64 (Zdigits2 m + e)) by (unfold e'; lia).
      destruct m as [| pm | pm]; [| | lia].
      { unfold scaled in Hle. rewrite Z.mul_0_l in Hle.
        assert (0 < Zpos mB * 2 ^ (eB + 1074)) by (apply Z.mul_pos_pos; lia).
        lia. }
      cbn [Zdigits2] in Hfe, e'.
      pose proof (digits2_pos_spec pm) as [Lp _].
      set (d := Zpos (digits2_pos pm)) in *.
      assert (Hd : e' = d + e - 53) by (unfold fexp64 in Hfe; lia).
      assert (Hn : e' - e = d - 53) by lia.
      assert (Hq : 2 ^ 52 <= Zpos pm / 2 ^ (e' - e)).
      { apply Z.div_le_lower_bound; [exact P|].
        rewrite Hn, <- Z.pow_add_r by lia.
        replace (d - 53 + 52) with (d - 1) by lia. exact Lp. }
      apply Z.le_trans with (2 ^ 52 * 2 ^ (e' + 1074)).
      * unfold scaled.
        apply Z.le_trans with (2 ^ 53 * 2 ^ (eB + 1074)).
        { apply Z.mul_le_mono_nonneg_r; lia. }
        change (2 ^ 53) with (2 ^ 52 * 2). rewrite <- Z.mul_assoc.
        apply Z.mul_le_mono_nonneg_l; [lia|].
        rewrite <- pow2_step by lia. apply pow2_le. lia.
      * unfold scaled. apply Z.mul_le_mono_nonneg_r; lia.
Qed.

(** What a rounding may produce at or above a representable bound. *)
Definition rounds_above (sx : bool) (mB : positive) (eB : Z) (r : spec_float)
    : Prop :=
  match r with
  | S754_finite s m e =>
      s = sx /\ -1074 <= e /\ scaled (Zpos mB) eB <= scaled (Zpos m) e
  | S754_infinity s => s = sx
  | S754_zero _ | S754_nan => False
  end.

Lemma binary_round_aux_ge sx p ex mB eB :
  -1074 <= ex -> canonical mB eB ->
  scaled (Zpos mB) eB <= scaled (Zpos p) ex ->
  rounds_above sx mB eB (binary_round_aux prec emax sx (Zpos p) ex loc_Exact).
Proof.
  intros Hex CB Hle.
  destruct (canonical_bounds CB) as (HeB & _ & _).
  destruct (binary_round_aux_spec sx p ex)
    as (m1 & e1 & m2 & e2 & -> & He1 & _ & He12 & Hm2 & _ & Hfl & He2 & Hq).
  pose proof (@trunc_ge (Zpos p) ex mB eB (Pos2Z.is_nonneg p) Hex CB Hle) as H1.
  cbv zeta in H1. cbn [Zdigits2] in H1. rewrite <- He1 in H1.
  assert (He1lo : -1074 <= e1) by lia.
  assert (Hm1 : 0 <= m1).
  { apply Z.le_trans with (Zpos p / 2 ^ (e1 - ex)); [| exact Hfl].
    apply Z.div_pos; [lia | apply pow2_pos; lia]. }
  assert (H1' : scaled (Zpos mB) eB <= scaled m1 e1).
  { apply Z.le_trans with (scaled (Zpos p / 2 ^ (e1 - ex)) e1); [exact H1|].
    unfold scaled. apply Z.mul_le_mono_nonneg_r; [| exact Hfl].
    apply Z.lt_le_incl, pow2_pos. lia. }
  pose proof (@trunc_ge m1 e1 mB eB Hm1 He1lo CB H1') as H2.
  cbv zeta in H2. rewrite <- He2, <- Hq in H2.
  assert (PB : 0 < scaled (Zpos mB) eB).
  { unfold scaled. apply Z.mul_pos_pos; [lia | apply pow2_pos; lia]. }
  unfold round_result. destruct m2 as [| m | m]; [| | lia].
  - unfold scaled in H2, PB. rewrite Z.mul_0_l in H2. lia.
  - destruct (e2 <=? 971); cbn; [split; [reflexivity | split; [lia | exact H2]]
                                | reflexivity].
Qed.

Lemma binary_round_ge sx mx ex mB eB :
  -1074 <= ex -> canonical mB eB ->
  scaled (Zpos mB) eB <= scaled (Zpos mx) ex ->
  rounds_above sx mB eB (binary_round prec emax sx mx ex).
Proof.
  intros Hex CB Hle. unfold binary_round. rewrite fexp_eq.
  set (t := fexp64 (Zpos (digits2_pos mx) + ex)).
  pose proof (fexp64_lower (Zpos (digits2_pos mx) + ex)) as Ht. fold t in Ht.
  pose proof (shl_align_spec mx ex t) as [Hs _].
  pose proof (@shl_align_scaled mx ex t Hex Ht) as Hv.
  destruct (shl_align mx ex t) as [mz ez]. cbn [fst snd] in *. subst ez.
  apply binary_round_aux_ge; [lia | exact CB | rewrite Hv; exact Hle].
Qed.

(** *** Sums and differences of positive numbers *)

Lemma SFsub_below mx ex my ey :
  valid_binary (S754_finite false mx ex) = true ->
  valid_binary (S754_finite false my ey) = true ->
  let r := SF64sub (S754_finite false mx ex) (S754_finite false my ey) in
  r = S754_zero false \/ has_sign true r \/ rounds_below false mx ex r.
Proof.
  intros Vx Vy.
  destruct (valid_finite_inv false mx ex Vx) as [Cx _].
  destruct (valid_finite_inv false my ey Vy) as [Cy _].
  destruct (canonical_bounds Cx) as (Lx & _ & _).
  destruct (canonical_bounds Cy) as (Ly & _ & _).
  unfold SF64sub, SFsub. cbn [cond_Zopp].
  pose proof (@shl_align_scaled mx ex (Z.min ex ey) Lx ltac:(lia)) as Ha.
  replace (Z.min ex (Z.min ex ey)) with (Z.min ex ey) in Ha by lia.
  set (a := Zpos (fst (shl_align mx ex (Z.min ex ey)))) in *.
  set (b := Zpos (fst (shl_align my ey (Z.min ex ey)))).
  assert (Hb : 0 < b) by (unfold b; lia).
  cbv zeta. unfold binary_normalize.
  destruct (a - b) as [| z | z] eqn:Ez.
  - left. reflexivity.
  - right. right. apply binary_round_le; [lia | exact Cx |].
    rewrite <- Ha. unfold scaled.
    assert (0 < 2 ^ (Z.min ex ey + 1074)) by (apply pow2_pos; lia). nia.
  - right. left. apply binary_round_sign.
Qed.

Lemma SFadd_sign mx ex my ey :
  has_sign false
    (SF64add (S754_finite false mx ex) (S754_finite false my ey)).
Proof.
  unfold SF64add, SFadd. cbn [cond_Zopp]. cbv zeta. unfold binary_normalize.
  rewrite <- Pos2Z.inj_add. apply binary_round_sign.
Qed.


Lemma SFadd_above mx ex my ey mB eB :
  valid_binary (S754_finite false mx ex) = true ->
  valid_binary (S754_finite false my ey) = true ->
  canonical mB eB ->
  scaled (Zpos mB) eB <= scaled (Zpos mx) ex + scaled (Zpos my) ey ->
  rounds_above false mB eB
    (SF64add (S754_finite false mx ex) (S754_finite false my ey)).
Proof.
  intros Vx Vy CB Hle.
  destruct (valid_finite_inv false mx ex Vx) as [Cx _].
  destruct (valid_finite_inv false my ey Vy) as [Cy _].
  destruct (canonical_bounds Cx) as (Lx & _ & _).
  destruct (canonical_bounds Cy) as (Ly & _ & _).
  unfold SF64add, SFadd. cbn [cond_Zopp]. cbv zeta. unfold binary_normalize.
  pose proof (@shl_align_scaled mx ex (Z.min ex ey) Lx ltac:(lia)) as Ha.
  pose proof (@shl_align_scaled my ey (Z.min ex ey) Ly ltac:(lia)) as Hb.
  replace (Z.min ex (Z.min ex ey)) with (Z.min ex ey) in Ha by lia.
  replace (Z.min ey (Z.min ex ey)) with (Z.min ex ey) in Hb by lia.
  rewrite <- Pos2Z.inj_add.
  apply binary_round_ge; [lia | exact CB |].
  rewrite Pos2Z.inj_add. unfold scaled in *. rewrite Z.mul_add_distr_r. lia.
Qed.

Lemma digits2_pos_unique p d :
  2 ^ (d - 1) <= Zpos p < 2 ^ d -> 1 <= d -> Zpos (digits2_pos p) = d.
Proof.
  intros [Lo Hi] Hd. pose proof (digits2_pos_spec p) as [Lo' Hi'].
  set (d' := Zpos (digits2_pos p)) in *.
  assert (1 <= d') by (unfold d'; lia).
  destruct (Z.lt_trichotomy d' d) as [Hlt | [Heq | Hgt]]; [| exact Heq |].
  - assert (2 ^ d' <= 2 ^ (d - 1)) by (apply pow2_le; lia). lia.
  - assert (2 ^ d <= 2 ^ (d' - 1)) by (apply pow2_le; lia). lia.
Qed.

(** A normal number has a successor one unit in the last place above
    it. *)
Lemma successor_canonical m e :
  canonical m e -> 2 ^ 52 <= Zpos m ->
  exists m' e', canonical m' e' /\
                scaled (Zpos m') e' = scaled (Zpos m) e + 2 ^ (e + 1074).
Proof.
  intros C Hn. destruct (canonical_bounds C) as (Le & Um & _).
  destruct (Z.lt_ge_cases (Zpos m + 1) (2 ^ 53)) as [Hin | Hout].
  - exists (Pos.succ m), e. split.
    + unfold canonical. rewrite (@digits2_pos_unique (Pos.succ m) 53).
      * unfold canonical in C.
        rewrite (@digits2_pos_unique m 53) in C; [exact C | | lia].
        change (53 - 1) with 52. lia.
      * change (53 - 1) with 52. rewrite Pos2Z.inj_succ. lia.
      * lia.
    + unfold scaled. rewrite Pos2Z.inj_succ. unfold Z.succ.
      rewrite Z.mul_add_distr_r. lia.
  - assert (Hm : Zpos m = 2 ^ 53 - 1) by lia.
    exists 4503599627370496%positive, (e + 1). split.
    + unfold canonical. change (Zpos (digits2_pos 4503599627370496)) with 53.
      unfold canonical in C.
      rewrite (@digits2_pos_unique m 53) in C; [| change (53 - 1) with 52; lia | lia].
      unfold fexp64 in *. lia.
    + unfold scaled. rewrite Hm.
      replace (e + 1 + 1074) with (e + 1074 + 1) by lia.
      rewrite pow2_step by lia.
      change (Zpos 4503599627370496) with (2 ^ 52).
      change (2 ^ 53) with (2 * 2 ^ 52). ring.
Qed.

End FloatOrder.

Module Confidence.
Import FloatOrder.
Local Open Scope float_scope.

(** The confidence is a number of the interval [0, 1]. *)
Definition conf_ok (c : float) : Prop := (0 <=? c) = true /\ (c <=? 1) = true.

Lemma Math_max_0 d :
  JS.Math_max 0 d = if is_nan d then nan else if 0 <? d then d else 0.
Proof.
  unfold JS.Math_max. change (is_nan 0) with false. change (get_sign 0) with false.
  cbn [orb]. destruct (is_nan d), (0 <? d), (d <? 0); reflexivity.
Qed.

Lemma Math_min_1 x :
  JS.Math_min 1 x = if is_nan x then nan else if 1 <? x then 1 else x.
Proof.
  unfold JS.Math_min. change (is_nan 1) with false. change (get_sign 1) with false.
  cbn [orb]. destruct (is_nan x), (1 <? x), (x <? 1); reflexivity.
Qed.

Lemma SFeqb_refl x : x <> S754_nan -> SFeqb x x = true.
Proof.
  intros H. unfold SFeqb.
  destruct x as [[] | [] | | [] m e]; try reflexivity; try congruence;
    cbn [SFcompare];
    rewrite Z.compare_refl, Pos.compare_cont_spec, Pos.compare_refl; reflexivity.
Qed.

Lemma is_nan_false x : Prim2SF x <> S754_nan -> is_nan x = false.
Proof.
  intros H. unfold is_nan. rewrite FloatAxioms.eqb_spec, SFeqb_refl by assumption. reflexivity.
Qed.

Definition SFone : spec_float := S754_finite false 4503599627370496 (-52).

Lemma Prim2SF_one : Prim2SF 1 = SFone.
Proof. reflexivity. Qed.

Lemma Prim2SF_zero : Prim2SF 0 = S754_zero false.
Proof. reflexivity. Qed.

(** The shapes a confidence can take. *)
Lemma conf_ok_inv c :
  conf_ok c ->
  (exists s, Prim2SF c = S754_zero s) \/
  (exists m e, Prim2SF c = S754_finite false m e /\
               valid_binary (S754_finite false m e) = true /\
               (scaled (Zpos m) e <= 2 ^ 1074)%Z).
Proof.
  intros [H0 H1]. rewrite FloatAxioms.leb_spec, Prim2SF_zero in H0.
  rewrite FloatAxioms.leb_spec, Prim2SF_one in H1.
  pose proof (Prim2SF_valid c) as V.
  destruct (Prim2SF c) as [s | s | | s m e] eqn:E.
  - left. eauto.
  - destruct s; discriminate.
  - discriminate.
  - destruct s; [discriminate|]. right. exists m, e. repeat split; auto.
    unfold SFleb, SFone in H1. rewrite SFcompare_scaled in H1 by (auto; reflexivity).
    change (scaled 4503599627370496 (-52)) with (2 ^ 1074)%Z in H1.
    destruct (Z.compare_spec (scaled (Z.pos m) e) (2 ^ 1074)); try discriminate; lia.
Qed.


Lemma SFleb_scaled m1 e1 m2 e2 :
  valid_binary (S754_finite false m1 e1) = true ->
  valid_binary (S754_finite false m2 e2) = true ->
  (scaled (Zpos m1) e1 <= scaled (Zpos m2) e2)%Z ->
  SFleb (S754_finite false m1 e1) (S754_finite false m2 e2) = true.
Proof.
  intros V1 V2 H. unfold SFleb. rewrite SFcompare_scaled by assumption.
  destruct (Z.compare_spec (scaled (Zpos m1) e1) (scaled (Zpos m2) e2));
    try reflexivity; lia.
Qed.

Lemma SFltb_scaled_false m1 e1 m2 e2 :
  valid_binary (S754_finite false m1 e1) = true ->
  valid_binary (S754_finite false m2 e2) = true ->
  SFltb (S754_finite false m1 e1) (S754_finite false m2 e2) = false ->
  (scaled (Zpos m2) e2 <= scaled (Zpos m1) e1)%Z.
Proof.
  intros V1 V2. unfold SFltb. rewrite SFcompare_scaled by assumption.
  destruct (Z.compare_spec (scaled (Zpos m1) e1) (scaled (Zpos m2) e2));
    try discriminate; lia.
Qed.

Lemma Math_max_0_nonpos d :
  Prim2SF d <> S754_nan -> SFltb (S754_zero false) (Prim2SF d) = false ->
  JS.Math_max 0 d = 0.
Proof.
  intros Hn Hlt. rewrite Math_max_0, is_nan_false by assumption.
  rewrite FloatAxioms.ltb_spec, Prim2SF_zero, Hlt. reflexivity.
Qed.

Lemma Math_max_0_pos d :
  Prim2SF d <> S754_nan -> SFltb (S754_zero false) (Prim2SF d) = true ->
  JS.Math_max 0 d = d.
Proof.
  intros Hn Hlt. rewrite Math_max_0, is_nan_false by assumption.
  rewrite FloatAxioms.ltb_spec, Prim2SF_zero, Hlt. reflexivity.
Qed.

Lemma conf_ok_0 : conf_ok 0.
Proof. split; reflexivity. Qed.

Lemma conf_ok_1 : conf_ok 1.
Proof. split; reflexivity. Qed.

Definition SFtenth : spec_float := S754_finite false 7205759403792794 (-56).

Lemma Prim2SF_tenth : Prim2SF 0.1 = SFtenth.
Proof. reflexivity. Qed.

(** A decrement keeps the confidence in [0, 1] and never raises it. *)
Lemma conf_decr_spec c :
  conf_ok c -> conf_ok (conf_decr c) /\ (conf_decr c <=? c) = true.
Proof.
  intros H. pose proof H as [H0 _].
  destruct (conf_ok_inv H) as [[s E] | (m & e & E & V & B)].
  - rewrite <- (SF2Prim_Prim2SF c), E. destruct s; repeat split; reflexivity.
  - unfold conf_decr.
    pose proof (sub_spec c 0.1) as Hd. rewrite E, Prim2SF_tenth in Hd.
    pose proof (Prim2SF_valid (c - 0.1)) as Vd.
    pose proof (@SFsub_below m e 7205759403792794 (-56) V eq_refl) as Hr.
    cbv zeta in Hr. fold SFtenth in Hr. rewrite <- Hd in Hr.
    assert (Z0 : JS.Math_max 0 (c - 0.1) = 0 ->
                 conf_ok (JS.Math_max 0 (c - 0.1)) /\ (JS.Math_max 0 (c - 0.1) <=? c) = true).
    { intros ->. split; [apply conf_ok_0 | exact H0]. }
    destruct (Prim2SF (c - 0.1)) as [s | s | | s m' e'] eqn:Ed.
    + apply Z0, Math_max_0_nonpos; rewrite Ed; [discriminate | reflexivity].
    + destruct Hr as [Hr | [Hr | [Hr Hbig]]]; try discriminate Hr.
      * cbn in Hr. subst s.
        apply Z0, Math_max_0_nonpos; rewrite Ed; [discriminate | reflexivity].
      * exfalso.
        assert ((2 ^ 1074 < 2 ^ 2046)%Z) by (apply Z.pow_lt_mono_r; lia). lia.
    + destruct Hr as [Hr | [Hr | Hr]]; try discriminate Hr; contradiction.
    + destruct Hr as [Hr | [Hr | (Hs & He' & Hle)]]; try discriminate Hr.
      * cbn in Hr. subst s.
        apply Z0, Math_max_0_nonpos; rewrite Ed; [discriminate | reflexivity].
      * subst s.
        rewrite Math_max_0_pos by (rewrite Ed; first [discriminate | reflexivity]).
        unfold conf_ok. rewrite !FloatAxioms.leb_spec, Ed, E, Prim2SF_zero, Prim2SF_one.
        repeat split.
        -- unfold SFone. apply SFleb_scaled; [exact Vd | reflexivity |].
           change (scaled 4503599627370496 (-52)) with (2 ^ 1074)%Z. lia.
        -- apply SFleb_scaled; assumption.
Qed.


(** An increment keeps the confidence in [0, 1]. *)
Lemma conf_incr_spec c : conf_ok c -> conf_ok (conf_incr c).
Proof.
  intros H.
  destruct (conf_ok_inv H) as [[s E] | (m & e & E & V & B)].
  - rewrite <- (SF2Prim_Prim2SF c), E. destruct s; split; reflexivity.
  - unfold conf_incr. rewrite Math_min_1.
    pose proof (add_spec c 0.15) as Hx. rewrite E in Hx.
    pose proof (Prim2SF_valid (c + 0.15)) as Vx.
    pose proof (SFadd_sign m e 5404319552844595 (-55)) as Hs.
    change (S754_finite false 5404319552844595 (-55)) with (Prim2SF 0.15) in Hs.
    rewrite <- Hx in Hs.
    assert (Hn : Prim2SF (c + 0.15) <> S754_nan).
    { intros En. rewrite En in Hs. exact Hs. }
    rewrite is_nan_false by exact Hn.
    destruct (1 <? c + 0.15) eqn:Hlt; [apply conf_ok_1|].
    rewrite FloatAxioms.ltb_spec, Prim2SF_one in Hlt.
    unfold conf_ok. rewrite !FloatAxioms.leb_spec, Prim2SF_zero, Prim2SF_one.
    destruct (Prim2SF (c + 0.15)) as [s | s | | s m' e']; cbn in Hs; try contradiction;
      subst s; try discriminate Hlt; split; try reflexivity.
    apply SFleb_scaled; [exact Vx | reflexivity |].
    apply SFltb_scaled_false; [reflexivity | exact Vx | exact Hlt].
Qed.

Lemma SFltb_scaled m1 e1 m2 e2 :
  valid_binary (S754_finite false m1 e1) = true ->
  valid_binary (S754_finite false m2 e2) = true ->
  (scaled (Zpos m1) e1 < scaled (Zpos m2) e2)%Z ->
  SFltb (S754_finite false m1 e1) (S754_finite false m2 e2) = true.
Proof.
  intros V1 V2 H. unfold SFltb. rewrite SFcompare_scaled by assumption.
  destruct (Z.compare_spec (scaled (Zpos m1) e1) (scaled (Zpos m2) e2));
    try reflexivity; lia.
Qed.

Definition SF015 : spec_float := S754_finite false 5404319552844595 (-55).

Lemma Prim2SF_015 : Prim2SF 0.15 = SF015.
Proof. reflexivity. Qed.

(** Adding 0.15 to a positive confidence gives a larger number. *)
Lemma add_015_above m e :
  valid_binary (S754_finite false m e) = true ->
  (scaled (Zpos m) e <= 2 ^ 1074)%Z ->
  exists mB eB,
    canonical mB eB /\
    (scaled (Zpos m) e < scaled (Zpos mB) eB)%Z /\
    (scaled (Zpos mB) eB
     <= scaled (Zpos m) e + scaled 5404319552844595 (-55))%Z.
Proof.
  intros V B.
  destruct (valid_finite_inv false m e V) as [C _].
  destruct (canonical_bounds C) as (Le & Um & Nm).
  assert (P : (0 < 2 ^ (e + 1074))%Z) by (apply pow2_pos; lia).
  assert (H15 : (scaled 5404319552844595 (-55)
                 = 5404319552844595 * 2 ^ 1019)%Z) by reflexivity.
  assert (P1019 : (0 < 2 ^ 1019)%Z) by (apply pow2_pos; lia).
  destruct (Z.lt_ge_cases (scaled (Zpos m) e) (scaled 5404319552844595 (-55)))
    as [Hsmall | Hbig].
  - exists 5404319552844595%positive, (-55)%Z. split; [reflexivity|].
    split; [exact Hsmall|].
    assert ((0 < scaled (Zpos m) e)%Z)
      by (unfold scaled; apply Z.mul_pos_pos; lia).
    lia.
  - assert (He : (-55 <= e)%Z).
    { destruct (Z.le_gt_cases (-55) e) as [H | H]; [exact H | exfalso].
      assert ((2 ^ (e + 1074) <= 2 ^ 1018)%Z) by (apply pow2_le; lia).
      assert ((2 ^ 1019 = 2 * 2 ^ 1018)%Z)
        by (change 1019%Z with (1018 + 1)%Z; apply pow2_step; lia).
      assert ((0 < 2 ^ 1018)%Z) by (apply pow2_pos; lia).
      assert ((2 ^ 53 = 9007199254740992)%Z) by reflexivity.
      rewrite H15 in Hbig. unfold scaled in Hbig. nia. }
    assert (Hn : (2 ^ 52 <= Zpos m)%Z) by (apply Nm; lia).
    destruct (successor_canonical C Hn) as (m' & e' & C' & Hs).
    exists m', e'. split; [exact C'|]. rewrite Hs. split; [lia|].
    assert (He52 : (e <= -52)%Z).
    { destruct (Z.le_gt_cases e (-52)) as [H | H]; [exact H | exfalso].
      assert ((2 ^ 1023 <= 2 ^ (e + 1074))%Z) by (apply pow2_le; lia).
      assert ((2 ^ 1074 = 2 ^ 51 * 2 ^ 1023)%Z)
        by (rewrite <- Z.pow_add_r by lia; reflexivity).
      assert ((0 < 2 ^ 1023)%Z) by (apply pow2_pos; lia).
      assert ((2 ^ 52 = 2 * 2 ^ 51)%Z) by reflexivity.
      assert ((0 < 2 ^ 51)%Z) by (apply pow2_pos; lia).
      unfold scaled in B. nia. }
    assert ((2 ^ (e + 1074) <= 2 ^ 1022)%Z) by (apply pow2_le; lia).
    assert ((2 ^ 1022 = 8 * 2 ^ 1019)%Z)
      by (change 1022%Z with (3 + 1019)%Z; rewrite Z.pow_add_r by lia; reflexivity).
    rewrite H15. lia.
Qed.

(** An increment moves the confidence up: never down, and strictly up
    below the ceiling. *)
Lemma conf_incr_grows c :
  conf_ok c ->
  (c <=? conf_incr c) = true /\
  ((c <? 1) = true -> (c <? conf_incr c) = true).
Proof.
  intros H. pose proof H as [_ H1].
  destruct (conf_ok_inv H) as [[s E] | (m & e & E & V & B)].
  - rewrite <- (SF2Prim_Prim2SF c), E. destruct s; split; reflexivity.
  - unfold conf_incr. rewrite Math_min_1.
    pose proof (add_spec c 0.15) as Hx. rewrite E, Prim2SF_015 in Hx.
    pose proof (Prim2SF_valid (c + 0.15)) as Vx.
    destruct (@add_015_above m e V B) as (mB & eB & CB & Hlt & Hle).
    pose proof (@SFadd_above m e 5404319552844595 (-55) mB eB V eq_refl CB Hle)
      as Hr.
    fold SF015 in Hr. rewrite <- Hx in Hr.
    assert (Hgt : (c <? c + 0.15) = true).
    { rewrite FloatAxioms.ltb_spec, E.
      destruct (Prim2SF (c + 0.15)) as [s | s | | s m' e'];
        unfold rounds_above in Hr; try contradiction.
      - subst s. reflexivity.
      - destruct Hr as (-> & _ & Hge).
        apply SFltb_scaled; [exact V | exact Vx | lia]. }
    assert (Hn : Prim2SF (c + 0.15) <> S754_nan).
    { intros En. rewrite En in Hr. exact Hr. }
    rewrite is_nan_false by exact Hn.
    destruct (1 <? c + 0.15); [split; [exact H1 | auto]|].
    split; [| intros _; exact Hgt].
    rewrite FloatAxioms.leb_spec. rewrite FloatAxioms.ltb_spec in Hgt.
    unfold SFleb. unfold SFltb in Hgt.
    destruct (SFcompare (Prim2SF c) (Prim2SF (c + 0.15))) as [[] |];
      try discriminate; reflexivity.
Qed.

End Confidence.

Module FloatClass.
Local Open Scope float_scope.

Definition SFfinite (x : spec_float) : bool :=
  match x with
  | S754_zero _ | S754_finite _ _ _ => true
  | S754_infinity _ | S754_nan => false
  end.

(** NaN or [+Infinity]: what a square, a sum of squares or a square
    root becomes when a coordinate is not finite. *)
Definition blown (x : spec_float) : Prop :=
  x = S754_nan \/ x = S754_infinity false.

Lemma is_finite_spec x : is_finite x = SFfinite (Prim2SF x).
Proof.
  unfold is_finite, is_nan, is_infinity.
  rewrite !FloatAxioms.eqb_spec, abs_spec.
  change (Prim2SF infinity) with (S754_infinity false).
  destruct (Prim2SF x) as [[] | [] | | [] m e]; try reflexivity;
    unfold SFeqb; cbn [SFabs SFcompare SFfinite];
    rewrite Z.compare_refl, Pos.compare_cont_spec, Pos.compare_refl; reflexivity.
Qed.

Lemma SFsub_nonfinite_l a b :
  SFfinite a = false -> SFfinite (SF64sub a b) = false.
Proof. destruct a as [| [] | |], b as [| [] | |]; cbn; congruence. Qed.

Lemma SFsub_nonfinite_r a b :
  SFfinite b = false -> SFfinite (SF64sub a b) = false.
Proof. destruct a as [| [] | |], b as [| [] | |]; cbn; congruence. Qed.

Lemma SFmul_self_blown d : SFfinite d = false -> blown (SF64mul d d).
Proof. unfold blown. destruct d as [| [] | |]; cbn; intros; auto; discriminate. Qed.

Lemma SFadd_blown_l a b : blown a -> blown (SF64add a b).
Proof.
  unfold blown. intros [-> | ->]; [left; reflexivity|].
  destruct b as [| [] | |]; cbn; auto.
Qed.

Lemma SFadd_blown_r a b : blown b -> blown (SF64add a b).
Proof.
  unfold blown. intros [-> | ->].
  - left. destruct a; reflexivity.
  - destruct a as [| [] | |]; cbn; auto.
Qed.

Lemma SFsqrt_blown a : blown a -> blown (SF64sqrt a).
Proof. unfold blown. intros [-> | ->]; cbn; auto. Qed.

Lemma SFltb_blown a y : blown a -> SFltb a y = false.
Proof.
  unfold blown. intros [-> | ->]; [reflexivity|].
  destruct y as [| [] | |]; reflexivity.
Qed.

Lemma dist_blown_x x0 y0 x1 y1 :
  SFfinite (Prim2SF (x1 - x0)) = false -> blown (Prim2SF (dist x0 y0 x1 y1)).
Proof.
  intros H. unfold dist, JS.Math_sqrt. cbv zeta. rewrite sqrt_spec, add_spec, !mul_spec.
  apply SFsqrt_blown, SFadd_blown_l, SFmul_self_blown, H.
Qed.

Lemma dist_blown_y x0 y0 x1 y1 :
  SFfinite (Prim2SF (y1 - y0)) = false -> blown (Prim2SF (dist x0 y0 x1 y1)).
Proof.
  intros H. unfold dist, JS.Math_sqrt. cbv zeta. rewrite sqrt_spec, add_spec, !mul_spec.
  apply SFsqrt_blown, SFadd_blown_r, SFmul_self_blown, H.
Qed.

(** A displacement that passes the outlier test joins finite points. *)
Lemma dist_lt_finite x0 y0 x1 y1 bound :
  (dist x0 y0 x1 y1 <? bound) = true ->
  is_finite x0 = true /\ is_finite y0 = true /\
  is_finite x1 = true /\ is_finite y1 = true.
Proof.
  intros H. rewrite FloatAxioms.ltb_spec in H. rewrite !is_finite_spec.
  assert (Hx : SFfinite (Prim2SF (x1 - x0)) = true).
  { destruct (SFfinite (Prim2SF (x1 - x0))) eqn:E; [reflexivity|].
    rewrite (SFltb_blown _ (dist_blown_x x0 y0 x1 y1 E)) in H. discriminate. }
  assert (Hy : SFfinite (Prim2SF (y1 - y0)) = true).
  { destruct (SFfinite (Prim2SF (y1 - y0))) eqn:E; [reflexivity|].
    rewrite (SFltb_blown _ (dist_blown_y x0 y0 x1 y1 E)) in H. discriminate. }
  rewrite sub_spec in Hx, Hy.
  repeat split.
  - destruct (SFfinite (Prim2SF x0)) eqn:E; [reflexivity|].
    rewrite (SFsub_nonfinite_r _ _ E) in Hx. discriminate.
  - destruct (SFfinite (Prim2SF y0)) eqn:E; [reflexivity|].
    rewrite (SFsub_nonfinite_r _ _ E) in Hy. discriminate.
  - destruct (SFfinite (Prim2SF x1)) eqn:E; [reflexivity|].
    rewrite (SFsub_nonfinite_l _ _ E) in Hx. discriminate.
  - destruct (SFfinite (Prim2SF y1)) eqn:E; [reflexivity|].
    rewrite (SFsub_nonfinite_l _ _ E) in Hy. discriminate.
Qed.

End FloatClass.

(** * The plane hypothesis estimator *)

Module PlaneEstimator.

Import Confidence.
Local Open Scope float_scope.

(** ** The words of the specification *)

(** The mean of a list of numbers: their sum, in list order, over their
    count. *)
Definition mean (xs : list float) : float :=
  fold_left add xs 0 / JS.of_length (length xs).

(** The centroid of the current feature positions. *)
Definition centroid (feats : list Point) : Point :=
  mkPoint (mean (map px feats)) (mean (map py feats)).

(** The mean displacement of the correspondences. *)
Definition mean_displacement (tracked : list Correspondence) : Motion :=
  mkMotion (mean (map disp_x tracked)) (mean (map disp_y tracked)).

(** The variance of the per-point displacement around the mean
    displacement. *)
Definition displacement_variance (tracked : list Correspondence) : float :=
  let avg := mean_displacement tracked in
  mean (map (fun pt =>
               let dx := disp_x pt - mdx avg in
               let dy := disp_y pt - mdy avg in
               dx * dx + dy * dy) tracked).

(** The plane estimation step over a run of frames, each bringing its
    correspondences and features: the engine after every frame. *)
Fixpoint estimate_history
    (frames : list (list Correspondence * list Point)) (e : Engine)
    : list Engine :=
  match frames with
  | [] => []
  | (tracked, feats) :: rest =>
      let e' :=
        snd (estimatePlane (set_goodFeatures feats (set_trackedPoints tracked e))) in
      e' :: estimate_history rest e'
  end.

(** ** The loops compute the means *)

Lemma fold_pair_sum {A : Type} (f g : A -> float) (l : list A) (a b : float) :
  fold_left (fun acc x => (fst acc + f x, snd acc + g x)) l (a, b)
  = (fold_left add (map f l) a, fold_left add (map g l) b).
Proof.
  revert a b. induction l as [| x l IH]; intros a b; cbn [fold_left map fst snd].
  - reflexivity.
  - apply IH.
Qed.

Lemma fold_map_sum {A : Type} (f : A -> float) (l : list A) (a : float) :
  fold_left (fun acc x => acc + f x) l a = fold_left add (map f l) a.
Proof.
  revert a. induction l as [| x l IH]; intros a; cbn [fold_left map].
  - reflexivity.
  - apply IH.
Qed.

Lemma avg_motion_mean tracked : avg_motion tracked = mean_displacement tracked.
Proof.
  unfold avg_motion, mean_displacement, mean, total_motion.
  rewrite fold_pair_sum. cbn [fst snd]. rewrite !length_map. reflexivity.
Qed.

Lemma motionVariance_variance tracked :
  motionVariance tracked = displacement_variance tracked.
Proof.
  unfold motionVariance, displacement_variance, motion_variance_sum, mean.
  rewrite avg_motion_mean, length_map.
  rewrite (fold_map_sum
             (fun pt =>
                let dx := disp_x pt - mdx (mean_displacement tracked) in
                let dy := disp_y pt - mdy (mean_displacement tracked) in
                dx * dx + dy * dy)).
  reflexivity.
Qed.

Lemma center_sum_centroid feats :
  (let c := center_sum feats in
   let n := JS.of_length (length feats) in
   mkPoint (fst c / n) (snd c / n)) = centroid feats.
Proof.
  unfold center_sum, centroid, mean. rewrite fold_pair_sum.
  cbn [fst snd]. rewrite !length_map. reflexivity.
Qed.

(** ** The three ways an update ends *)

Lemma estimatePlane_few e :
  (length (trackedPoints e) < 8)%nat ->
  estimatePlane e
  = (false, set_planeConfidence (conf_decr (planeConfidence e)) e).
Proof.
  intros H. unfold estimatePlane.
  apply Nat.ltb_lt in H. rewrite H. reflexivity.
Qed.

Lemma estimatePlane_incoherent e :
  (8 <= length (trackedPoints e))%nat ->
  isCoherent (trackedPoints e) = false ->
  estimatePlane e
  = (false, set_planeConfidence (conf_decr (planeConfidence e)) e).
Proof.
  intros H Hc. unfold estimatePlane.
  apply Nat.ltb_ge in H. rewrite H, Hc. reflexivity.
Qed.

Lemma estimatePlane_coherent e :
  (8 <= length (trackedPoints e))%nat ->
  isCoherent (trackedPoints e) = true ->
  estimatePlane e
  = (0.5 <? conf_incr (planeConfidence e),
     set_groundPlane
       (Some {| center := centroid (goodFeatures e);
                confidence := conf_incr (planeConfidence e);
                motion := mean_displacement (trackedPoints e) |})
       (set_planeConfidence (conf_incr (planeConfidence e)) e)).
Proof.
  intros H Hc. unfold estimatePlane.
  apply Nat.ltb_ge in H. rewrite H, Hc.
  cbn [planeConfidence set_planeConfidence set_groundPlane goodFeatures].
  rewrite <- center_sum_centroid, avg_motion_mean. reflexivity.
Qed.

(** Every update is an increment or a decrement of the confidence. *)
Lemma estimatePlane_confidence e :
  planeConfidence (snd (estimatePlane e)) = conf_incr (planeConfidence e) \/
  planeConfidence (snd (estimatePlane e)) = conf_decr (planeConfidence e).
Proof.
  destruct (Nat.lt_ge_cases (length (trackedPoints e)) 8) as [H | H].
  - rewrite estimatePlane_few by exact H. right. reflexivity.
  - destruct (isCoherent (trackedPoints e)) eqn:Hc.
    + rewrite estimatePlane_coherent by assumption. left. reflexivity.
    + rewrite estimatePlane_incoherent by assumption. right. reflexivity.
Qed.

Lemma estimatePlane_conf_ok e :
  conf_ok (planeConfidence e) ->
  conf_ok (planeConfidence (snd (estimatePlane e))).
Proof.
  intros H. destruct (estimatePlane_confidence e) as [-> | ->].
  - apply conf_incr_spec, H.
  - apply conf_decr_spec, H.
Qed.

(** ** Claims about the confidence *)

(** Eight copies of one correspondence, and their end points: a frame
    whose motion is perfectly coherent. *)
Definition steady_tracked : list Correspondence :=
  repeat (mkCorr (mkPoint 10 20) (mkPoint 11 20)) 8.

Definition steady_features : list Point := map curr steady_tracked.

(** C1.  Whatever frames the estimator sees, in whatever order, an engine
    whose confidence starts in [0, 1] (the constructor and [reset] set it
    to 0) has its confidence in [0, 1] after every single update: each
    update is an increment, capped at 1, or a decrement, floored at 0, and
    neither leaves the interval. *)
Theorem confidence_in_unit_interval
    (e : Engine) (frames : list (list Correspondence * list Point)) :
  conf_ok (planeConfidence e) ->
  conf_ok (JS.Math_min 1 (planeConfidence e + 0.15)) /\
  conf_ok (JS.Math_max 0 (planeConfidence e - 0.1)) /\
  Forall (fun e' => conf_ok (planeConfidence e')) (estimate_history frames e).
Proof.
  intros H.
  split; [exact (conf_incr_spec H)|].
  split; [exact (proj1 (conf_decr_spec H))|].
  revert e H.
  induction frames as [| [tracked feats] rest IH]; intros e H;
    cbn [estimate_history].
  - constructor.
  - assert (Hstep : conf_ok (planeConfidence
              (snd (estimatePlane
                      (set_goodFeatures feats (set_trackedPoints tracked e)))))).
    { apply estimatePlane_conf_ok. exact H. }
    constructor; [exact Hstep | apply IH, Hstep].
Qed.

Lemma confidence_in_unit_interval_witness :
  conf_ok (planeConfidence (constructor None false)) /\
  Forall (fun e' => conf_ok (planeConfidence e'))
    (estimate_history
       [(steady_tracked, steady_features); ([], []);
        (steady_tracked, steady_features)]
       (constructor None false)).
Proof.
  assert (H : conf_ok (planeConfidence (constructor None false)))
    by (split; reflexivity).
  split; [exact H|].
  exact (proj2 (proj2 (@confidence_in_unit_interval
                         (constructor None false)
                         [(steady_tracked, steady_features); ([], []);
                          (steady_tracked, steady_features)] H))).
Defined.

(** C2.  With at least 8 correspondences whose displacement variance
    around the mean displacement is below 100, the estimator raises the
    confidence by 0.15, capped at 1, stores the plane hypothesis made of
    the centroid of the current features, the new confidence and the mean
    displacement, and reports the plane trackable exactly when the new
    confidence exceeds 0.5.  Nothing else in the engine changes.  On a
    confidence of [0, 1] the new value is not below the old one, and is
    strictly above it unless the old one is already the ceiling. *)
Theorem coherent_frame_raises_confidence (e : Engine) :
  (8 <= length (trackedPoints e))%nat ->
  (displacement_variance (trackedPoints e) <? 100) = true ->
  let c := planeConfidence e in
  let c' := JS.Math_min 1 (c + 0.15) in
  estimatePlane e
  = (0.5 <? c',
     set_groundPlane
       (Some {| center := centroid (goodFeatures e);
                confidence := c';
                motion := mean_displacement (trackedPoints e) |})
       (set_planeConfidence c' e)) /\
  (conf_ok c ->
   (c <=? c') = true /\ ((c <? 1) = true -> (c <? c') = true)).
Proof.
  intros Hn Hv. cbv zeta. fold (conf_incr (planeConfidence e)). split.
  - apply estimatePlane_coherent; [exact Hn|].
    unfold isCoherent. rewrite motionVariance_variance. exact Hv.
  - apply conf_incr_grows.
Qed.

Lemma coherent_frame_raises_confidence_witness :
  let e := set_planeConfidence 0.4
             (set_goodFeatures steady_features
                (set_trackedPoints steady_tracked (constructor None false))) in
  fst (estimatePlane e) = true /\
  planeConfidence (snd (estimatePlane e)) = 0.55 /\
  groundPlane (snd (estimatePlane e))
  = Some (mkPlane (mkPoint 11 20) 0.55 (mkMotion 1 0)) /\
  (0.4 <? 0.55) = true.
Proof.
  cbv zeta.
  destruct (coherent_frame_raises_confidence
              (set_planeConfidence 0.4
                 (set_goodFeatures steady_features
                    (set_trackedPoints steady_tracked (constructor None false))))
              ltac:(vm_compute; lia) eq_refl) as [E G].
  rewrite E. repeat split; reflexivity.
Defined.

(** C3.  With fewer than 8 correspondences the estimator reports no
    plane, leaves the stored hypothesis alone and lowers the confidence by
    0.1, floored at 0; on a confidence of [0, 1] the result is not above
    the confidence before. *)
Theorem few_correspondences_reject (e : Engine) :
  (length (trackedPoints e) < 8)%nat ->
  let c' := JS.Math_max 0 (planeConfidence e - 0.1) in
  estimatePlane e = (false, set_planeConfidence c' e) /\
  (conf_ok (planeConfidence e) -> (c' <=? planeConfidence e) = true).
Proof.
  intros Hn. cbv zeta. fold (conf_decr (planeConfidence e)). split.
  - apply estimatePlane_few, Hn.
  - intros H. apply conf_decr_spec, H.
Qed.

Lemma few_correspondences_reject_witness :
  let e := set_planeConfidence 0.6 (constructor None false) in
  (length (trackedPoints e) < 8)%nat /\
  estimatePlane e = (false, set_planeConfidence 0.5 e) /\
  (0.5 <=? 0.6) = true.
Proof.
  cbv zeta.
  assert (H : (length (trackedPoints
                 (set_planeConfidence 0.6 (constructor None false))) < 8)%nat)
    by (cbn; lia).
  split; [exact H|].
  destruct (few_correspondences_reject
              (set_planeConfidence 0.6 (constructor None false)) H) as [E L].
  split; [exact E | apply L; split; reflexivity].
Defined.

End PlaneEstimator.

(** * Lifecycle *)

Module Lifecycle.

(** The fields [reset] clears are cleared, whatever the engine held. *)
Definition cleared (e : Engine) : Prop :=
  isTracking e = false /\
  trackedPoints e = [] /\
  goodFeatures e = [] /\
  currentPose e = None /\
  groundPlane e = None /\
  planeConfidence e = 0%float /\
  frameCount e = 0%Z /\
  match prevPoints e with Some m => rows m = 0%nat | None => True end /\
  match prevGrayFrame e with Some m => rows m = 0%nat | None => True end.

Lemma reset_cleared (e : Engine) : cleared (reset e).
Proof.
  unfold cleared, reset.
  destruct e as [fr gr pg pp np st tr po tp gf gp pc imu se fc ini dc dx ll].
  destruct pp as [[[| rp] cp dp] |], pg as [[[| rg] cg dg] |];
    vm_compute; repeat split; reflexivity.
Qed.

(** C9.  [reset] is idempotent: a second [reset] in a row changes
    nothing, and what the first one leaves is the cleared state (no
    tracking, no correspondences, no features, no pose, no plane,
    confidence 0, frame counter 0, empty point set and previous frame). *)
Theorem reset_idempotent (e : Engine) :
  reset (reset e) = reset e /\ cleared (reset e).
Proof.
  split; [| apply reset_cleared].
  unfold reset.
  destruct e as [fr gr pg pp np st tr po tp gf gp pc imu se fc ini dc dx ll].
  destruct pp as [[[| rp] cp dp] |], pg as [[[| rg] cg dg] |];
    vm_compute; reflexivity.
Qed.

End Lifecycle.

(** * The frame pipeline: early exits *)

Module EarlyExit.

Local Open Scope Z_scope.

(** The result [processFrame] starts from. *)
Definition default_result (e : Engine) : FrameResult :=
  mkResult false false 0 0 None (imuData e).

(** C10.  On an engine that is not initialized, [processFrame] returns
    the default result (no tracking, no features, counts 0, no pose, the
    engine's orientation sample), calls no collaborator and leaves the
    engine as it was. *)
Theorem processFrame_not_initialized
    (cv : Vision) (now : Z) (video : Video) (e : Engine) :
  initialized e = false ->
  processFrame cv now video e = (default_result e, e, []).
Proof.
  intros H. unfold processFrame. rewrite H. reflexivity.
Qed.

(** A collaborator that always throws. *)
Definition no_vision : Vision :=
  mkVision (fun _ => None) (fun _ => None) (fun _ _ => None)
           (fun _ _ _ _ => None).

Lemma processFrame_not_initialized_witness :
  initialized (constructor None false) = false /\
  processFrame no_vision 5000 (mkVideo 640 480 []) (constructor None false)
  = (mkResult false false 0 0 None (mkImu 0 0 0), constructor None false, []).
Proof.
  split; [reflexivity|].
  apply (processFrame_not_initialized no_vision 5000 (mkVideo 640 480 [])
           (constructor None false)).
  reflexivity.
Defined.

(** C7.  A frame of zero width or zero height is answered at once with
    the default result: no tracking, no features, counts 0.  No
    collaborator is called, and the engine afterwards is the engine
    before: frame counter, point set, previous frame, plane hypothesis,
    confidence, pose and every other field are untouched, except that the
    time of the last log line may have moved to [now]. *)
Theorem processFrame_zero_size
    (cv : Vision) (now : Z) (video : Video) (e : Engine) :
  videoWidth video = 0%nat \/ videoHeight video = 0%nat ->
  let out := processFrame cv now video e in
  fst (fst out) = default_result e /\
  snd out = [] /\
  (snd (fst out) = e \/ snd (fst out) = set_lastLogTime now e).
Proof.
  intros H. cbv zeta. unfold processFrame.
  destruct (initialized e); cbn [negb]; [| cbn; auto].
  assert (Hz : ((videoWidth video =? 0)%nat || (videoHeight video =? 0)%nat)
               = true).
  { destruct H as [-> | ->]; cbn; [reflexivity | apply orb_true_r]. }
  unfold processFrame_try, bind, get_this, when. cbn [this].
  destruct (2000 <? now - lastLogTime e); cbn; rewrite Hz; cbn; auto.
Qed.

Lemma processFrame_zero_size_witness :
  let e := set_initialized true (constructor None false) in
  let out := processFrame no_vision 5000 (mkVideo 0 480 []) e in
  fst (fst out) = mkResult false false 0 0 None (mkImu 0 0 0) /\
  snd out = [] /\
  frameCount (snd (fst out)) = 0 /\
  lastLogTime (snd (fst out)) = 5000.
Proof.
  cbv zeta.
  destruct (processFrame_zero_size no_vision 5000 (mkVideo 0 480 [])
              (set_initialized true (constructor None false))
              (or_introl eq_refl)) as (Hr & Hc & _).
  split; [exact Hr|]. split; [exact Hc|]. split; reflexivity.
Defined.

End EarlyExit.

(** * The motion tracker *)

Module MotionTracker.

Import FloatClass.
Local Open Scope float_scope.

(** ** The point the flow reports at row [i] *)

Section Row.

Variables (pts next : Mat float) (st : Mat Z).

Definition prevX (i : nat) : float := get32F pts (i * 2).
Definition prevY (i : nat) : float := get32F pts (i * 2 + 1).
Definition nextX (i : nat) : float := get32F next (i * 2).
Definition nextY (i : nat) : float := get32F next (i * 2 + 1).

Definition feature_at (i : nat) : Point := mkPoint (nextX i) (nextY i).

Definition corr_at (i : nat) : Correspondence :=
  mkCorr (mkPoint (prevX i) (prevY i)) (mkPoint (nextX i) (nextY i)).

(** The displacement magnitude of row [i]. *)
Definition displacement (i : nat) : float :=
  dist (prevX i) (prevY i) (nextX i) (nextY i).

(** The test the loop applies to row [i]. *)
Definition retained (i : nat) : bool :=
  byte_is_one st i
  && negb (JS.isNaN (prevX i) || JS.isNaN (nextX i))
  && (displacement i <? 50).

(** The rows the loop keeps, in order. *)
Definition kept : list nat := filter retained (seq 0 (rows st)).

Lemma filter_step_retained (acc : Filtered) (i : nat) :
  filter_step pts next st acc i
  = if retained i then
      {| f_good := f_good acc ++ [feature_at i];
         f_tracked := f_tracked acc ++ [corr_at i];
         f_newPrev := f_newPrev acc ++ [nextX i; nextY i] |}
    else acc.
Proof.
  unfold filter_step, retained, displacement, dist, feature_at, corr_at,
    prevX, prevY, nextX, nextY.
  destruct (byte_is_one st i); [| reflexivity].
  destruct (JS.isNaN (get32F pts (i * 2)) || JS.isNaN (get32F next (i * 2)));
    [reflexivity|].
  cbn [negb andb]. reflexivity.
Qed.

Lemma filter_fold (l : list nat) (acc : Filtered) :
  fold_left (filter_step pts next st) l acc
  = {| f_good := f_good acc ++ map feature_at (filter retained l);
       f_tracked := f_tracked acc ++ map corr_at (filter retained l);
       f_newPrev := f_newPrev acc
                      ++ flat_map (fun i => [nextX i; nextY i])
                           (filter retained l) |}.
Proof.
  revert acc. induction l as [| i l IH]; intros acc; cbn [fold_left filter].
  - cbn. rewrite !app_nil_r. destruct acc; reflexivity.
  - rewrite IH, filter_step_retained. destruct (retained i).
    + cbn [f_good f_tracked f_newPrev map flat_map].
      rewrite <- !app_assoc. reflexivity.
    + reflexivity.
Qed.

Lemma filter_points_kept :
  filter_points pts next st
  = {| f_good := map feature_at kept;
       f_tracked := map corr_at kept;
       f_newPrev := flat_map (fun i => [nextX i; nextY i]) kept |}.
Proof.
  unfold filter_points. rewrite filter_fold. reflexivity.
Qed.

Lemma is_finite_not_nan (x : float) : is_finite x = true -> is_nan x = false.
Proof.
  unfold is_finite. destruct (is_nan x); [discriminate | reflexivity].
Qed.

(** A row is kept exactly when its flag is set, its four coordinates are
    finite and its displacement is below the bound. *)
Lemma retained_iff (i : nat) :
  retained i = true <->
  byte_is_one st i = true /\
  is_finite (prevX i) = true /\ is_finite (prevY i) = true /\
  is_finite (nextX i) = true /\ is_finite (nextY i) = true /\
  (displacement i <? 50) = true.
Proof.
  unfold retained. split.
  - intros H. apply andb_prop in H. destruct H as [H Hd].
    apply andb_prop in H. destruct H as [Hs _].
    destruct (dist_lt_finite Hd) as (A & B & C & D).
    repeat split; assumption.
  - intros (Hs & A & _ & C & _ & Hd).
    rewrite Hs, Hd. unfold JS.isNaN.
    rewrite (is_finite_not_nan _ A), (is_finite_not_nan _ C). reflexivity.
Qed.

Lemma kept_iff (i : nat) :
  In i kept <-> (i < rows st)%nat /\ retained i = true.
Proof.
  unfold kept. rewrite filter_In, in_seq. intuition lia.
Qed.

Lemma length_coords (l : list nat) :
  length (flat_map (fun i => [nextX i; nextY i]) l) = (2 * length l)%nat.
Proof.
  induction l as [| i l IH]; cbn [flat_map length app]; [reflexivity | lia].
Qed.

End Row.

(** ** Comparisons of numbers *)

Lemma SFcompare_antisym (a b : spec_float) :
  SFcompare b a = option_map CompOpp (SFcompare a b).
Proof.
  destruct a as [[] | [] | | [] ma ea], b as [[] | [] | | [] mb eb];
    try reflexivity; cbn [SFcompare option_map];
    rewrite (Z.compare_antisym ea eb);
    destruct (ea ?= eb)%Z; cbn [CompOpp]; try reflexivity;
    rewrite !Pos.compare_cont_spec; cbn [Pos.switch_Eq];
    rewrite (Pos.compare_antisym ma mb);
    destruct (ma ?= mb)%positive; reflexivity.
Qed.

Lemma ltb_asym (x y : float) : (x <? y) = true -> (y <? x) = false.
Proof.
  rewrite !FloatAxioms.ltb_spec. unfold SFltb.
  rewrite (SFcompare_antisym (Prim2SF x) (Prim2SF y)).
  destruct (SFcompare (Prim2SF x) (Prim2SF y)) as [[] |];
    cbn; congruence.
Qed.

(** ** A tracking step whose optical flow succeeds *)

(** The point matrix the loop's [newPrevPoints] array becomes. *)
Definition next_generation (coords : list float) : Mat float :=
  match coords with
  | [] => emptyMat
  | _ :: _ => matFromArray coords
  end.

Lemma trackPoints_flow (cv : Vision) (e : Engine)
    (pts : Mat float) (prevGray gray : Mat Z) (flow : Flow) :
  prevPoints e = Some pts ->
  rows pts <> 0%nat ->
  prevGrayFrame e = Some prevGray ->
  grayFrame e = Some gray ->
  calcOpticalFlowPyrLK cv prevGray gray pts (settings e) = Some flow ->
  trackPoints cv e
  = (let f := filter_points pts (flow_next flow) (flow_status flow) in
     set_prevPoints (Some (next_generation (f_newPrev f)))
       (set_trackedPoints (f_tracked f)
          (set_goodFeatures (f_good f)
             (set_status (Some (flow_status flow))
                (set_nextPoints (Some (flow_next flow))
                   (set_status (Some emptyMat)
                      (set_nextPoints (Some emptyMat) e)))))),
     [CallCalcOpticalFlowPyrLK]).
Proof.
  intros Hp Hr Hg Hc Hf. unfold trackPoints. rewrite Hp.
  apply Nat.eqb_neq in Hr. rewrite Hr.
  cbn [prevGrayFrame grayFrame settings set_status set_nextPoints].
  rewrite Hg, Hc, Hf. cbv zeta. unfold next_generation.
  destruct (f_newPrev (filter_points pts (flow_next flow) (flow_status flow)));
    reflexivity.
Qed.

(** C5.  After a tracking step whose optical flow succeeded, the
    correspondences, the features and the new point set are exactly the
    rows the filter kept, in order; a row is kept exactly when its
    validity flag is 1, its previous and current x and y are all finite
    numbers and its displacement magnitude is below 50; so a row whose
    displacement exceeds 50 is in none of the three. *)
Theorem tracked_points_pass_the_filter
    (cv : Vision) (e : Engine)
    (pts : Mat float) (prevGray gray : Mat Z) (flow : Flow) :
  prevPoints e = Some pts ->
  rows pts <> 0%nat ->
  prevGrayFrame e = Some prevGray ->
  grayFrame e = Some gray ->
  calcOpticalFlowPyrLK cv prevGray gray pts (settings e) = Some flow ->
  let next := flow_next flow in
  let st := flow_status flow in
  let e' := fst (trackPoints cv e) in
  let rows_kept := kept pts next st in
  trackedPoints e' = map (corr_at pts next) rows_kept /\
  goodFeatures e' = map (feature_at next) rows_kept /\
  (exists m, prevPoints e' = Some m /\
             rows m = length rows_kept /\
             data m = flat_map (fun i => [nextX next i; nextY next i]) rows_kept) /\
  (forall i,
     In i rows_kept <->
     (i < rows st)%nat /\
     byte_is_one st i = true /\
     is_finite (prevX pts i) = true /\ is_finite (prevY pts i) = true /\
     is_finite (nextX next i) = true /\ is_finite (nextY next i) = true /\
     (displacement pts next i <? 50) = true) /\
  (forall i, (50 <? displacement pts next i) = true -> ~ In i rows_kept).
Proof.
  intros Hp Hr Hg Hc Hf. cbv zeta.
  rewrite (trackPoints_flow cv e Hp Hr Hg Hc Hf). cbv zeta.
  rewrite filter_points_kept.
  cbn [fst f_good f_tracked f_newPrev].
  set (ks := kept pts (flow_next flow) (flow_status flow)).
  split; [reflexivity|]. split; [reflexivity|]. split; [| split].
  - exists (next_generation
              (flat_map (fun i => [nextX (flow_next flow) i; nextY (flow_next flow) i]) ks)).
    split; [reflexivity|].
    pose proof (length_coords (flow_next flow) ks) as Hl.
    destruct (flat_map (fun i => [nextX (flow_next flow) i; nextY (flow_next flow) i]) ks)
      as [| x l] eqn:Ec.
    + cbn in *. split; [lia | reflexivity].
    + unfold next_generation, matFromArray. cbn [rows data].
      rewrite Hl. split; [| reflexivity].
      rewrite Nat.mul_comm. apply Nat.div_mul. lia.
  - intros i. unfold ks. rewrite kept_iff, retained_iff. tauto.
  - intros i Hbig Hin. unfold ks in Hin.
    apply kept_iff in Hin. destruct Hin as [_ Hin].
    apply retained_iff in Hin. destruct Hin as (_ & _ & _ & _ & _ & Hlt).
    rewrite (ltb_asym Hlt) in Hbig. discriminate.
Qed.

End MotionTracker.

(** * The frame pipeline: a frame that is processed *)

Module FramePipeline.

Local Open Scope Z_scope.

(** How often [c] occurs in a log of calls. *)
Definition times_called (c : Call) (l : list Call) : nat :=
  length (filter (Call_eqb c) l).

Lemma times_called_app (c : Call) (l1 l2 : list Call) :
  times_called c (l1 ++ l2) = (times_called c l1 + times_called c l2)%nat.
Proof.
  unfold times_called. rewrite filter_app, length_app. reflexivity.
Qed.

Section Run.

Variable cv : Vision.
Variables (now : Z) (video : Video).

(** ** The engine after each phase *)

(** After the periodic log line. *)
Definition logged (e : Engine) : Engine :=
  if 2000 <? now - lastLogTime e then set_lastLogTime now e else e.

Definition stale_frame (e : Engine) : bool :=
  match frame e with
  | None => true
  | Some f =>
      negb (rows f =? videoHeight video)%nat
      || negb (cols f =? videoWidth video)%nat
  end.

(** After the frame buffer has been made to fit the video. *)
Definition allocated (e : Engine) : Engine :=
  if stale_frame e then
    let e :=
      set_frame (Some (mkMat (videoHeight video) (videoWidth video) [])) e in
    match debugCanvas e with
    | Some _ =>
        set_debugCanvas
          (Some (mkCanvas (videoWidth video) (videoHeight video))) e
    | None => e
    end
  else e.

(** After capture, grayscale conversion and [frameCount++]. *)
Definition begun (pixels : list Z) (gray : Mat Z) (e : Engine) : Engine :=
  let e := allocated (logged e) in
  let e :=
    set_frame
      (Some (mkMat (videoHeight video) (videoWidth video) pixels)) e in
  let e := set_grayFrame (Some gray) e in
  set_frameCount (JS.js_incr (frameCount e)) e.

(** The refresh condition, on the point set [pts] the engine holds. *)
Definition needs_refresh (e : Engine) (pts : Mat float) : bool :=
  (Z.of_nat (rows pts) <? minFeatures (settings e))
  || JS.rem_is_zero (frameCount e) (featureRefreshInterval (settings e)).

(** After the refresh decision. *)
Definition refreshed (e : Engine) (pts : Mat float) : Engine * list Call :=
  if needs_refresh e pts then detectFeatures cv e else (e, []).

(** The tracking condition, on the previous frame and the point set. *)
Definition tracking_gate (e : Engine) (prevGray : Mat Z) (pts : Mat float)
    : bool :=
  (0 <? rows prevGray)%nat
  && (minFeatures (settings e) <=? Z.of_nat (rows pts)).

(** What follows [trackPoints()] in the tracking branch. *)
Definition estimated (e : Engine) (r : FrameResult) : FrameResult * Engine :=
  let r := set_r_featureCount (length (goodFeatures e)) r in
  let r :=
    set_r_hasFeatures
      (minFeatures (settings e) <=? Z.of_nat (r_featureCount r)) r in
  if r_hasFeatures r then
    let '(planeFound, e) := estimatePlane e in
    let r := set_r_planeCount (if planeFound then 1%nat else 0%nat) r in
    if planeFound then
      let e := estimatePose e in
      (set_r_pose (currentPose e) (set_r_isTracking true r), e)
    else (r, e)
  else (r, e).

(** The other branch. *)
Definition reported (pts : Mat float) (r : FrameResult) : FrameResult :=
  let r := set_r_featureCount (rows pts) r in
  set_r_hasFeatures (0 <? r_featureCount r)%nat r.

(** ** Each phase, run *)

Lemma ensure_frame_run (c : Ctx) :
  ensure_frame (videoWidth video) (videoHeight video) c
  = (Normal tt, mkCtx (allocated (this c)) (result c) (calls c)).
Proof.
  destruct c as [e r l].
  unfold ensure_frame, allocated, stale_frame, bind, get_this, when, modify, ret.
  cbn [this result calls].
  destruct (match frame e with
            | Some f =>
                negb (rows f =? videoHeight video)%nat
                || negb (cols f =? videoWidth video)%nat
            | None => true
            end); reflexivity.
Qed.

Lemma allocated_frame (e : Engine) :
  exists f, frame (allocated e) = Some f /\
            rows f = videoHeight video /\ cols f = videoWidth video.
Proof.
  unfold allocated. destruct (stale_frame e) eqn:Hs.
  - cbv zeta. cbn [debugCanvas set_frame].
    destruct (debugCanvas e); eexists; (split; [reflexivity | split; reflexivity]).
  - unfold stale_frame in Hs. destruct (frame e) as [f |]; [| discriminate].
    apply orb_false_elim in Hs. destruct Hs as [Hr Hc].
    apply negb_false_iff in Hr, Hc. apply Nat.eqb_eq in Hr, Hc.
    exists f. auto.
Qed.

Lemma grab_frame_run (c : Ctx) (f g0 gray : Mat Z) (pixels : list Z) :
  capture cv video = Some pixels ->
  frame (this c) = Some f ->
  grayFrame (this c) = Some g0 ->
  cvtColor cv (mkMat (rows f) (cols f) pixels) = Some gray ->
  grab_frame cv video c
  = (Normal tt,
     mkCtx (set_grayFrame (Some gray)
              (set_frame (Some (mkMat (rows f) (cols f) pixels)) (this c)))
           (result c) ((calls c ++ [CallCapture]) ++ [CallCvtColor])).
Proof.
  intros Hcap Hf Hg Hcvt. destruct c as [e r l]. cbn [this result calls] in *.
  unfold grab_frame, bind, external, deref, modify, get_this.
  rewrite Hcap. cbn [this result calls]. rewrite Hf.
  cbn [this result calls grayFrame set_frame]. rewrite Hg, Hcvt.
  reflexivity.
Qed.

Lemma refresh_features_run (c : Ctx) (pts : Mat float) :
  prevPoints (this c) = Some pts ->
  refresh_features cv c
  = (Normal tt,
     mkCtx (fst (refreshed (this c) pts)) (result c)
           (calls c ++ snd (refreshed (this c) pts))).
Proof.
  intros Hp. destruct c as [e r l]. cbn [this result calls] in *.
  unfold refresh_features, bind, deref, get_this, when, method, ret,
    refreshed, needs_refresh.
  cbn [this result calls]. rewrite Hp. cbn [this result calls].
  destruct ((Z.of_nat (rows pts) <? minFeatures (settings e))
            || JS.rem_is_zero (frameCount e) (featureRefreshInterval (settings e))).
  - cbn [this result calls]. destruct (detectFeatures cv e) as [e' l'].
    reflexivity.
  - cbn [this result calls fst snd]. rewrite app_nil_r. reflexivity.
Qed.

Lemma can_track_run (c : Ctx) (prevGray : Mat Z) (pts : Mat float) :
  prevGrayFrame (this c) = Some prevGray ->
  prevPoints (this c) = Some pts ->
  can_track c = (Normal (tracking_gate (this c) prevGray pts), c).
Proof.
  intros Hg Hp. destruct c as [e r l]. cbn [this result calls] in *.
  unfold can_track, bind, deref, get_this, ret, tracking_gate.
  cbn [this result calls]. rewrite Hg.
  destruct (0 <? rows prevGray)%nat; cbn [this result calls andb];
    [rewrite Hp |]; reflexivity.
Qed.

Lemma track_and_estimate_run (c : Ctx) :
  track_and_estimate cv c
  = (Normal tt,
     let t := trackPoints cv (this c) in
     let o := estimated (fst t) (result c) in
     mkCtx (snd o) (fst o) (calls c ++ snd t)).
Proof.
  destruct c as [e r l]. cbn [this result calls].
  unfold track_and_estimate, estimated, bind, method, get_this, get_result,
    modify_result, modify, when, ret.
  cbn [this result calls].
  destruct (trackPoints cv e) as [e3 l3]. cbn [this result calls fst snd].
  cbn [r_featureCount r_hasFeatures set_r_featureCount set_r_hasFeatures].
  destruct (minFeatures (settings e3) <=? Z.of_nat (length (goodFeatures e3)));
    cbn [this result calls fst snd]; [| reflexivity].
  destruct (estimatePlane e3) as [found e4]. cbn [this result calls].
  destruct found; reflexivity.
Qed.

Lemma report_detected_run (c : Ctx) (pts : Mat float) :
  prevPoints (this c) = Some pts ->
  report_detected c
  = (Normal tt, mkCtx (this c) (reported pts (result c)) (calls c)).
Proof.
  intros Hp. destruct c as [e r l]. cbn [this result calls] in *.
  unfold report_detected, reported, bind, deref, modify_result, get_result.
  cbn [this result calls]. rewrite Hp. reflexivity.
Qed.

(** ** What the phases leave alone *)

Lemma begun_fields (pixels : list Z) (gray : Mat Z) (e : Engine) :
  let e1 := begun pixels gray e in
  grayFrame e1 = Some gray /\
  frameCount e1 = JS.js_incr (frameCount e) /\
  prevPoints e1 = prevPoints e /\
  prevGrayFrame e1 = prevGrayFrame e /\
  settings e1 = settings e /\
  trackedPoints e1 = trackedPoints e /\
  goodFeatures e1 = goodFeatures e /\
  groundPlane e1 = groundPlane e /\
  planeConfidence e1 = planeConfidence e /\
  currentPose e1 = currentPose e /\
  imuData e1 = imuData e.
Proof.
  unfold begun, allocated, logged.
  destruct (2000 <? now - lastLogTime e), (stale_frame _);
    cbv zeta; try destruct (debugCanvas _); repeat split; reflexivity.
Qed.

(** The point set [detectFeatures] installs. *)
Definition detected (e : Engine) : Mat float :=
  match grayFrame e with
  | Some gray =>
      match goodFeaturesToTrack cv gray (settings e) with
      | Some corners => corners
      | None => emptyMat
      end
  | None => emptyMat
  end.

Lemma detectFeatures_run (e : Engine) :
  fst (detectFeatures cv e) = set_prevPoints (Some (detected e)) e /\
  snd (detectFeatures cv e)
  = match grayFrame e with Some _ => [CallGoodFeaturesToTrack] | None => [] end.
Proof.
  unfold detectFeatures, detected.
  destruct (grayFrame e) as [gray |]; [| split; reflexivity].
  destruct (goodFeaturesToTrack cv gray (settings e)); split; reflexivity.
Qed.

(** The point set the tracking decision looks at. *)
Definition point_set (e : Engine) (pts : Mat float) : Mat float :=
  if needs_refresh e pts then detected e else pts.

Lemma refreshed_fields (e : Engine) (pts : Mat float) :
  prevPoints e = Some pts ->
  let e2 := fst (refreshed e pts) in
  prevPoints e2 = Some (point_set e pts) /\
  grayFrame e2 = grayFrame e /\
  prevGrayFrame e2 = prevGrayFrame e /\
  settings e2 = settings e /\
  trackedPoints e2 = trackedPoints e /\
  goodFeatures e2 = goodFeatures e /\
  groundPlane e2 = groundPlane e /\
  planeConfidence e2 = planeConfidence e.
Proof.
  intros Hp. unfold refreshed, point_set.
  destruct (needs_refresh e pts); cbv zeta.
  - destruct (detectFeatures_run e) as [-> _]. repeat split; reflexivity.
  - cbn [fst]. repeat split; auto.
Qed.

Lemma trackPoints_frames (e : Engine) :
  grayFrame (fst (trackPoints cv e)) = grayFrame e /\
  prevGrayFrame (fst (trackPoints cv e)) = prevGrayFrame e.
Proof.
  unfold trackPoints.
  destruct (prevPoints e) as [pts |]; [| split; reflexivity].
  destruct (rows pts =? 0)%nat; [split; reflexivity|].
  cbn [prevGrayFrame grayFrame settings set_status set_nextPoints].
  destruct (prevGrayFrame e) as [pg |] eqn:Epg;
    [| split; cbn; congruence].
  destruct (grayFrame e) as [g |] eqn:Eg; [| split; cbn; congruence].
  destruct (calcOpticalFlowPyrLK cv pg g pts (settings e)) as [flow |];
    [| split; cbn; congruence].
  cbv zeta.
  destruct (f_newPrev (filter_points pts (flow_next flow) (flow_status flow)));
    split; cbn; congruence.
Qed.

Lemma estimatePlane_frames (e : Engine) :
  grayFrame (snd (estimatePlane e)) = grayFrame e /\
  prevGrayFrame (snd (estimatePlane e)) = prevGrayFrame e.
Proof.
  unfold estimatePlane.
  destruct (length (trackedPoints e) <? 8)%nat; [split; reflexivity|].
  destruct (isCoherent (trackedPoints e)); split; reflexivity.
Qed.

Lemma estimatePose_frames (e : Engine) :
  grayFrame (estimatePose e) = grayFrame e /\
  prevGrayFrame (estimatePose e) = prevGrayFrame e.
Proof.
  unfold estimatePose. destruct (groundPlane e); split; reflexivity.
Qed.

Lemma estimated_frames (e : Engine) (r : FrameResult) :
  grayFrame (snd (estimated e r)) = grayFrame e /\
  prevGrayFrame (snd (estimated e r)) = prevGrayFrame e.
Proof.
  unfold estimated. cbv zeta.
  destruct (r_hasFeatures _); [| split; reflexivity].
  pose proof (estimatePlane_frames e) as [A B].
  destruct (estimatePlane e) as [found e4]. cbn [snd] in A, B.
  destruct found; cbn [snd]; [| split; assumption].
  destruct (estimatePose_frames e4) as [C D]. split; congruence.
Qed.

(** ** The whole frame *)

(** A frame is processed when the engine is initialized and holds its
    matrices, the video has a size, and capture and conversion succeed. *)
Record Processed (e : Engine) (pts : Mat float) (prevGray : Mat Z)
    (pixels : list Z) (gray : Mat Z) : Prop := {
  p_initialized : initialized e = true;
  p_width : videoWidth video <> 0%nat;
  p_height : videoHeight video <> 0%nat;
  p_capture : capture cv video = Some pixels;
  p_cvtColor :
    cvtColor cv (mkMat (videoHeight video) (videoWidth video) pixels)
    = Some gray;
  p_grayFrame : grayFrame e <> None;
  p_prevGrayFrame : prevGrayFrame e = Some prevGray;
  p_prevPoints : prevPoints e = Some pts
}.

(** The tracking branch or the reporting branch: result, engine, calls. *)
Definition branch (e : Engine) (prevGray : Mat Z) (pts : Mat float)
    (r : FrameResult) : FrameResult * Engine * list Call :=
  if tracking_gate e prevGray pts then
    let t := trackPoints cv e in
    let o := estimated (fst t) r in
    (fst o, snd o, snd t)
  else (reported pts r, e, []).

(** [processFrame] on a processed frame, phase after phase. *)
Definition frame_run (e : Engine) (pts : Mat float) (prevGray : Mat Z)
    (pixels : list Z) (gray : Mat Z) : FrameResult * Engine * list Call :=
  let e1 := begun pixels gray e in
  let rf := refreshed e1 pts in
  let b := branch (fst rf) prevGray (point_set e1 pts)
             (mkResult false false 0 0 None (imuData e)) in
  let r := fst (fst b) in
  let e4 := set_prevGrayFrame (Some gray) (snd (fst b)) in
  (r, set_isTracking (r_isTracking r) e4,
   ((([CallCapture; CallCvtColor] ++ snd rf) ++ snd b) ++ drawDebug e4 r)).

Lemma bind_run {A B : Type} (m : M A) (k : A -> M B) (c c' : Ctx) (a : A) :
  m c = (Normal a, c') -> bind m k c = k a c'.
Proof. intros H. unfold bind. rewrite H. reflexivity. Qed.

Lemma deref_run {A : Type} (field : Engine -> option A) (c : Ctx) (a : A) :
  field (this c) = Some a -> deref field c = (Normal a, c).
Proof. intros H. unfold deref. rewrite H. reflexivity. Qed.

Lemma branch_frames (e : Engine) (prevGray : Mat Z) (pts : Mat float)
    (r : FrameResult) :
  grayFrame (snd (fst (branch e prevGray pts r))) = grayFrame e /\
  prevGrayFrame (snd (fst (branch e prevGray pts r))) = prevGrayFrame e.
Proof.
  unfold branch. destruct (tracking_gate e prevGray pts);
    cbv zeta; cbn [fst snd]; [| split; reflexivity].
  destruct (estimated_frames (fst (trackPoints cv e)) r) as [A B].
  destruct (trackPoints_frames e) as [C D]. split; congruence.
Qed.

Lemma branch_run (c : Ctx) (prevGray : Mat Z) (pts : Mat float) :
  prevPoints (this c) = Some pts ->
  (if tracking_gate (this c) prevGray pts
   then track_and_estimate cv else report_detected) c
  = (Normal tt,
     let b := branch (this c) prevGray pts (result c) in
     mkCtx (snd (fst b)) (fst (fst b)) (calls c ++ snd b)).
Proof.
  intros Hp. unfold branch.
  destruct (tracking_gate (this c) prevGray pts).
  - rewrite track_and_estimate_run. reflexivity.
  - rewrite (report_detected_run c Hp). cbv zeta. cbn [fst snd].
    rewrite app_nil_r. reflexivity.
Qed.

Lemma processFrame_run (e : Engine) (pts : Mat float) (prevGray : Mat Z)
    (pixels : list Z) (gray : Mat Z) :
  Processed e pts prevGray pixels gray ->
  processFrame cv now video e = frame_run e pts prevGray pixels gray.
Proof.
  intros [Hi Hw Hh Hcap Hcvt Hg Hpg Hp].
  unfold processFrame. rewrite Hi. cbn [negb].
  set (r0 := mkResult false false 0 0 None (imuData e)).
  unfold processFrame_try.
  (* the log line *)
  rewrite (@bind_run _ _ get_this _ (mkCtx e r0 []) (mkCtx e r0 []) e eq_refl).
  assert (L : when (2000 <? now - lastLogTime e) (modify (set_lastLogTime now))
                (mkCtx e r0 [])
              = (Normal tt, mkCtx (logged e) r0 [])).
  { unfold when, logged, modify, ret.
    destruct (2000 <? now - lastLogTime e); reflexivity. }
  rewrite (@bind_run _ _ _ _ _ _ _ L).
  (* validation *)
  apply Nat.eqb_neq in Hw, Hh. rewrite Hw, Hh. cbn [orb].
  (* frame buffer, capture, conversion *)
  rewrite (@bind_run _ _ _ _ _ _ _ (ensure_frame_run (mkCtx (logged e) r0 []))).
  cbn [this result calls].
  destruct (allocated_frame (logged e)) as (f & Hf & Hfr & Hfc).
  assert (Hg1 : exists g0, grayFrame (allocated (logged e)) = Some g0).
  { destruct (grayFrame e) as [g0 |] eqn:Eg; [| congruence].
    exists g0. rewrite <- Eg. unfold allocated, logged.
    destruct (2000 <? now - lastLogTime e), (stale_frame _);
      cbv zeta; try destruct (debugCanvas _); reflexivity. }
  destruct Hg1 as [g0 Hg0].
  rewrite <- Hfr, <- Hfc in Hcvt.
  rewrite (@bind_run _ _ _ _ _ _ _
             (@grab_frame_run (mkCtx (allocated (logged e)) r0 []) f g0 gray
                pixels Hcap Hf Hg0 Hcvt)).
  cbn [this result calls app]. rewrite Hfr, Hfc.
  assert (I : modify (fun e => set_frameCount (JS.js_incr (frameCount e)) e)
                (mkCtx (set_grayFrame (Some gray)
                          (set_frame
                             (Some (mkMat (videoHeight video) (videoWidth video) pixels))
                             (allocated (logged e))))
                       r0 [CallCapture; CallCvtColor])
              = (Normal tt,
                 mkCtx (begun pixels gray e) r0 [CallCapture; CallCvtColor]))
    by reflexivity.
  rewrite (@bind_run _ _ _ _ _ _ _ I).
  (* refresh *)
  destruct (begun_fields pixels gray e)
    as (B1 & B2 & B3 & B4 & B5 & _).
  cbv zeta in B1, B2, B3, B4, B5.
  assert (Hp1 : prevPoints (begun pixels gray e) = Some pts) by congruence.
  rewrite (@bind_run _ _ _ _ _ _ _
             (@refresh_features_run
                (mkCtx (begun pixels gray e) r0 [CallCapture; CallCvtColor])
                pts Hp1)).
  cbn [this result calls].
  destruct (@refreshed_fields (begun pixels gray e) pts Hp1)
    as (R1 & R2 & R3 & _).
  cbv zeta in R1, R2, R3.
  (* the tracking decision and its branch *)
  set (e2 := fst (refreshed (begun pixels gray e) pts)) in *.
  set (l2 := [CallCapture; CallCvtColor]
               ++ snd (refreshed (begun pixels gray e) pts)).
  assert (Hpg2 : prevGrayFrame e2 = Some prevGray) by congruence.
  rewrite (@bind_run _ _ _ _ _ _ _
             (@can_track_run (mkCtx e2 r0 l2) prevGray
                (point_set (begun pixels gray e) pts) Hpg2 R1)).
  cbn [this result calls].
  rewrite (@bind_run _ _ _ _ _ _ _
             (@branch_run (mkCtx e2 r0 l2) prevGray
                (point_set (begun pixels gray e) pts) R1)).
  cbv zeta. cbn [this result calls].
  (* the previous frame and the overlay *)
  destruct (branch_frames e2 prevGray (point_set (begun pixels gray e) pts) r0)
    as [F1 F2].
  set (b := branch e2 prevGray (point_set (begun pixels gray e) pts) r0) in *.
  assert (D1 : grayFrame (snd (fst b)) = Some gray) by congruence.
  assert (D2 : prevGrayFrame (snd (fst b)) = Some prevGray) by congruence.
  rewrite (@bind_run _ _ _ _ _ _ _
             (@deref_run _ grayFrame
                (mkCtx (snd (fst b)) (fst (fst b)) (l2 ++ snd b)) gray D1)).
  rewrite (@bind_run _ _ _ _ _ _ _
             (@deref_run _ prevGrayFrame
                (mkCtx (snd (fst b)) (fst (fst b)) (l2 ++ snd b)) prevGray D2)).
  unfold frame_run. cbv zeta. fold r0.
  unfold bind, modify, get_this, get_result, log. cbn [this result calls].
  reflexivity.
Qed.

(** ** Who calls which collaborator *)

Lemma rem_is_zero_divide (a n : Z) :
  0 < a -> (JS.rem_is_zero a n = true <-> (n | a)).
Proof.
  intros Ha. unfold JS.rem_is_zero.
  destruct (Z.eqb_spec n 0) as [-> | Hn].
  - split; [discriminate|]. intros [k Hk]. lia.
  - rewrite Z.eqb_eq. apply Z.rem_divide. exact Hn.
Qed.

Lemma js_incr_pos (n : Z) : 0 <= n -> 0 < JS.js_incr n.
Proof.
  intros Hn. unfold JS.js_incr. destruct (Z.ltb_spec n (2 ^ 53)); lia.
Qed.

Lemma trackPoints_calls (e : Engine) :
  snd (trackPoints cv e) = [] \/
  snd (trackPoints cv e) = [CallCalcOpticalFlowPyrLK].
Proof.
  unfold trackPoints.
  destruct (prevPoints e) as [pts |]; [| left; reflexivity].
  destruct (rows pts =? 0)%nat; [left; reflexivity|].
  cbn [prevGrayFrame grayFrame settings set_status set_nextPoints].
  destruct (prevGrayFrame e) as [pg |]; [| left; reflexivity].
  destruct (grayFrame e) as [g |]; [| left; reflexivity].
  destruct (calcOpticalFlowPyrLK cv pg g pts (settings e)); right; reflexivity.
Qed.

Lemma branch_calls (e : Engine) (prevGray : Mat Z) (pts : Mat float)
    (r : FrameResult) :
  times_called CallGoodFeaturesToTrack (snd (branch e prevGray pts r)) = 0%nat.
Proof.
  unfold branch. destruct (tracking_gate e prevGray pts);
    cbv zeta; cbn [snd]; [| reflexivity].
  destruct (trackPoints_calls e) as [-> | ->]; reflexivity.
Qed.

Lemma drawDebug_calls (c : Call) (e : Engine) (r : FrameResult) :
  (forall l, c <> CallDrawDebug l) -> times_called c (drawDebug e r) = 0%nat.
Proof.
  intros Hc. unfold drawDebug.
  destruct (debugCanvas e); [| reflexivity].
  destruct (debugCtx e); [| reflexivity].
  destruct c as [| | | | l]; try reflexivity.
  exfalso. exact (Hc l eq_refl).
Qed.

(** The refresh condition in words: too few points, or the frame's number
    is a multiple of the refresh interval. *)
Definition refresh_due (e : Engine) (pts : Mat float) : Prop :=
  Z.of_nat (rows pts) < minFeatures (settings e) \/
  (featureRefreshInterval (settings e) | JS.js_incr (frameCount e)).

Lemma needs_refresh_due (pixels : list Z) (gray : Mat Z) (e : Engine)
    (pts : Mat float) :
  0 <= frameCount e ->
  (needs_refresh (begun pixels gray e) pts = true <-> refresh_due e pts).
Proof.
  intros Hfc. unfold needs_refresh, refresh_due.
  destruct (begun_fields pixels gray e) as (_ & -> & _ & _ & -> & _).
  rewrite orb_true_iff, Z.ltb_lt.
  rewrite (rem_is_zero_divide _ (js_incr_pos Hfc)). reflexivity.
Qed.

Lemma refreshed_calls (pixels : list Z) (gray : Mat Z) (e : Engine)
    (pts : Mat float) :
  snd (refreshed (begun pixels gray e) pts)
  = if needs_refresh (begun pixels gray e) pts
    then [CallGoodFeaturesToTrack] else [].
Proof.
  unfold refreshed. destruct (needs_refresh (begun pixels gray e) pts);
    [| reflexivity].
  destruct (detectFeatures_run (begun pixels gray e)) as [_ ->].
  destruct (begun_fields pixels gray e) as (-> & _). reflexivity.
Qed.

Lemma frame_run_detections (e : Engine) (pts : Mat float) (prevGray : Mat Z)
    (pixels : list Z) (gray : Mat Z) :
  times_called CallGoodFeaturesToTrack
    (snd (frame_run e pts prevGray pixels gray))
  = if needs_refresh (begun pixels gray e) pts then 1%nat else 0%nat.
Proof.
  unfold frame_run. cbv zeta. cbn [snd].
  rewrite !times_called_app, branch_calls, refreshed_calls.
  rewrite drawDebug_calls by (intros l; discriminate).
  destruct (needs_refresh (begun pixels gray e) pts); reflexivity.
Qed.

Lemma trackPoints_calls_exact (e : Engine) (pts : Mat float)
    (prevGray gray : Mat Z) :
  prevPoints e = Some pts ->
  prevGrayFrame e = Some prevGray ->
  grayFrame e = Some gray ->
  snd (trackPoints cv e)
  = if (rows pts =? 0)%nat then [] else [CallCalcOpticalFlowPyrLK].
Proof.
  intros Hp Hpg Hg. unfold trackPoints. rewrite Hp.
  destruct (rows pts =? 0)%nat; [reflexivity|].
  cbn [prevGrayFrame grayFrame settings set_status set_nextPoints].
  rewrite Hpg, Hg.
  destruct (calcOpticalFlowPyrLK cv prevGray gray pts (settings e)); reflexivity.
Qed.

(** The point set the refresh step leaves, from the engine before the
    frame: the detector's answer when the refresh is due, else [pts]. *)
Definition refreshed_points (e : Engine) (gray : Mat Z) (pts : Mat float)
    : Mat float :=
  if (Z.of_nat (rows pts) <? minFeatures (settings e))
     || JS.rem_is_zero (JS.js_incr (frameCount e))
          (featureRefreshInterval (settings e))
  then
    match goodFeaturesToTrack cv gray (settings e) with
    | Some corners => corners
    | None => emptyMat
    end
  else pts.

Lemma point_set_refreshed (pixels : list Z) (gray : Mat Z) (e : Engine)
    (pts : Mat float) :
  point_set (begun pixels gray e) pts = refreshed_points e gray pts.
Proof.
  unfold point_set, refreshed_points, needs_refresh, detected.
  destruct (begun_fields pixels gray e) as (-> & -> & _ & _ & -> & _).
  reflexivity.
Qed.

(** The tracking condition in words. *)
Definition can_follow (e : Engine) (prevGray : Mat Z) (pts : Mat float)
    : Prop :=
  (0 < rows prevGray)%nat /\ minFeatures (settings e) <= Z.of_nat (rows pts).

Lemma tracking_gate_follow (e e' : Engine) (prevGray : Mat Z)
    (pts : Mat float) :
  settings e' = settings e ->
  (tracking_gate e' prevGray pts = true <-> can_follow e prevGray pts).
Proof.
  intros Hs. unfold tracking_gate, can_follow. rewrite Hs.
  rewrite andb_true_iff, Nat.ltb_lt, Z.leb_le. reflexivity.
Qed.

Lemma frame_run_flows (e : Engine) (pts : Mat float) (prevGray : Mat Z)
    (pixels : list Z) (gray : Mat Z) :
  prevPoints e = Some pts ->
  prevGrayFrame e = Some prevGray ->
  0 < minFeatures (settings e) ->
  times_called CallCalcOpticalFlowPyrLK
    (snd (frame_run e pts prevGray pixels gray))
  = if tracking_gate (fst (refreshed (begun pixels gray e) pts)) prevGray
         (point_set (begun pixels gray e) pts)
    then 1%nat else 0%nat.
Proof.
  intros Hp Hpg Hmin.
  destruct (begun_fields pixels gray e) as (B1 & _ & B3 & B4 & B5 & _).
  cbv zeta in B1, B3, B4, B5.
  assert (Hp1 : prevPoints (begun pixels gray e) = Some pts) by congruence.
  destruct (@refreshed_fields (begun pixels gray e) pts Hp1)
    as (R1 & R2 & R3 & R4 & _).
  cbv zeta in R1, R2, R3, R4.
  unfold frame_run. cbv zeta. cbn [snd].
  rewrite !times_called_app, refreshed_calls.
  rewrite drawDebug_calls by (intros l; discriminate).
  set (e2 := fst (refreshed (begun pixels gray e) pts)) in *.
  set (pts2 := point_set (begun pixels gray e) pts) in *.
  assert (Hr : times_called CallCalcOpticalFlowPyrLK
                 (if needs_refresh (begun pixels gray e) pts
                  then [CallGoodFeaturesToTrack] else []) = 0%nat)
    by (destruct (needs_refresh (begun pixels gray e) pts); reflexivity).
  rewrite Hr. unfold branch.
  destruct (tracking_gate e2 prevGray pts2) eqn:Hgate; cbv zeta; cbn [snd];
    [| reflexivity].
  rewrite (@trackPoints_calls_exact e2 pts2 prevGray gray R1)
    by congruence.
  unfold tracking_gate in Hgate. apply andb_prop in Hgate.
  destruct Hgate as [_ Hge]. apply Z.leb_le in Hge.
  assert (Hs : settings e2 = settings e) by congruence. rewrite Hs in Hge.
  destruct (Nat.eqb_spec (rows pts2) 0) as [Hz | Hz]; [| reflexivity].
  rewrite Hz in Hge. cbn in Hge. lia.
Qed.

End Run.

(** ** Claims about the refresh and tracking decisions *)

(** C4.  On every processed frame the corner detector is called once
    when the engine's point count is below [minFeatures] (15) or the frame
    counter, which this frame has just incremented, is a multiple of
    [featureRefreshInterval] (15); in every other case it is not called. *)
Theorem redetection_exactly_when_due
    (cv : Vision) (now : Z) (video : Video) (e : Engine)
    (pts : Mat float) (prevGray : Mat Z) (pixels : list Z) (gray : Mat Z) :
  Processed cv video e pts prevGray pixels gray ->
  0 <= frameCount e ->
  let detections :=
    times_called CallGoodFeaturesToTrack (snd (processFrame cv now video e)) in
  (refresh_due e pts -> detections = 1%nat) /\
  (~ refresh_due e pts -> detections = 0%nat).
Proof.
  intros HP Hfc. cbv zeta.
  rewrite (processFrame_run now HP), frame_run_detections.
  pose proof (@needs_refresh_due now video pixels gray e pts Hfc) as Hiff.
  destruct (needs_refresh (begun now video pixels gray e) pts).
  - split; [reflexivity|]. intros Hn. exfalso. apply Hn, Hiff. reflexivity.
  - split; [| reflexivity]. intros Hd. apply Hiff in Hd. discriminate.
Qed.

Lemma frame_run_skipped (cv : Vision) (now : Z) (video : Video) (e : Engine)
    (pts : Mat float) (prevGray : Mat Z) (pixels : list Z) (gray : Mat Z) :
  prevPoints e = Some pts ->
  tracking_gate (fst (refreshed cv (begun now video pixels gray e) pts))
    prevGray (point_set cv (begun now video pixels gray e) pts) = false ->
  let out := frame_run cv now video e pts prevGray pixels gray in
  let pts2 := refreshed_points cv e gray pts in
  fst (fst out) = reported pts2 (mkResult false false 0 0 None (imuData e)) /\
  trackedPoints (snd (fst out)) = trackedPoints e /\
  goodFeatures (snd (fst out)) = goodFeatures e /\
  prevPoints (snd (fst out)) = Some pts2.
Proof.
  intros Hp Hgate. cbv zeta.
  destruct (begun_fields now video pixels gray e)
    as (_ & _ & B3 & _ & _ & B6 & B7 & _).
  cbv zeta in B3, B6, B7.
  assert (Hp1 : prevPoints (begun now video pixels gray e) = Some pts)
    by congruence.
  destruct (@refreshed_fields cv (begun now video pixels gray e) pts Hp1)
    as (R1 & _ & _ & _ & R5 & R6 & _).
  cbv zeta in R1, R5, R6.
  rewrite <- (point_set_refreshed cv now video pixels gray e pts).
  unfold frame_run, branch. cbv zeta. rewrite Hgate.
  cbn [fst snd]. repeat split; cbn; congruence.
Qed.

(** C6, as the code has it.  On every processed frame (with a positive
    [minFeatures], 15 by default) optical flow runs, once, exactly when a
    previous grayscale frame exists and the point set left by this frame's
    refresh step holds at least [minFeatures] points.  Otherwise the step
    is skipped: optical flow is not called, the correspondence and feature
    lists are not written, the point set is the one the refresh step left,
    and the result reports its size. *)
Theorem tracking_exactly_when_enough_points
    (cv : Vision) (now : Z) (video : Video) (e : Engine)
    (pts : Mat float) (prevGray : Mat Z) (pixels : list Z) (gray : Mat Z) :
  Processed cv video e pts prevGray pixels gray ->
  0 < minFeatures (settings e) ->
  let pts2 := refreshed_points cv e gray pts in
  let out := processFrame cv now video e in
  let flows := times_called CallCalcOpticalFlowPyrLK (snd out) in
  (can_follow e prevGray pts2 -> flows = 1%nat) /\
  (~ can_follow e prevGray pts2 ->
   flows = 0%nat /\
   trackedPoints (snd (fst out)) = trackedPoints e /\
   goodFeatures (snd (fst out)) = goodFeatures e /\
   prevPoints (snd (fst out)) = Some pts2 /\
   r_featureCount (fst (fst out)) = rows pts2).
Proof.
  intros HP Hmin. cbv zeta.
  rewrite (processFrame_run now HP).
  destruct HP as [_ _ _ _ _ _ Hpg Hp].
  rewrite (@frame_run_flows cv now video e pts prevGray pixels gray Hp Hpg Hmin).
  destruct (begun_fields now video pixels gray e)
    as (_ & _ & B3 & _ & B5 & _).
  cbv zeta in B3, B5.
  assert (Hp1 : prevPoints (begun now video pixels gray e) = Some pts)
    by congruence.
  destruct (@refreshed_fields cv (begun now video pixels gray e) pts Hp1)
    as (_ & _ & _ & R4 & _).
  cbv zeta in R4.
  assert (Hs : settings (fst (refreshed cv (begun now video pixels gray e) pts))
               = settings e) by congruence.
  pose proof (@tracking_gate_follow e _ prevGray
                (point_set cv (begun now video pixels gray e) pts) Hs) as Hiff.
  rewrite (point_set_refreshed cv now video pixels gray e pts) in Hiff.
  destruct (tracking_gate (fst (refreshed cv (begun now video pixels gray e) pts))
              prevGray (point_set cv (begun now video pixels gray e) pts))
    eqn:Hgate.
  - split; [reflexivity|]. intros Hn. exfalso. apply Hn, Hiff.
    rewrite <- (point_set_refreshed cv now video pixels gray e pts).
    exact Hgate.
  - split.
    { intros Hc. apply Hiff in Hc.
      rewrite <- (point_set_refreshed cv now video pixels gray e pts) in Hc.
      congruence. }
    intros _. split; [reflexivity|].
    destruct (@frame_run_skipped cv now video e pts prevGray pixels gray Hp Hgate)
      as (Hr & Ht & Hf & Hpp).
    cbv zeta in Hr, Ht, Hf, Hpp.
    repeat split; try assumption. rewrite Hr. reflexivity.
Qed.

(** C8, as the code has it.  A processed frame on an engine with no
    previous grayscale frame and no tracked points (and a positive
    [minFeatures], 15 by default) reports no tracking, no plane and no
    pose, a feature count equal to the number of points the corner
    detector returned on this frame (0 when it threw), and has-features
    exactly when that number is positive. *)
Theorem first_frame_reports_detected
    (cv : Vision) (now : Z) (video : Video) (e : Engine)
    (pts : Mat float) (prevGray : Mat Z) (pixels : list Z) (gray : Mat Z) :
  Processed cv video e pts prevGray pixels gray ->
  rows prevGray = 0%nat ->
  rows pts = 0%nat ->
  0 < minFeatures (settings e) ->
  let r := fst (fst (processFrame cv now video e)) in
  let found :=
    match goodFeaturesToTrack cv gray (settings e) with
    | Some corners => rows corners
    | None => 0%nat
    end in
  r_isTracking r = false /\
  r_featureCount r = found /\
  r_hasFeatures r = (0 <? found)%nat /\
  r_planeCount r = 0%nat /\
  r_pose r = None.
Proof.
  intros HP Hpg0 Hp0 Hmin. cbv zeta.
  rewrite (processFrame_run now HP).
  destruct HP as [_ _ _ _ _ _ Hpg Hp].
  assert (Hgate :
    tracking_gate (fst (refreshed cv (begun now video pixels gray e) pts))
      prevGray (point_set cv (begun now video pixels gray e) pts) = false).
  { unfold tracking_gate. rewrite Hpg0. reflexivity. }
  destruct (@frame_run_skipped cv now video e pts prevGray pixels gray Hp Hgate)
    as (Hr & _).
  cbv zeta in Hr. rewrite Hr.
  assert (Hpts2 : rows (refreshed_points cv e gray pts)
                  = match goodFeaturesToTrack cv gray (settings e) with
                    | Some corners => rows corners
                    | None => 0%nat
                    end).
  { unfold refreshed_points. rewrite Hp0.
    assert ((Z.of_nat 0 <? minFeatures (settings e)) = true) as ->
      by (apply Z.ltb_lt; cbn; lia).
    cbn [orb].
    destruct (goodFeaturesToTrack cv gray (settings e)); reflexivity. }
  unfold reported. cbv zeta.
  cbn [r_isTracking r_featureCount r_hasFeatures r_planeCount r_pose
       set_r_featureCount set_r_hasFeatures].
  rewrite Hpts2. repeat split; reflexivity.
Qed.

End FramePipeline.

(** * Scenarios *)

Module Scenarios.

Import FramePipeline MotionTracker.

Local Open Scope Z_scope.

(** ** A scripted collaborator *)

(** A 2 x 2 video frame. *)
Definition demo_pixels : list Z := repeat 128%Z 16.
Definition demo_video : Video := mkVideo 2 2 demo_pixels.
Definition demo_gray : Mat Z := mkMat 2 2 (repeat 128%Z 4).

(** [n] corners on a line. *)
Definition demo_corners (n : nat) : Mat float :=
  mkMat n 1
    (flat_map (fun i => [JS.of_length (20 * i); JS.of_length (10 * i)])
       (seq 0 n))%nat.

(** A detector that finds [n] corners, and a flow that moves every point
    by (1, 1) and flags it valid. *)
Definition demo_vision (n : nat) : Vision :=
  {| capture := fun v => Some (picture v);
     cvtColor := fun f =>
       Some (mkMat (rows f) (cols f) (firstn (rows f * cols f) (data f)));
     goodFeaturesToTrack := fun _ _ => Some (demo_corners n);
     calcOpticalFlowPyrLK := fun _ _ pts _ =>
       Some {| flow_next :=
                 mkMat (rows pts) 1 (map (fun x => (x + 1)%float) (data pts));
               flow_status := mkMat (rows pts) 1 (repeat 1%Z (rows pts)) |} |}.

(** An engine fresh from [init()]. *)
Definition fresh_engine : Engine :=
  match init true (constructor (Some (mkCanvas 300 150)) true) with
  | Some e => e
  | None => constructor None false
  end.

(** The engine after one frame, with a detector that finds [n] corners. *)
Definition second_engine (n : nat) : Engine :=
  snd (fst (processFrame (demo_vision n) 5000 demo_video fresh_engine)).

Lemma fresh_processed (n : nat) :
  Processed (demo_vision n) demo_video fresh_engine emptyMat emptyMat
    demo_pixels demo_gray.
Proof.
  constructor; try reflexivity; vm_compute; discriminate.
Defined.

Lemma second_processed_16 :
  Processed (demo_vision 16) demo_video (second_engine 16) (demo_corners 16)
    demo_gray demo_pixels demo_gray.
Proof.
  constructor; try reflexivity; vm_compute; discriminate.
Defined.

Lemma second_processed_14 :
  Processed (demo_vision 14) demo_video (second_engine 14) (demo_corners 14)
    demo_gray demo_pixels demo_gray.
Proof.
  constructor; try reflexivity; vm_compute; discriminate.
Defined.

(** ** The claims on the script *)

Lemma redetection_exactly_when_due_witness :
  times_called CallGoodFeaturesToTrack
    (snd (processFrame (demo_vision 16) 5000 demo_video fresh_engine)) = 1%nat
  /\
  times_called CallGoodFeaturesToTrack
    (snd (processFrame (demo_vision 16) 5033 demo_video (second_engine 16)))
  = 0%nat.
Proof.
  split.
  - apply (redetection_exactly_when_due 5000 (fresh_processed 16));
      [vm_compute; discriminate | left; vm_compute; reflexivity].
  - apply (redetection_exactly_when_due 5033 second_processed_16);
      [vm_compute; discriminate |].
    intros [H | [k H]]; [vm_compute in H; discriminate |].
    assert (H' : 2 = k * 15) by exact H. lia.
Defined.

Lemma tracking_exactly_when_enough_points_witness :
  times_called CallCalcOpticalFlowPyrLK
    (snd (processFrame (demo_vision 16) 5033 demo_video (second_engine 16)))
  = 1%nat.
Proof.
  apply (tracking_exactly_when_enough_points 5033 second_processed_16);
    [reflexivity |].
  split; [vm_compute; lia | vm_compute; discriminate].
Defined.

(** The engine after one frame whose tracked points have all been lost
    since. *)
Definition emptied_engine : Engine :=
  set_prevPoints (Some emptyMat) (second_engine 16).

Lemma emptied_processed :
  Processed (demo_vision 16) demo_video emptied_engine emptyMat
    demo_gray demo_pixels demo_gray.
Proof.
  constructor; try reflexivity; vm_compute; discriminate.
Defined.

(** C6 as stated fails, both ways.  On the first engine a previous
    grayscale frame exists and the previous point set holds 14 points, yet
    optical flow does not run (the detector is asked again, finds 14
    corners, and 14 is below [minFeatures]).  On the second a previous
    grayscale frame exists and the previous point set is empty, yet
    optical flow runs (the detector finds 16 corners first). *)
Lemma tracking_gate_is_not_nonemptiness :
  (Processed (demo_vision 14) demo_video (second_engine 14) (demo_corners 14)
     demo_gray demo_pixels demo_gray /\
   (0 < rows demo_gray)%nat /\
   (0 < rows (demo_corners 14))%nat /\
   times_called CallCalcOpticalFlowPyrLK
     (snd (processFrame (demo_vision 14) 5033 demo_video (second_engine 14)))
   = 0%nat)
  /\
  (Processed (demo_vision 16) demo_video emptied_engine emptyMat
     demo_gray demo_pixels demo_gray /\
   (0 < rows demo_gray)%nat /\
   rows (@emptyMat float) = 0%nat /\
   times_called CallCalcOpticalFlowPyrLK
     (snd (processFrame (demo_vision 16) 5033 demo_video emptied_engine))
   = 1%nat).
Proof.
  split.
  - split; [exact second_processed_14|].
    split; [vm_compute; lia|]. split; [vm_compute; lia|].
    vm_compute. reflexivity.
  - split; [exact emptied_processed|].
    split; [vm_compute; lia|]. split; [reflexivity|].
    vm_compute. reflexivity.
Qed.

Lemma first_frame_reports_detected_witness :
  let r := fst (fst (processFrame (demo_vision 16) 5000 demo_video fresh_engine)) in
  r_isTracking r = false /\
  r_featureCount r = 16%nat /\
  r_hasFeatures r = true /\
  r_planeCount r = 0%nat /\
  r_pose r = None.
Proof.
  cbv zeta.
  exact (first_frame_reports_detected 5000 (fresh_processed 16)
           eq_refl eq_refl eq_refl).
Defined.

(** C8 as stated fails.  No previous grayscale frame, no tracked points,
    [minFeatures] 15: the detector finds 16 corners and the frame's result
    says has-features. *)
Lemma first_frame_has_features :
  Processed (demo_vision 16) demo_video fresh_engine emptyMat emptyMat
    demo_pixels demo_gray /\
  rows (@emptyMat Z) = 0%nat /\
  rows (@emptyMat float) = 0%nat /\
  minFeatures (settings fresh_engine) = 15 /\
  r_hasFeatures
    (fst (fst (processFrame (demo_vision 16) 5000 demo_video fresh_engine)))
  = true.
Proof.
  split; [exact (fresh_processed 16)|].
  repeat split; reflexivity.
Qed.

(** ** A flow with an outlier, a lost point and a point at infinity *)

Definition jumpy_points : Mat float :=
  mkMat 4 1 [0; 0; 10; 10; 20; 20; 30; 30]%float.

Definition jumpy_flow : Flow :=
  {| flow_next := mkMat 4 1 [1; 0; 70; 10; 21; 20; 31; infinity]%float;
     flow_status := mkMat 4 1 [1; 1; 0; 1] |}.

Definition jumpy_vision : Vision :=
  {| capture := fun v => Some (picture v);
     cvtColor := fun f => Some f;
     goodFeaturesToTrack := fun _ _ => None;
     calcOpticalFlowPyrLK := fun _ _ _ _ => Some jumpy_flow |}.

Definition jumpy_engine : Engine :=
  set_prevPoints (Some jumpy_points)
    (set_prevGrayFrame (Some demo_gray)
       (set_grayFrame (Some demo_gray) fresh_engine)).

Lemma tracked_points_pass_the_filter_witness :
  let e' := fst (trackPoints jumpy_vision jumpy_engine) in
  trackedPoints e' = [mkCorr (mkPoint 0 0) (mkPoint 1 0)] /\
  goodFeatures e' = [mkPoint 1 0] /\
  prevPoints e' = Some (mkMat 1 1 [1; 0]%float).
Proof.
  cbv zeta.
  destruct (@tracked_points_pass_the_filter jumpy_vision jumpy_engine
              jumpy_points demo_gray demo_gray jumpy_flow
              eq_refl ltac:(discriminate) eq_refl eq_refl eq_refl)
    as (Ht & Hg & _).
  split; [exact Ht|]. split; [exact Hg|]. reflexivity.
Defined.

End Scenarios.

(** * An invariant of the engine *)

Module Invariant.

Import Confidence PlaneEstimator FramePipeline.
Local Open Scope Z_scope.

(** The matrices the frame pipeline reads are in place. *)
Definition allocated (e : Engine) : Prop :=
  grayFrame e <> None /\ prevGrayFrame e <> None /\ prevPoints e <> None.

(** What every engine satisfies: a confidence in [0, 1], a frame counter
    that is not negative and, once initialized, its matrices. *)
Definition sound (e : Engine) : Prop :=
  conf_ok (planeConfidence e) /\
  0 <= frameCount e /\
  (initialized e = true -> allocated e).

(** An update that leaves the confidence, the counter and the flag alone
    and empties no matrix keeps the engine sound. *)
Lemma sound_update (e e' : Engine) :
  sound e ->
  planeConfidence e' = planeConfidence e ->
  frameCount e' = frameCount e ->
  initialized e' = initialized e ->
  (grayFrame e <> None -> grayFrame e' <> None) ->
  (prevGrayFrame e <> None -> prevGrayFrame e' <> None) ->
  (prevPoints e <> None -> prevPoints e' <> None) ->
  sound e'.
Proof.
  intros (Hc & Hf & Ha) Ec Ef Ei Hg Hpg Hp. unfold sound.
  rewrite Ec, Ef, Ei. split; [exact Hc|]. split; [exact Hf|].
  intros Hi. destruct (Ha Hi) as (A & B & C). unfold allocated. auto.
Qed.

Ltac updated H :=
  apply (@sound_update _ _ H);
  try reflexivity; cbn; intros; try assumption; discriminate.

(** A step of the [try] block keeps [sound], however it ends. *)
Definition keeps {A : Type} (m : M A) : Prop :=
  forall c, sound (this c) -> sound (this (snd (m c))).

Lemma keeps_bind {A B : Type} (m : M A) (k : A -> M B) :
  keeps m -> (forall a, keeps (k a)) -> keeps (bind m k).
Proof.
  intros Hm Hk c Hc. unfold bind. specialize (Hm c Hc).
  destruct (m c) as [[a | |] c']; cbn [snd] in *; auto.
  apply Hk, Hm.
Qed.

Lemma keeps_get_this {B : Type} (k : Engine -> M B) :
  (forall e, sound e -> keeps (k e)) -> keeps (bind get_this k).
Proof.
  intros Hk c Hc. unfold bind, get_this. apply Hk; exact Hc.
Qed.

Lemma keeps_pure {A : Type} (m : M A) :
  (forall c, this (snd (m c)) = this c) -> keeps m.
Proof. intros H c Hc. rewrite H. exact Hc. Qed.

Lemma keeps_modify (f : Engine -> Engine) :
  (forall e, sound e -> sound (f e)) -> keeps (modify f).
Proof. intros H c Hc. apply H, Hc. Qed.

Lemma keeps_method (f : Engine -> Engine * list Call) :
  (forall e, sound e -> sound (fst (f e))) -> keeps (method f).
Proof.
  intros H c Hc. unfold method. specialize (H _ Hc).
  destruct (f (this c)) as [e l]. exact H.
Qed.

Lemma keeps_when (b : bool) (m : M unit) : keeps m -> keeps (when b m).
Proof.
  intros H. destruct b; [exact H|]. apply keeps_pure. reflexivity.
Qed.

Lemma keeps_deref {A : Type} (field : Engine -> option A) : keeps (deref field).
Proof.
  apply keeps_pure. intros c. unfold deref.
  destruct (field (this c)); reflexivity.
Qed.

Lemma keeps_external {A : Type} (name : Call) (answer : option A) :
  keeps (external name answer).
Proof.
  apply keeps_pure. intros c. unfold external. destruct answer; reflexivity.
Qed.

Lemma js_incr_nonneg (n : Z) : 0 <= n -> 0 <= JS.js_incr n.
Proof.
  intros H. unfold JS.js_incr. destruct (n <? 2 ^ 53); lia.
Qed.

Lemma detectFeatures_sound (cv : Vision) (e : Engine) :
  sound e -> sound (fst (detectFeatures cv e)).
Proof.
  intros H. unfold detectFeatures.
  destruct (grayFrame e) as [g |]; [| updated H].
  destruct (goodFeaturesToTrack cv g (settings e)); updated H.
Qed.

Lemma trackPoints_sound (cv : Vision) (e : Engine) :
  sound e -> sound (fst (trackPoints cv e)).
Proof.
  intros H. unfold trackPoints.
  destruct (prevPoints e) as [pts |] eqn:Ep; [| exact H].
  destruct (rows pts =? 0)%nat; [exact H|].
  cbn [prevGrayFrame grayFrame settings set_status set_nextPoints].
  destruct (prevGrayFrame e) as [pg |]; [| exact H].
  destruct (grayFrame e) as [g |]; [| exact H].
  destruct (calcOpticalFlowPyrLK cv pg g pts (settings e)) as [flow |];
    [| exact H].
  cbv zeta.
  destruct (f_newPrev (filter_points pts (flow_next flow) (flow_status flow)));
    updated H.
Qed.

Lemma estimatePlane_sound (e : Engine) :
  sound e -> sound (snd (estimatePlane e)).
Proof.
  intros (Hc & Hf & Ha). split.
  - apply estimatePlane_conf_ok, Hc.
  - unfold estimatePlane.
    destruct (length (trackedPoints e) <? 8)%nat; [split; assumption|].
    destruct (isCoherent (trackedPoints e)); split; assumption.
Qed.

Lemma estimatePose_sound (e : Engine) : sound e -> sound (estimatePose e).
Proof.
  intros H. unfold estimatePose. destruct (groundPlane e); exact H.
Qed.

Ltac pure_step := apply keeps_pure; intros; reflexivity.

Lemma processFrame_try_keeps (cv : Vision) (now : Z) (video : Video) :
  keeps (processFrame_try cv now video).
Proof.
  unfold processFrame_try.
  apply keeps_get_this; intros e He.
  apply keeps_bind; [apply keeps_when, keeps_modify; intros e' H'; exact H'|].
  intros _.
  destruct ((videoWidth video =? 0)%nat || (videoHeight video =? 0)%nat);
    [pure_step|].
  apply keeps_bind; [| intros _].
  { unfold ensure_frame. apply keeps_get_this; intros e1 H1.
    apply keeps_when, keeps_bind; [| intros _];
      apply keeps_modify; intros e2 H2; [exact H2|].
    destruct (debugCanvas e2); exact H2. }
  apply keeps_bind; [| intros _].
  { unfold grab_frame.
    apply keeps_bind; [apply keeps_external | intros pixels].
    apply keeps_bind; [apply keeps_deref | intros f].
    apply keeps_bind; [apply keeps_modify; intros e1 H1; exact H1 | intros _].
    apply keeps_get_this; intros e1 H1.
    apply keeps_bind; [apply keeps_external | intros gray].
    apply keeps_modify; intros e2 H2. updated H2. }
  apply keeps_bind; [| intros _].
  { apply keeps_modify. intros e1 (Hc & Hf & Ha).
    split; [exact Hc|]. split; [apply js_incr_nonneg, Hf | exact Ha]. }
  apply keeps_bind; [| intros _].
  { unfold refresh_features.
    apply keeps_bind; [apply keeps_deref | intros pts].
    apply keeps_get_this; intros e1 H1.
    apply keeps_when, keeps_method. intros e2. apply detectFeatures_sound. }
  apply keeps_bind; [| intros tracking].
  { unfold can_track.
    apply keeps_bind; [apply keeps_deref | intros pg].
    destruct (0 <? rows pg)%nat; [| pure_step].
    apply keeps_bind; [apply keeps_deref | intros pts].
    apply keeps_get_this; intros e1 H1. pure_step. }
  apply keeps_bind; [| intros _].
  { destruct tracking.
    - unfold track_and_estimate.
      apply keeps_bind; [| intros _].
      { apply keeps_method. intros e1. apply trackPoints_sound. }
      apply keeps_get_this; intros e1 H1.
      apply keeps_bind; [pure_step | intros _].
      apply keeps_bind; [pure_step | intros r].
      apply keeps_bind; [pure_step | intros _].
      apply keeps_bind; [pure_step | intros r'].
      apply keeps_when.
      apply keeps_get_this; intros e2 H2.
      pose proof (estimatePlane_sound H2) as H3.
      destruct (estimatePlane e2) as [found e3]. cbn [snd] in H3.
      apply keeps_bind; [apply keeps_modify; intros; exact H3 | intros _].
      apply keeps_bind; [pure_step | intros _].
      apply keeps_when.
      apply keeps_bind;
        [apply keeps_modify; intros e4; apply estimatePose_sound | intros _].
      apply keeps_bind; [pure_step | intros _].
      apply keeps_get_this; intros e4 H4. pure_step.
    - unfold report_detected.
      apply keeps_bind; [apply keeps_deref | intros pts].
      apply keeps_bind; [pure_step | intros _].
      apply keeps_bind; [pure_step | intros r]. pure_step. }
  apply keeps_bind; [apply keeps_deref | intros gray].
  apply keeps_bind; [apply keeps_deref | intros pg].
  apply keeps_bind; [apply keeps_modify; intros e1 H1; updated H1 | intros _].
  apply keeps_get_this; intros e1 H1.
  apply keeps_bind; [pure_step | intros r]. pure_step.
Qed.

Lemma processFrame_sound (cv : Vision) (now : Z) (video : Video) (e : Engine) :
  sound e -> sound (snd (fst (processFrame cv now video e))).
Proof.
  intros H. unfold processFrame.
  destruct (initialized e); cbn [negb]; [| exact H].
  pose proof (processFrame_try_keeps cv now video
                (mkCtx e (mkResult false false 0 0 None (imuData e)) []) H) as K.
  destruct (processFrame_try cv now video
              (mkCtx e (mkResult false false 0 0 None (imuData e)) []))
    as [[a | |] c]; cbn [snd fst] in *; exact K.
Qed.

Lemma reset_sound (e : Engine) : sound e -> sound (reset e).
Proof.
  intros (_ & _ & Ha). unfold sound.
  destruct (Lifecycle.reset_cleared e) as (_ & _ & _ & _ & _ & -> & -> & _).
  split; [split; reflexivity|]. split; [lia|].
  revert Ha. unfold reset, allocated.
  destruct e as [fr gr pg pp np st tr po tp gf gp pc imu se fc ini dc dx ll].
  destruct pp as [[[| rp] cp dp] |], pg as [[[| rg] cg dg] |];
    cbv; intros Ha Hi; destruct (Ha Hi) as (A & B & C);
    repeat split; try assumption; discriminate.
Qed.

(** The engines a program can hold: built by the constructor and then
    driven through the public operations, in any order. *)
Inductive reachable (cv : Vision) : Engine -> Prop :=
  | reach_constructor canvas ctx :
      reachable cv (constructor canvas ctx)
  | reach_init e e' :
      reachable cv e -> init true e = Some e' -> reachable cv e'
  | reach_orientation e a b g :
      reachable cv e -> reachable cv (on_deviceorientation a b g e)
  | reach_settings e f :
      reachable cv e -> reachable cv (updateSettings f e)
  | reach_frame e now video :
      reachable cv e ->
      reachable cv (snd (fst (processFrame cv now video e)))
  | reach_reset e :
      reachable cv e -> reachable cv (reset e).

(** Every reachable engine is sound: in particular its confidence is in
    [0, 1]. *)
Theorem reachable_sound (cv : Vision) (e : Engine) :
  reachable cv e -> sound e.
Proof.
  induction 1 as [canvas ctx | e e' _ IH Hi | e a b g _ IH | e f _ IH
                 | e now video _ IH | e _ IH].
  - split; [split; reflexivity|]. split; [cbn; lia | discriminate].
  - unfold init in Hi. injection Hi as <-.
    destruct IH as (Hc & Hf & _).
    split; [exact Hc|]. split; [exact Hf|].
    intros _. repeat split; discriminate.
  - exact IH.
  - exact IH.
  - apply processFrame_sound, IH.
  - apply reset_sound, IH.
Qed.

(** On a reachable, initialized engine every frame that has a size and
    that capture and conversion accept is a processed frame. *)
Theorem reachable_processed
    (cv : Vision) (video : Video) (e : Engine)
    (pixels : list Z) (gray : Mat Z) :
  reachable cv e ->
  initialized e = true ->
  videoWidth video <> 0%nat ->
  videoHeight video <> 0%nat ->
  capture cv video = Some pixels ->
  cvtColor cv (mkMat (videoHeight video) (videoWidth video) pixels)
  = Some gray ->
  0 <= frameCount e /\
  exists pts prevGray, Processed cv video e pts prevGray pixels gray.
Proof.
  intros Hr Hi Hw Hh Hcap Hcvt.
  destruct (reachable_sound Hr) as (_ & Hf & Ha).
  split; [exact Hf|].
  destruct (Ha Hi) as (A & B & C).
  destruct (prevPoints e) as [pts |] eqn:Ep; [| congruence].
  destruct (prevGrayFrame e) as [pg |] eqn:Eg; [| congruence].
  exists pts, pg. constructor; assumption.
Qed.

End Invariant.

(** * Every way a frame can end

    A frame may end at the [return] inside the [try] block, at the end of
    the block, or in [catch] after any collaborator has thrown.  The
    triples below speak about all of them at once. *)

Module FrameLogic.

Import FramePipeline.
Local Open Scope Z_scope.

Section Triple.

(** What holds when [catch] takes over, and at [return result]. *)
Variables (Exc Ret : Ctx -> Prop).

(** From a context in [P], [m] reaches the next statement in [Q], or
    leaves the block in [Ret] or [Exc]. *)
Definition triple {A : Type} (P : Ctx -> Prop) (m : M A)
    (Q : A -> Ctx -> Prop) : Prop :=
  forall c, P c ->
    match m c with
    | (Normal a, c') => Q a c'
    | (Returned, c') => Ret c'
    | (Thrown, c') => Exc c'
    end.

Lemma triple_bind {A B : Type} (P : Ctx -> Prop) (m : M A) (k : A -> M B)
    (Q : A -> Ctx -> Prop) (R : B -> Ctx -> Prop) :
  triple P m Q -> (forall a, triple (Q a) (k a) R) -> triple P (bind m k) R.
Proof.
  intros Hm Hk c Hc. unfold bind. specialize (Hm c Hc).
  destruct (m c) as [[a | |] c']; [| exact Hm | exact Hm].
  exact (Hk a c' Hm).
Qed.

Lemma triple_pre {A : Type} (P P' : Ctx -> Prop) (m : M A)
    (Q : A -> Ctx -> Prop) :
  (forall c, P c -> P' c) -> triple P' m Q -> triple P m Q.
Proof. intros H Hm c Hc. exact (Hm c (H c Hc)). Qed.

Lemma triple_ret {A : Type} (P : Ctx -> Prop) (a : A) (Q : A -> Ctx -> Prop) :
  (forall c, P c -> Q a c) -> triple P (ret a) Q.
Proof. intros H c Hc. exact (H c Hc). Qed.

Lemma triple_return_result (P : Ctx -> Prop) (Q : unit -> Ctx -> Prop) :
  (forall c, P c -> Ret c) -> triple P return_result Q.
Proof. intros H c Hc. exact (H c Hc). Qed.

Lemma triple_get_this (P : Ctx -> Prop) :
  triple P get_this (fun e c => P c /\ e = this c).
Proof. intros c Hc. split; [exact Hc | reflexivity]. Qed.

Lemma triple_get_result (P : Ctx -> Prop) :
  triple P get_result (fun r c => P c /\ r = result c).
Proof. intros c Hc. split; [exact Hc | reflexivity]. Qed.

Lemma triple_modify (P : Ctx -> Prop) (f : Engine -> Engine)
    (Q : unit -> Ctx -> Prop) :
  (forall c, P c -> Q tt (mkCtx (f (this c)) (result c) (calls c))) ->
  triple P (modify f) Q.
Proof. intros H c Hc. exact (H c Hc). Qed.

Lemma triple_modify_result (P : Ctx -> Prop) (f : FrameResult -> FrameResult)
    (Q : unit -> Ctx -> Prop) :
  (forall c, P c -> Q tt (mkCtx (this c) (f (result c)) (calls c))) ->
  triple P (modify_result f) Q.
Proof. intros H c Hc. exact (H c Hc). Qed.

Lemma triple_log (P : Ctx -> Prop) (l : list Call) (Q : unit -> Ctx -> Prop) :
  (forall c, P c -> Q tt (mkCtx (this c) (result c) (calls c ++ l))) ->
  triple P (log l) Q.
Proof. intros H c Hc. exact (H c Hc). Qed.

Lemma triple_when (P : Ctx -> Prop) (b : bool) (m : M unit)
    (Q : unit -> Ctx -> Prop) :
  (b = true -> triple P m Q) ->
  (b = false -> forall c, P c -> Q tt c) ->
  triple P (when b m) Q.
Proof.
  intros Ht Hf. destruct b; cbn [when].
  - exact (Ht eq_refl).
  - intros c Hc. exact (Hf eq_refl c Hc).
Qed.

Lemma triple_deref {A : Type} (P : Ctx -> Prop) (field : Engine -> option A)
    (Q : A -> Ctx -> Prop) :
  (forall c a, P c -> field (this c) = Some a -> Q a c) ->
  (forall c, P c -> field (this c) = None -> Exc c) ->
  triple P (deref field) Q.
Proof.
  intros Hs Hn c Hc. unfold deref.
  destruct (field (this c)) as [a |] eqn:E; [exact (Hs c a Hc E) | exact (Hn c Hc E)].
Qed.

Lemma triple_external {A : Type} (P : Ctx -> Prop) (name : Call)
    (answer : option A) (Q : A -> Ctx -> Prop) :
  (forall c a, P c -> answer = Some a ->
               Q a (mkCtx (this c) (result c) (calls c ++ [name]))) ->
  (forall c, P c -> answer = None ->
             Exc (mkCtx (this c) (result c) (calls c ++ [name]))) ->
  triple P (external name answer) Q.
Proof.
  intros Hs Hn c Hc. unfold external.
  destruct answer as [a |]; [exact (Hs c a Hc eq_refl) | exact (Hn c Hc eq_refl)].
Qed.

Lemma triple_method (P : Ctx -> Prop) (f : Engine -> Engine * list Call)
    (Q : unit -> Ctx -> Prop) :
  (forall c, P c ->
     Q tt (mkCtx (fst (f (this c))) (result c) (calls c ++ snd (f (this c))))) ->
  triple P (method f) Q.
Proof.
  intros H c Hc. unfold method. specialize (H c Hc).
  destruct (f (this c)) as [e l]. exact H.
Qed.

(** A statement whose run is known. *)
Lemma triple_run {A : Type} (P : Ctx -> Prop) (m : M A)
    (Q : A -> Ctx -> Prop) (a : Ctx -> A) (next : Ctx -> Ctx) :
  (forall c, P c -> m c = (Normal (a c), next c)) ->
  (forall c, P c -> Q (a c) (next c)) ->
  triple P m Q.
Proof. intros Hm HQ c Hc. rewrite (Hm c Hc). exact (HQ c Hc). Qed.

End Triple.

End FrameLogic.

(** * The stages of a frame

    [processFrame] prepares the frame (log line, buffer, capture,
    grayscale, counter, refresh), then either tracks or reports, then hands
    the grayscale frame over.  A property that every preparation step
    keeps, that the branch establishes and that the hand-over keeps holds
    however the frame ends. *)

Module Stages.

Import FramePipeline FrameLogic.
Local Open Scope Z_scope.

(** A property of the engine and the result under construction, read on a
    context. *)
Definition on (P : Engine -> FrameResult -> Prop) (c : Ctx) : Prop :=
  P (this c) (result c).

Section Stages.

Variables (cv : Vision) (now : Z) (video : Video).

(** [Pre] holds while the frame is prepared, [Post] from the branch on and
    in [catch], [Early] at the early [return]. *)
Variables (Pre Post Early : Engine -> FrameResult -> Prop).

Hypothesis pre_post : forall e r, Pre e r -> Post e r.
Hypothesis pre_early : forall e r,
  Pre e r -> videoWidth video = 0%nat \/ videoHeight video = 0%nat ->
  Early e r.
Hypothesis pre_logged : forall e r, Pre e r -> Pre (set_lastLogTime now e) r.
Hypothesis pre_allocated : forall e r, Pre e r -> Pre (allocated video e) r.
Hypothesis pre_captured : forall e r f pixels,
  Pre e r -> frame e = Some f ->
  Pre (set_frame (Some (mkMat (rows f) (cols f) pixels)) e) r.
Hypothesis pre_converted : forall e r gray,
  Pre e r -> Pre (set_grayFrame (Some gray) e) r.
Hypothesis pre_counted : forall e r,
  Pre e r -> Pre (set_frameCount (JS.js_incr (frameCount e)) e) r.
Hypothesis pre_detected : forall e r,
  Pre e r -> Pre (fst (detectFeatures cv e)) r.
Hypothesis post_tracked : forall e r,
  Pre e r ->
  Post (snd (estimated (fst (trackPoints cv e)) r))
       (fst (estimated (fst (trackPoints cv e)) r)).
Hypothesis post_reported : forall e r pts,
  Pre e r -> prevPoints e = Some pts -> Post e (reported pts r).
Hypothesis post_handed : forall e r gray,
  Post e r -> grayFrame e = Some gray ->
  Post (set_prevGrayFrame (Some gray) e) r.

Lemma ensure_frame_stage :
  triple (on Post) (on Early) (on Pre) (ensure_frame (videoWidth video) (videoHeight video))
       (fun _ => on Pre).
Proof.
  apply triple_run
    with (a := fun _ => tt)
         (next := fun c => mkCtx (allocated video (this c)) (result c) (calls c)).
  - intros c _. apply ensure_frame_run.
  - intros c Hc. apply pre_allocated, Hc.
Qed.

Lemma grab_frame_stage :
  triple (on Post) (on Early) (on Pre) (grab_frame cv video) (fun _ => on Pre).
Proof.
  unfold grab_frame.
  apply triple_bind with (Q := fun _ => on Pre).
  { apply triple_external; intros c; intros; [exact H | apply pre_post; exact H]. }
  intros pixels.
  apply triple_bind
    with (Q := fun f c => on Pre c /\ frame (this c) = Some f).
  { apply triple_deref; intros c; intros; [split; assumption | apply pre_post; exact H]. }
  intros f.
  apply triple_bind with (Q := fun _ => on Pre).
  { apply triple_modify. intros c [Hc Hf]. exact (pre_captured pixels Hc Hf). }
  intros _.
  apply triple_bind with (Q := fun _ => on Pre).
  { apply triple_pre with (P' := on Pre); [auto|].
    intros c Hc. exact Hc. }
  intros e.
  apply triple_bind with (Q := fun _ => on Pre).
  { apply triple_external; intros c; intros; [exact H | apply pre_post; exact H]. }
  intros gray.
  apply triple_modify. intros c Hc. apply pre_converted, Hc.
Qed.

Lemma refresh_features_stage :
  triple (on Post) (on Early) (on Pre) (refresh_features cv) (fun _ => on Pre).
Proof.
  unfold refresh_features.
  apply triple_bind with (Q := fun _ => on Pre).
  { apply triple_deref; intros c; intros; [exact H | apply pre_post; exact H]. }
  intros pts.
  apply triple_bind with (Q := fun _ => on Pre).
  { intros c Hc. exact Hc. }
  intros e.
  apply triple_when; intros _.
  - apply triple_method. intros c Hc. apply pre_detected, Hc.
  - intros c Hc. exact Hc.
Qed.

Lemma can_track_stage :
  triple (on Post) (on Early) (on Pre) can_track (fun _ => on Pre).
Proof.
  unfold can_track.
  apply triple_bind with (Q := fun _ => on Pre).
  { apply triple_deref; intros c; intros; [exact H | apply pre_post; exact H]. }
  intros prevGray.
  destruct (0 <? rows prevGray)%nat.
  - apply triple_bind with (Q := fun _ => on Pre).
    { apply triple_deref; intros c; intros; [exact H | apply pre_post; exact H]. }
    intros pts.
    apply triple_bind with (Q := fun _ => on Pre).
    { intros c Hc. exact Hc. }
    intros e. apply triple_ret. auto.
  - apply triple_ret. auto.
Qed.

Lemma track_and_estimate_stage :
  triple (on Post) (on Early) (on Pre) (track_and_estimate cv) (fun _ => on Post).
Proof.
  apply triple_run
    with (a := fun _ => tt)
         (next := fun c =>
            let t := trackPoints cv (this c) in
            let o := estimated (fst t) (result c) in
            mkCtx (snd o) (fst o) (calls c ++ snd t)).
  - intros c _. apply track_and_estimate_run.
  - intros c Hc. apply post_tracked, Hc.
Qed.

Lemma report_detected_stage :
  triple (on Post) (on Early) (on Pre) report_detected (fun _ => on Post).
Proof.
  unfold report_detected.
  apply triple_bind
    with (Q := fun pts c => on Pre c /\ prevPoints (this c) = Some pts).
  { apply triple_deref; intros c; intros; [split; assumption | apply pre_post; exact H]. }
  intros pts.
  apply triple_pre with (P' := fun c => on Pre c /\ prevPoints (this c) = Some pts);
    [auto|].
  apply triple_run
    with (a := fun _ => tt)
         (next := fun c => mkCtx (this c) (reported pts (result c)) (calls c)).
  - intros c [_ Hp]. unfold bind, modify_result, get_result. reflexivity.
  - intros c [Hc Hp]. exact (post_reported Hc Hp).
Qed.

(** However the [try] block ends, [Post] holds, or [Early] at the early
    return. *)
Theorem processFrame_try_stages :
  triple (on Post) (on Early) (on Pre) (processFrame_try cv now video) (fun _ => on Post).
Proof.
  unfold processFrame_try.
  apply triple_bind with (Q := fun _ => on Pre).
  { intros c Hc. exact Hc. }
  intros e.
  apply triple_bind with (Q := fun _ => on Pre).
  { apply triple_when; intros _.
    - apply triple_modify. intros c Hc. apply pre_logged, Hc.
    - intros c Hc. exact Hc. }
  intros _.
  destruct ((videoWidth video =? 0)%nat || (videoHeight video =? 0)%nat) eqn:Ez.
  { apply triple_return_result. intros c Hc. apply pre_early; [exact Hc|].
    apply orb_prop in Ez. rewrite !Nat.eqb_eq in Ez. exact Ez. }
  apply triple_bind with (Q := fun _ => on Pre); [apply ensure_frame_stage|].
  intros _.
  apply triple_bind with (Q := fun _ => on Pre); [apply grab_frame_stage|].
  intros _.
  apply triple_bind with (Q := fun _ => on Pre).
  { apply triple_modify. intros c Hc. apply pre_counted, Hc. }
  intros _.
  apply triple_bind with (Q := fun _ => on Pre); [apply refresh_features_stage|].
  intros _.
  apply triple_bind with (Q := fun _ => on Pre); [apply can_track_stage|].
  intros tracking.
  apply triple_bind with (Q := fun _ => on Post).
  { destruct tracking;
      [apply track_and_estimate_stage | apply report_detected_stage]. }
  intros _.
  apply triple_bind
    with (Q := fun gray c => on Post c /\ grayFrame (this c) = Some gray).
  { apply triple_deref; intros c; intros; [split; assumption | exact H]. }
  intros gray.
  apply triple_bind
    with (Q := fun _ c => on Post c /\ grayFrame (this c) = Some gray).
  { apply triple_deref.
    - intros c a [Hc Hg] _. split; assumption.
    - intros c [Hc _] _. exact Hc. }
  intros _.
  apply triple_bind with (Q := fun _ => on Post).
  { apply triple_modify. intros c [Hc Hg]. exact (post_handed Hc Hg). }
  intros _.
  apply triple_bind with (Q := fun _ => on Post).
  { intros c Hc. exact Hc. }
  intros e'.
  apply triple_bind with (Q := fun _ => on Post).
  { intros c Hc. exact Hc. }
  intros r.
  apply triple_log. intros c Hc. exact Hc.
Qed.

(** The same for [processFrame] on an initialized engine: the engine it
    leaves is the one of the early return, or the one the block left with
    [isTracking] copied from the result. *)
Theorem processFrame_stages (e : Engine) :
  initialized e = true ->
  Pre e (mkResult false false 0 0 None (imuData e)) ->
  let out := processFrame cv now video e in
  exists e1,
    (Early e1 (fst (fst out)) /\ snd (fst out) = e1) \/
    (Post e1 (fst (fst out)) /\
     snd (fst out) = set_isTracking (r_isTracking (fst (fst out))) e1).
Proof.
  intros Hi Hpre. cbv zeta. unfold processFrame. rewrite Hi. cbn [negb].
  set (c0 := mkCtx e (mkResult false false 0 0 None (imuData e)) []).
  pose proof (@processFrame_try_stages c0 Hpre) as H.
  destruct (processFrame_try cv now video c0) as [[[] | |] c] eqn:E;
    cbn [fst snd]; exists (this c).
  - right. split; [exact H | reflexivity].
  - left. split; [exact H | reflexivity].
  - right. split; [exact H | reflexivity].
Qed.

End Stages.

End Stages.


(** * What each method writes *)

Module Touched.

Import FramePipeline.
Local Open Scope Z_scope.

(** Reading a field of an updated engine. *)
Ltac fields :=
  cbn [frame grayFrame prevGrayFrame prevPoints nextPoints status isTracking
       currentPose trackedPoints goodFeatures groundPlane planeConfidence
       imuData settings frameCount initialized debugCanvas debugCtx
       lastLogTime
       set_frame set_grayFrame set_prevGrayFrame set_prevPoints
       set_nextPoints set_status set_isTracking set_currentPose
       set_trackedPoints set_goodFeatures set_groundPlane
       set_planeConfidence set_imuData set_settings set_frameCount
       set_initialized set_debugCanvas set_debugCtx set_lastLogTime] in *.

Lemma detectFeatures_touches (cv : Vision) (e : Engine) :
  exists pp, fst (detectFeatures cv e) = set_prevPoints pp e.
Proof.
  unfold detectFeatures.
  destruct (grayFrame e) as [g |]; [| eexists; reflexivity].
  destruct (goodFeaturesToTrack cv g (settings e)); eexists; reflexivity.
Qed.

Lemma trackPoints_touches (cv : Vision) (e : Engine) :
  exists np st gf tp pp,
    fst (trackPoints cv e)
    = set_prevPoints pp
        (set_trackedPoints tp
           (set_goodFeatures gf (set_status st (set_nextPoints np e)))).
Proof.
  unfold trackPoints.
  destruct (prevPoints e) as [pts |] eqn:Ep.
  2:{ exists (nextPoints e), (status e), (goodFeatures e), (trackedPoints e),
        (prevPoints e).
      destruct e; reflexivity. }
  destruct (rows pts =? 0)%nat.
  { exists (nextPoints e), (status e), (goodFeatures e), (trackedPoints e),
      (prevPoints e).
    destruct e; reflexivity. }
  cbn [prevGrayFrame grayFrame settings set_status set_nextPoints].
  destruct (prevGrayFrame e) as [pg |].
  2:{ exists (Some emptyMat), (Some emptyMat), [], [], (prevPoints e).
      destruct e; reflexivity. }
  destruct (grayFrame e) as [g |].
  2:{ exists (Some emptyMat), (Some emptyMat), [], [], (prevPoints e).
      destruct e; reflexivity. }
  destruct (calcOpticalFlowPyrLK cv pg g pts (settings e)) as [flow |].
  2:{ exists (Some emptyMat), (Some emptyMat), [], [], (prevPoints e).
      destruct e; reflexivity. }
  cbv zeta.
  destruct (f_newPrev (filter_points pts (flow_next flow) (flow_status flow)));
    do 5 eexists; destruct e; reflexivity.
Qed.

Lemma estimatePlane_touches (e : Engine) :
  exists pc gp,
    snd (estimatePlane e) = set_groundPlane gp (set_planeConfidence pc e).
Proof.
  unfold estimatePlane.
  destruct (length (trackedPoints e) <? 8)%nat.
  { exists (conf_decr (planeConfidence e)), (groundPlane e).
    destruct e; reflexivity. }
  destruct (isCoherent (trackedPoints e)).
  - do 2 eexists. cbv zeta. cbn [snd]. reflexivity.
  - exists (conf_decr (planeConfidence e)), (groundPlane e).
    destruct e; reflexivity.
Qed.

Lemma estimatePose_touches (e : Engine) :
  exists cp, estimatePose e = set_currentPose cp e.
Proof.
  unfold estimatePose. destruct (groundPlane e).
  - eexists. reflexivity.
  - exists (currentPose e). destruct e; reflexivity.
Qed.

Lemma estimated_touches (e : Engine) (r : FrameResult) :
  exists pc gp cp,
    snd (estimated e r)
    = set_currentPose cp (set_groundPlane gp (set_planeConfidence pc e)).
Proof.
  unfold estimated. cbv zeta.
  destruct (r_hasFeatures _).
  2:{ exists (planeConfidence e), (groundPlane e), (currentPose e).
      destruct e; reflexivity. }
  destruct (estimatePlane_touches e) as (pc & gp & E).
  destruct (estimatePlane e) as [found e1]. cbn [snd] in E. subst e1.
  destruct found; cbn [snd].
  - destruct (estimatePose_touches
                (set_groundPlane gp (set_planeConfidence pc e))) as (cp & ->).
    exists pc, gp, cp. reflexivity.
  - exists pc, gp, (currentPose e). destruct e; reflexivity.
Qed.

Lemma allocated_touches (video : Video) (e : Engine) :
  exists f dc,
    allocated video e = set_debugCanvas dc (set_frame f e) /\
    (dc = None <-> debugCanvas e = None).
Proof.
  unfold allocated. destruct (stale_frame video e).
  - cbv zeta. cbn [debugCanvas set_frame].
    destruct (debugCanvas e) eqn:Ed.
    + do 2 eexists. split; [reflexivity|]. split; discriminate.
    + exists (Some (mkMat (videoHeight video) (videoWidth video) [])), None.
      split; [| tauto]. destruct e; cbn in *; subst; reflexivity.
  - exists (frame e), (debugCanvas e). split; [| tauto].
    destruct e; reflexivity.
Qed.

End Touched.

(** * What a frame never changes *)

Module Configuration.

Import FramePipeline Touched.
Local Open Scope Z_scope.

(** [e] has the configuration of [e0], and [r] carries its orientation
    sample. *)
Definition same_configuration (e0 e : Engine) (r : FrameResult) : Prop :=
  settings e = settings e0 /\
  imuData e = imuData e0 /\
  initialized e = initialized e0 /\
  debugCtx e = debugCtx e0 /\
  (debugCanvas e = None <-> debugCanvas e0 = None) /\
  r_imu r = imuData e0.

Lemma estimated_imu (e : Engine) (r : FrameResult) :
  r_imu (fst (estimated e r)) = r_imu r.
Proof.
  unfold estimated. cbv zeta. destruct (r_hasFeatures _); [| reflexivity].
  destruct (estimatePlane e) as [[] e2]; reflexivity.
Qed.

Lemma processFrame_same_configuration
    (cv : Vision) (now : Z) (video : Video) (e : Engine) :
  let out := processFrame cv now video e in
  same_configuration e (snd (fst out)) (fst (fst out)).
Proof.
  cbv zeta. destruct (initialized e) eqn:Hi.
  2:{ unfold processFrame. rewrite Hi. cbn. unfold same_configuration.
      repeat split; auto. }
  assert (H0 : same_configuration e e (mkResult false false 0 0 None (imuData e))).
  { unfold same_configuration. cbn. repeat split; auto. }
  pose (K := same_configuration e).
  assert (S1 : forall e' r, K e' r -> K (set_lastLogTime now e') r).
  { intros e' r H. unfold K, same_configuration in *. fields. exact H. }
  assert (S2 : forall e' r, K e' r -> K (allocated video e') r).
  { intros e' r H. destruct (allocated_touches video e') as (f & dc & -> & Hdc).
    unfold K, same_configuration in *. fields. intuition. }
  assert (S3 : forall e' r f px, K e' r -> frame e' = Some f ->
                 K (set_frame (Some (mkMat (rows f) (cols f) px)) e') r).
  { intros e' r f px H _. unfold K, same_configuration in *. fields. exact H. }
  assert (S4 : forall e' r g, K e' r -> K (set_grayFrame (Some g) e') r).
  { intros e' r g H. unfold K, same_configuration in *. fields. exact H. }
  assert (S5 : forall e' r,
                 K e' r -> K (set_frameCount (JS.js_incr (frameCount e')) e') r).
  { intros e' r H. unfold K, same_configuration in *. fields. exact H. }
  assert (S6 : forall e' r, K e' r -> K (fst (detectFeatures cv e')) r).
  { intros e' r H. destruct (detectFeatures_touches cv e') as (pp & ->).
    unfold K, same_configuration in *. fields. exact H. }
  assert (S7 : forall e' r, K e' r ->
                 K (snd (estimated (fst (trackPoints cv e')) r))
                   (fst (estimated (fst (trackPoints cv e')) r))).
  { intros e' r H.
    destruct (trackPoints_touches cv e') as (np & st & gf & tp & pp & Et).
    destruct (estimated_touches (fst (trackPoints cv e')) r) as (pc & gp & cp & ->).
    unfold K, same_configuration in *.
    rewrite (estimated_imu (fst (trackPoints cv e')) r), Et.
    fields. exact H. }
  assert (S8 : forall e' r pts, K e' r -> prevPoints e' = Some pts ->
                 K e' (reported pts r)).
  { intros e' r pts H _. exact H. }
  assert (S9 : forall e' r g, K e' r -> grayFrame e' = Some g ->
                 K (set_prevGrayFrame (Some g) e') r).
  { intros e' r g H _. unfold K, same_configuration in *. fields. exact H. }
  destruct (@Stages.processFrame_stages cv now video K K K
              (fun _ _ H => H) (fun _ _ H _ => H)
              S1 S2 S3 S4 S5 S6 S7 S8 S9 e Hi H0)
    as [e1 [[H ->] | [H ->]]].
  - exact H.
  - unfold K, same_configuration in *. fields. exact H.
Qed.

(** Whatever the frame, the collaborators and the way the frame ends,
    [processFrame] leaves the settings, the orientation sample, the
    initialized flag and the debug context as they were, neither adds nor
    removes the debug canvas, and returns the engine's orientation sample
    in the result. *)
Theorem processFrame_keeps_configuration
    (cv : Vision) (now : Z) (video : Video) (e : Engine) :
  let out := processFrame cv now video e in
  settings (snd (fst out)) = settings e /\
  imuData (snd (fst out)) = imuData e /\
  initialized (snd (fst out)) = initialized e /\
  debugCtx (snd (fst out)) = debugCtx e /\
  (debugCanvas (snd (fst out)) = None <-> debugCanvas e = None) /\
  r_imu (fst (fst out)) = imuData e.
Proof.
  cbv zeta.
  destruct (processFrame_same_configuration cv now video e)
    as (Hs & Hi & Hb & Hd & Hc & Hr).
  repeat split; try assumption; apply Hc.
Qed.

End Configuration.


(** * When a plane is reported *)

Module PlaneReport.

Import Confidence PlaneEstimator Touched.
Local Open Scope float_scope.

(** The hypothesis a coherent frame stores. *)
Definition hypothesis (e : Engine) : Plane :=
  {| center := centroid (goodFeatures e);
     confidence := conf_incr (planeConfidence e);
     motion := mean_displacement (trackedPoints e) |}.

Lemma estimatePlane_found (e e' : Engine) :
  estimatePlane e = (true, e') ->
  (8 <= length (trackedPoints e))%nat /\
  isCoherent (trackedPoints e) = true /\
  (0.5 <? conf_incr (planeConfidence e)) = true /\
  e' = set_groundPlane (Some (hypothesis e))
         (set_planeConfidence (conf_incr (planeConfidence e)) e).
Proof.
  intros H.
  destruct (Nat.lt_ge_cases (length (trackedPoints e)) 8) as [Hn | Hn].
  { rewrite (estimatePlane_few e Hn) in H. discriminate. }
  destruct (isCoherent (trackedPoints e)) eqn:Hc.
  - rewrite (estimatePlane_coherent e Hn Hc) in H.
    injection H as Hf He. subst e'. repeat split; assumption.
  - rewrite (estimatePlane_incoherent e Hn Hc) in H. discriminate.
Qed.

Lemma estimatePlane_not_found (e e' : Engine) :
  estimatePlane e = (false, e') ->
  groundPlane e' = groundPlane e /\ currentPose e' = currentPose e \/
  e' = set_groundPlane (Some (hypothesis e))
         (set_planeConfidence (conf_incr (planeConfidence e)) e) /\
  (0.5 <? conf_incr (planeConfidence e)) = false.
Proof.
  intros H.
  destruct (Nat.lt_ge_cases (length (trackedPoints e)) 8) as [Hn | Hn].
  { rewrite (estimatePlane_few e Hn) in H. injection H as <-. left. split; reflexivity. }
  destruct (isCoherent (trackedPoints e)) eqn:Hc.
  - rewrite (estimatePlane_coherent e Hn Hc) in H.
    injection H as Hf He. subst e'. right. split; [reflexivity | exact Hf].
  - rewrite (estimatePlane_incoherent e Hn Hc) in H. injection H as <-.
    left. split; reflexivity.
Qed.

(** [estimatePlane] never reports a plane from fewer than 8
    correspondences or from motion that is not coherent: when it answers
    [true] there were at least 8 correspondences, their displacement
    variance was below 100, the confidence was raised and is now above
    0.5, and the stored hypothesis (centroid of the features, the new
    confidence, the mean displacement) is the one of this frame. *)
Theorem plane_reported_only_when_coherent (e e' : Engine) :
  estimatePlane e = (true, e') ->
  (8 <= length (trackedPoints e))%nat /\
  (displacement_variance (trackedPoints e) <? 100) = true /\
  planeConfidence e' = JS.Math_min 1 (planeConfidence e + 0.15) /\
  (0.5 <? planeConfidence e') = true /\
  groundPlane e'
  = Some {| center := centroid (goodFeatures e);
            confidence := planeConfidence e';
            motion := mean_displacement (trackedPoints e) |}.
Proof.
  intros H. destruct (@estimatePlane_found e e' H) as (Hn & Hc & Hf & ->).
  unfold isCoherent in Hc. rewrite motionVariance_variance in Hc.
  repeat split; try assumption; reflexivity.
Qed.

Lemma plane_reported_only_when_coherent_witness :
  let e := set_planeConfidence 0.4
             (set_goodFeatures steady_features
                (set_trackedPoints steady_tracked (constructor None false))) in
  estimatePlane e
  = (true,
     set_groundPlane (Some (mkPlane (mkPoint 11 20) 0.55 (mkMotion 1 0)))
       (set_planeConfidence 0.55 e)) /\
  (8 <= length (trackedPoints e))%nat /\
  (displacement_variance (trackedPoints e) <? 100) = true.
Proof.
  cbv zeta.
  assert (E : estimatePlane
                (set_planeConfidence 0.4
                   (set_goodFeatures steady_features
                      (set_trackedPoints steady_tracked (constructor None false))))
              = (true,
                 set_groundPlane
                   (Some (mkPlane (mkPoint 11 20) 0.55 (mkMotion 1 0)))
                   (set_planeConfidence 0.55
                      (set_planeConfidence 0.4
                         (set_goodFeatures steady_features
                            (set_trackedPoints steady_tracked
                               (constructor None false)))))))
    by (vm_compute; reflexivity).
  split; [exact E|].
  destruct (@plane_reported_only_when_coherent _ _ E) as (Hn & Hv & _).
  split; [exact Hn | exact Hv].
Defined.

End PlaneReport.

(** * The shape of the result *)

Module ResultShape.

Import FramePipeline Touched PlaneReport.
Local Open Scope Z_scope.


(** A result that reports tracking, against the engine it comes from. *)
Definition tracked (e : Engine) (r : FrameResult) : Prop :=
  r_hasFeatures r = true /\
  r_planeCount r = 1%nat /\
  minFeatures (settings e) <= Z.of_nat (r_featureCount r) /\
  exists q p,
    r_pose r = Some q /\
    currentPose e = Some q /\
    groundPlane e = Some p /\
    planeCenter q = center p /\
    poseConfidence q = confidence p /\
    confidence p = planeConfidence e /\
    (0.5 <? poseConfidence q)%float = true /\
    vz (position q) = 3%float.






End ResultShape.


(** * What every engine satisfies *)

Module Consistency.

Import Confidence PlaneEstimator MotionTracker FramePipeline Touched PlaneReport.
Import Invariant.
Local Open Scope Z_scope.

(** The relations between the fields that the methods keep. *)
Record consistent (e : Engine) : Prop := {
  (* the features are the current ends of the correspondences *)
  features_follow : goodFeatures e = map curr (trackedPoints e);
  (* a stored hypothesis has a confidence in [0, 1] *)
  plane_bounded :
    forall p, groundPlane e = Some p -> conf_ok (confidence p);
  (* a stored pose has a confidence in (0.5, 1] and depth 3 *)
  pose_confident :
    forall q, currentPose e = Some q ->
      (0.5 <? poseConfidence q)%float = true /\
      (poseConfidence q <=? 1)%float = true /\
      vz (position q) = 3%float;
  (* an engine that says it tracks has a pose *)
  tracking_has_pose : isTracking e = true -> currentPose e <> None;
  (* the orientation sample holds numbers *)
  imu_numbers :
    is_nan (alpha (imuData e)) = false /\
    is_nan (beta (imuData e)) = false /\
    is_nan (gamma (imuData e)) = false;
  (* the debug canvas has the size of the frame buffer *)
  canvas_fits :
    forall f c, frame e = Some f -> debugCanvas e = Some c ->
      width c = cols f /\ height c = rows f
}.

Lemma consistent_update (e e' : Engine) :
  consistent e ->
  goodFeatures e' = goodFeatures e ->
  trackedPoints e' = trackedPoints e ->
  groundPlane e' = groundPlane e ->
  currentPose e' = currentPose e ->
  isTracking e' = isTracking e ->
  imuData e' = imuData e ->
  frame e' = frame e ->
  debugCanvas e' = debugCanvas e ->
  consistent e'.
Proof.
  intros [A B C D E F] E1 E2 E3 E4 E5 E6 E7 E8.
  constructor; rewrite ?E1, ?E2, ?E3, ?E4, ?E5, ?E6, ?E7, ?E8; assumption.
Qed.

Ltac unchanged H :=
  apply (@consistent_update _ _ H); reflexivity.

Lemma allocated_consistent (video : Video) (e : Engine) :
  consistent e -> consistent (FramePipeline.allocated video e).
Proof.
  intros H. unfold FramePipeline.allocated. destruct (stale_frame video e); [| exact H].
  cbv zeta. cbn [debugCanvas set_frame].
  destruct H as [A B C D E F].
  destruct (debugCanvas e) as [c0 |] eqn:Ed; constructor; fields;
    try assumption.
  - intros f c Hf Hc. injection Hf as <-. injection Hc as <-.
    split; reflexivity.
  - intros f c _ Hc. congruence.
Qed.

Lemma captured_consistent (e : Engine) (f : Mat Z) (pixels : list Z) :
  consistent e -> frame e = Some f ->
  consistent (set_frame (Some (mkMat (rows f) (cols f) pixels)) e).
Proof.
  intros [A B C D E F] Hf. constructor; fields; try assumption.
  intros f' c Hf' Hc. injection Hf' as <-. cbn [rows cols].
  exact (F f c Hf Hc).
Qed.

Lemma trackPoints_consistent (cv : Vision) (e : Engine) :
  consistent e -> consistent (fst (trackPoints cv e)).
Proof.
  intros H. unfold trackPoints.
  destruct (prevPoints e) as [pts |]; [| exact H].
  destruct (rows pts =? 0)%nat; [exact H|].
  cbn [prevGrayFrame grayFrame settings set_status set_nextPoints].
  destruct H as [A B C D E F].
  destruct (prevGrayFrame e) as [pg |];
    [| constructor; fields; cbn [fst]; fields; auto].
  destruct (grayFrame e) as [g |];
    [| constructor; fields; cbn [fst]; fields; auto].
  destruct (calcOpticalFlowPyrLK cv pg g pts (settings e)) as [flow |];
    [| constructor; fields; cbn [fst]; fields; auto].
  cbv zeta. rewrite filter_points_kept. cbn [f_good f_tracked f_newPrev].
  assert (Hm : map (feature_at (flow_next flow))
                 (kept pts (flow_next flow) (flow_status flow))
               = map curr (map (corr_at pts (flow_next flow))
                             (kept pts (flow_next flow) (flow_status flow)))).
  { rewrite map_map. reflexivity. }
  destruct (flat_map _ _); constructor; cbn [fst]; fields; auto.
Qed.

Lemma estimated_consistent (e : Engine) (r : FrameResult) :
  sound e -> consistent e -> r_isTracking r = false ->
  consistent (snd (estimated e r)) /\
  (r_isTracking (fst (estimated e r)) = true ->
   currentPose (snd (estimated e r)) <> None).
Proof.
  intros (Hc & _) H Hr. unfold estimated. cbv zeta.
  destruct (r_hasFeatures _); [| split; [exact H | cbn; congruence]].
  destruct (estimatePlane e) as [[] e1] eqn:Ep.
  - destruct (@estimatePlane_found e e1 Ep) as (_ & _ & Hf & ->).
    pose proof (conf_incr_spec Hc) as [_ Hle].
    unfold estimatePose. fields. cbv zeta. cbn [fst snd].
    split; [| cbn; discriminate].
    destruct H as [A B C D E F]. constructor; fields; try assumption.
    + intros p Hp. injection Hp as <-. cbn [confidence hypothesis].
      apply conf_incr_spec, Hc.
    + intros q Hq. injection Hq as <-.
      cbn [poseConfidence position vz confidence hypothesis].
      repeat split; assumption.
    + discriminate.
  - cbn [fst snd]. split; [| cbn; congruence].
    destruct (@estimatePlane_not_found e e1 Ep) as [[Hg Hp] | [-> Hf]].
    + destruct (estimatePlane_touches e) as (pc & gp & Et).
      rewrite Ep in Et. cbn [snd] in Et. subst e1. fields. subst gp.
      destruct H as [A B C D E F]. constructor; fields; assumption.
    + destruct H as [A B C D E F]. constructor; fields; try assumption.
      intros p Hp. injection Hp as <-. cbn [confidence hypothesis].
      apply conf_incr_spec, Hc.
Qed.

Lemma estimated_sound (e : Engine) (r : FrameResult) :
  sound e -> sound (snd (estimated e r)).
Proof.
  intros H. unfold estimated. cbv zeta.
  destruct (r_hasFeatures _); [| exact H].
  pose proof (estimatePlane_sound H) as H1.
  destruct (estimatePlane e) as [[] e1]; cbn [snd] in *; [| exact H1].
  apply estimatePose_sound, H1.
Qed.

Lemma allocated_sound (video : Video) (e : Engine) :
  sound e -> sound (FramePipeline.allocated video e).
Proof.
  intros H. destruct (allocated_touches video e) as (f & dc & -> & _).
  exact H.
Qed.

(** [processFrame] keeps an engine sound and consistent, however the
    frame ends. *)
Lemma processFrame_consistent
    (cv : Vision) (now : Z) (video : Video) (e : Engine) :
  sound e -> consistent e ->
  consistent (snd (fst (processFrame cv now video e))).
Proof.
  intros Hs Hc. destruct (initialized e) eqn:Hi.
  2:{ unfold processFrame. rewrite Hi. exact Hc. }
  pose (Pre := fun (e : Engine) (r : FrameResult) =>
                 sound e /\ consistent e /\ r_isTracking r = false).
  pose (Post := fun (e : Engine) (r : FrameResult) =>
                  sound e /\ consistent e /\
                  (r_isTracking r = true -> currentPose e <> None)).
  assert (S0 : forall e' r, Pre e' r -> Post e' r).
  { intros e' r (A & B & C).
    split; [exact A|]. split; [exact B | intros; congruence]. }
  assert (S1 : forall e' r, Pre e' r -> Pre (set_lastLogTime now e') r).
  { intros e' r (A & B & C).
    split; [exact A|]. split; [unchanged B | exact C]. }
  assert (S2 : forall e' r, Pre e' r -> Pre (FramePipeline.allocated video e') r).
  { intros e' r (A & B & C).
    split; [apply allocated_sound, A|].
    split; [apply allocated_consistent, B | exact C]. }
  assert (S3 : forall e' r f px, Pre e' r -> frame e' = Some f ->
                 Pre (set_frame (Some (mkMat (rows f) (cols f) px)) e') r).
  { intros e' r f px (A & B & C) Hf.
    split; [exact A|]. split; [apply captured_consistent; assumption | exact C]. }
  assert (S4 : forall e' r g, Pre e' r -> Pre (set_grayFrame (Some g) e') r).
  { intros e' r g (A & B & C).
    split; [updated A|]. split; [unchanged B | exact C]. }
  assert (S5 : forall e' r,
                 Pre e' r -> Pre (set_frameCount (JS.js_incr (frameCount e')) e') r).
  { intros e' r ((A1 & A2 & A3) & B & C).
    split; [split; [exact A1|]; split; [apply js_incr_nonneg, A2 | exact A3]|].
    split; [unchanged B | exact C]. }
  assert (S6 : forall e' r, Pre e' r -> Pre (fst (detectFeatures cv e')) r).
  { intros e' r (A & B & C).
    split; [apply detectFeatures_sound, A|]. split; [| exact C].
    destruct (detectFeatures_touches cv e') as (pp & ->). unchanged B. }
  assert (S7 : forall e' r, Pre e' r ->
                 Post (snd (estimated (fst (trackPoints cv e')) r))
                      (fst (estimated (fst (trackPoints cv e')) r))).
  { intros e' r (A & B & C).
    pose proof (trackPoints_sound cv A) as A'.
    pose proof (trackPoints_consistent cv B) as B'.
    split; [apply estimated_sound, A'|].
    apply estimated_consistent; assumption. }
  assert (S8 : forall e' r pts, Pre e' r -> prevPoints e' = Some pts ->
                 Post e' (reported pts r)).
  { intros e' r pts (A & B & C) _.
    split; [exact A|]. split; [exact B | cbn; intros; congruence]. }
  assert (S9 : forall e' r g, Post e' r -> grayFrame e' = Some g ->
                 Post (set_prevGrayFrame (Some g) e') r).
  { intros e' r g (A & B & C) _.
    split; [updated A|]. split; [unchanged B | exact C]. }
  assert (H0 : Pre e (mkResult false false 0 0 None (imuData e)))
    by (split; [exact Hs | split; [exact Hc | reflexivity]]).
  destruct (@Stages.processFrame_stages cv now video Pre Post Post
              S0 (fun e' r H _ => S0 e' r H)
              S1 S2 S3 S4 S5 S6 S7 S8 S9 e Hi H0)
    as [e1 [[(A & B & C) ->] | [(A & B & C) ->]]]; [exact B|].
  destruct B as [B1 B2 B3 B4 B5 B6]. constructor; fields; assumption.
Qed.

Lemma or_zero_number (x : option float) : is_nan (JS.or_zero x) = false.
Proof.
  unfold JS.or_zero. destruct x as [v |]; [| reflexivity].
  destruct (is_nan v) eqn:Hn; cbn [orb]; [reflexivity|].
  destruct (is_zero v); [reflexivity | exact Hn].
Qed.

Lemma reset_consistent (e : Engine) : consistent e -> consistent (reset e).
Proof.
  intros [A B C D E F].
  destruct (Lifecycle.reset_cleared e)
    as (H1 & H2 & H3 & H4 & H5 & _).
  assert (Hi : imuData (reset e) = imuData e /\ frame (reset e) = frame e /\
               debugCanvas (reset e) = debugCanvas e).
  { unfold reset.
    destruct e as [fr gr pg pp np st tr po tp gf gp pc imu se fc ini dc dx ll].
    destruct pp as [[[| rp] cp dp] |], pg as [[[| rg] cg dg] |];
      cbv; repeat split; reflexivity. }
  destruct Hi as (I1 & I2 & I3).
  constructor; rewrite ?H1, ?H2, ?H3, ?H4, ?H5, ?I1, ?I2, ?I3;
    try assumption; try discriminate. reflexivity.
Qed.

(** Every engine a program can hold is consistent. *)
Lemma reachable_consistent (cv : Vision) (e : Engine) :
  reachable cv e -> consistent e.
Proof.
  induction 1 as [canvas ctx | e e' Hr IH Hi | e a b g _ IH | e f _ IH
                 | e now video Hr IH | e _ IH].
  - constructor; cbn; try discriminate; auto.
  - unfold init in Hi. injection Hi as <-. unchanged IH.
  - destruct IH as [A B C D E F]. constructor; fields; try assumption.
    cbn [alpha beta gamma]. repeat split; apply or_zero_number.
  - unchanged IH.
  - apply processFrame_consistent; [exact (reachable_sound Hr) | exact IH].
  - apply reset_consistent, IH.
Qed.

End Consistency.


(** * Sessions: one frame after another *)

Module Sessions.

Import FramePipeline Invariant.
Local Open Scope Z_scope.

(** The engine after the frames [fs], each with its time stamp, and the
    calls each frame made. *)
Fixpoint play (cv : Vision) (fs : list (Z * Video)) (e : Engine)
    : list (list Call) * Engine :=
  match fs with
  | [] => ([], e)
  | (now, video) :: rest =>
      let out := processFrame cv now video e in
      let later := play cv rest (snd (fst out)) in
      (snd out :: fst later, snd later)
  end.

Lemma play_reachable (cv : Vision) (fs : list (Z * Video)) (e : Engine) :
  reachable cv e -> reachable cv (snd (play cv fs e)).
Proof.
  revert e. induction fs as [| [now video] rest IH]; intros e H;
    cbn [play snd]; [exact H|].
  apply IH. apply reach_frame, H.
Qed.

(** A session on the scripted collaborator of [Scenarios]: construction,
    [init()], then [k] frames 33 ms apart. *)
Definition demo_frames (k : nat) : list (Z * Video) :=
  map (fun i => (5000 + 33 * Z.of_nat i, Scenarios.demo_video)) (seq 0 k).

Definition demo_session (k : nat) : Engine :=
  snd (play (Scenarios.demo_vision 16) (demo_frames k) Scenarios.fresh_engine).

Lemma demo_session_reachable (k : nat) :
  reachable (Scenarios.demo_vision 16) (demo_session k).
Proof.
  apply play_reachable.
  apply reach_init with (e := constructor (Some (mkCanvas 300 150)) true);
    [apply reach_constructor | reflexivity].
Qed.

End Sessions.

(** * Invariants of the engine *)

Module EngineInvariants.

Import Confidence Invariant Consistency Sessions.
Local Open Scope Z_scope.

(** However an engine is driven (construction, [init()], orientation
    events, [updateSettings], frames that end in any way, [reset()], in
    any order and with any collaborators), its plane confidence is a
    number in [0, 1], so is the confidence of the plane hypothesis it
    holds, and its frame counter is not negative. *)
Theorem engine_confidence_in_unit_interval (cv : Vision) (e : Engine) :
  reachable cv e ->
  conf_ok (planeConfidence e) /\
  (forall p, groundPlane e = Some p -> conf_ok (confidence p)) /\
  0 <= frameCount e.
Proof.
  intros H. destruct (reachable_sound H) as (Hc & Hf & _).
  split; [exact Hc|]. split; [| exact Hf].
  apply (plane_bounded (reachable_consistent H)).
Qed.

Lemma engine_confidence_in_unit_interval_witness :
  conf_ok (planeConfidence (demo_session 6)) /\
  (forall p, groundPlane (demo_session 6) = Some p -> conf_ok (confidence p)) /\
  0 <= frameCount (demo_session 6).
Proof.
  exact (@engine_confidence_in_unit_interval (Scenarios.demo_vision 16)
           (demo_session 6) (demo_session_reachable 6)).
Defined.

(** However an engine is driven, its feature list is the list of the
    current end points of its correspondences, in the same order; the two
    lists have the same length. *)
Theorem features_are_the_current_ends (cv : Vision) (e : Engine) :
  reachable cv e ->
  goodFeatures e = map curr (trackedPoints e) /\
  length (goodFeatures e) = length (trackedPoints e).
Proof.
  intros H. pose proof (features_follow (reachable_consistent H)) as E.
  split; [exact E|]. rewrite E. apply length_map.
Qed.

Lemma features_are_the_current_ends_witness :
  goodFeatures (demo_session 3) = map curr (trackedPoints (demo_session 3)) /\
  length (goodFeatures (demo_session 3))
  = length (trackedPoints (demo_session 3)).
Proof.
  exact (@features_are_the_current_ends (Scenarios.demo_vision 16)
           (demo_session 3) (demo_session_reachable 3)).
Defined.

(** However an engine is driven, a pose it holds has a confidence above
    0.5 and at most 1 and sits at depth 3, and an engine that says it is
    tracking holds a pose. *)
Theorem held_pose_is_confident (cv : Vision) (e : Engine) :
  reachable cv e ->
  (forall q, currentPose e = Some q ->
     (0.5 <? poseConfidence q)%float = true /\
     (poseConfidence q <=? 1)%float = true /\
     vz (position q) = 3%float) /\
  (isTracking e = true -> exists q, currentPose e = Some q).
Proof.
  intros H. pose proof (reachable_consistent H) as [A B C D E F].
  split; [exact C|]. intros Ht.
  destruct (currentPose e) as [q |] eqn:Eq; [exists q; reflexivity|].
  exfalso. exact (D Ht eq_refl).
Qed.

Lemma held_pose_is_confident_witness :
  (forall q, currentPose (demo_session 6) = Some q ->
     (0.5 <? poseConfidence q)%float = true /\
     (poseConfidence q <=? 1)%float = true /\
     vz (position q) = 3%float) /\
  (isTracking (demo_session 6) = true ->
   exists q, currentPose (demo_session 6) = Some q).
Proof.
  exact (@held_pose_is_confident (Scenarios.demo_vision 16)
           (demo_session 6) (demo_session_reachable 6)).
Defined.

(** However an engine is driven, once it has a frame buffer its debug
    canvas, when the page has one, has the width and the height of that
    buffer. *)
Theorem debug_canvas_fits_the_frame_buffer (cv : Vision) (e : Engine) :
  reachable cv e ->
  forall f c, frame e = Some f -> debugCanvas e = Some c ->
    width c = cols f /\ height c = rows f.
Proof.
  intros H. exact (canvas_fits (reachable_consistent H)).
Qed.

Lemma debug_canvas_fits_the_frame_buffer_witness :
  frame (demo_session 1) = Some (mkMat 2 2 Scenarios.demo_pixels) /\
  debugCanvas (demo_session 1) = Some (mkCanvas 2 2) /\
  width (mkCanvas 2 2) = cols (mkMat 2 2 Scenarios.demo_pixels) /\
  height (mkCanvas 2 2) = rows (mkMat 2 2 Scenarios.demo_pixels).
Proof.
  assert (Hf : frame (demo_session 1) = Some (mkMat 2 2 Scenarios.demo_pixels))
    by (vm_compute; reflexivity).
  assert (Hc : debugCanvas (demo_session 1) = Some (mkCanvas 2 2))
    by (vm_compute; reflexivity).
  split; [exact Hf|]. split; [exact Hc|].
  exact (@debug_canvas_fits_the_frame_buffer (Scenarios.demo_vision 16)
           (demo_session 1) (demo_session_reachable 1) _ _ Hf Hc).
Defined.

(** However an engine is driven, the three angles of its orientation
    sample are numbers, never NaN: the listener stores 0 for a reading
    that is missing, NaN or zero. *)
Theorem orientation_sample_holds_numbers (cv : Vision) (e : Engine) :
  reachable cv e ->
  is_nan (alpha (imuData e)) = false /\
  is_nan (beta (imuData e)) = false /\
  is_nan (gamma (imuData e)) = false.
Proof.
  intros H. exact (imu_numbers (reachable_consistent H)).
Qed.

Lemma orientation_sample_holds_numbers_witness :
  let e := on_deviceorientation (Some nan) None (Some 90%float)
             (demo_session 1) in
  imuData e = mkImu 0 0 90 /\
  is_nan (alpha (imuData e)) = false /\
  is_nan (beta (imuData e)) = false /\
  is_nan (gamma (imuData e)) = false.
Proof.
  cbv zeta. split; [reflexivity|].
  exact (@orientation_sample_holds_numbers (Scenarios.demo_vision 16) _
           (reach_orientation (Some nan) None (Some 90%float)
              (demo_session_reachable 1))).
Defined.

End EngineInvariants.


(** * Frames that a collaborator cuts short *)

Module DroppedFrames.

Import FramePipeline EarlyExit Touched.
Local Open Scope Z_scope.

Lemma bind_thrown {A B : Type} (m : M A) (k : A -> M B) (c c' : Ctx) :
  m c = (Thrown, c') -> bind m k c = (Thrown, c').
Proof. intros H. unfold bind. rewrite H. reflexivity. Qed.

Section Dropped.

Variables (cv : Vision) (now : Z) (video : Video) (e : Engine).

Hypothesis Hinit : initialized e = true.
Hypothesis Hwidth : videoWidth video <> 0%nat.
Hypothesis Hheight : videoHeight video <> 0%nat.

(** The [try] block up to the capture. *)
Lemma processFrame_try_prepared (k : M unit) :
  (e0 <- get_this ;;
   when (2000 <? now - lastLogTime e0) (modify (set_lastLogTime now)) ;;
   if (videoWidth video =? 0)%nat || (videoHeight video =? 0)%nat
   then return_result
   else ensure_frame (videoWidth video) (videoHeight video) ;; k)%frame
    (mkCtx e (default_result e) [])
  = k (mkCtx (allocated video (logged now e)) (default_result e) []).
Proof.
  rewrite (@bind_run _ _ get_this _ (mkCtx e (default_result e) [])
             (mkCtx e (default_result e) []) e eq_refl).
  assert (L : when (2000 <? now - lastLogTime e) (modify (set_lastLogTime now))
                (mkCtx e (default_result e) [])
              = (Normal tt, mkCtx (logged now e) (default_result e) [])).
  { unfold when, logged, modify, ret.
    destruct (2000 <? now - lastLogTime e); reflexivity. }
  rewrite (@bind_run _ _ _ _ _ _ _ L).
  apply Nat.eqb_neq in Hwidth, Hheight. rewrite Hwidth, Hheight. cbn [orb].
  rewrite (@bind_run _ _ _ _ _ _ _
             (ensure_frame_run video (mkCtx (logged now e) (default_result e) []))).
  reflexivity.
Qed.

Lemma processFrame_capture_fails :
  capture cv video = None ->
  processFrame cv now video e
  = (default_result e,
     set_isTracking false (allocated video (logged now e)),
     [CallCapture]).
Proof.
  intros Hcap. unfold processFrame. rewrite Hinit. cbn [negb].
  fold (default_result e). unfold processFrame_try.
  rewrite processFrame_try_prepared.
  assert (G : grab_frame cv video
                (mkCtx (allocated video (logged now e)) (default_result e) [])
              = (Thrown,
                 mkCtx (allocated video (logged now e)) (default_result e)
                   [CallCapture])).
  { unfold grab_frame. apply bind_thrown. unfold external. rewrite Hcap.
    reflexivity. }
  rewrite (@bind_thrown _ _ _ _ _ _ G). reflexivity.
Qed.

Lemma processFrame_conversion_fails (pixels : list Z) :
  capture cv video = Some pixels ->
  cvtColor cv (mkMat (videoHeight video) (videoWidth video) pixels) = None ->
  processFrame cv now video e
  = (default_result e,
     set_isTracking false
       (set_frame (Some (mkMat (videoHeight video) (videoWidth video) pixels))
          (allocated video (logged now e))),
     [CallCapture; CallCvtColor]).
Proof.
  intros Hcap Hcvt. unfold processFrame. rewrite Hinit. cbn [negb].
  fold (default_result e). unfold processFrame_try.
  rewrite processFrame_try_prepared.
  destruct (allocated_frame video (logged now e)) as (f & Hf & Hfr & Hfc).
  assert (G : grab_frame cv video
                (mkCtx (allocated video (logged now e)) (default_result e) [])
              = (Thrown,
                 mkCtx (set_frame
                          (Some (mkMat (videoHeight video) (videoWidth video) pixels))
                          (allocated video (logged now e)))
                   (default_result e) [CallCapture; CallCvtColor])).
  { unfold grab_frame, bind, external, deref, modify, get_this.
    rewrite Hcap. cbn [this result calls]. rewrite Hf.
    cbn [this result calls grayFrame set_frame]. rewrite Hfr, Hfc, Hcvt.
    destruct (grayFrame (allocated video (logged now e))); reflexivity. }
  rewrite (@bind_thrown _ _ _ _ _ _ G). reflexivity.
Qed.

Lemma prepared_fields :
  let e1 := allocated video (logged now e) in
  frameCount e1 = frameCount e /\
  grayFrame e1 = grayFrame e /\
  prevGrayFrame e1 = prevGrayFrame e /\
  prevPoints e1 = prevPoints e /\
  trackedPoints e1 = trackedPoints e /\
  goodFeatures e1 = goodFeatures e /\
  groundPlane e1 = groundPlane e /\
  planeConfidence e1 = planeConfidence e /\
  currentPose e1 = currentPose e.
Proof.
  cbv zeta.
  destruct (allocated_touches video (logged now e)) as (f & dc & -> & _).
  unfold logged. destruct (2000 <? now - lastLogTime e);
    repeat split; reflexivity.
Qed.

End Dropped.

(** When the capture of the video frame throws, [processFrame] still
    returns: the result is the default one (no tracking, no features,
    counts 0, no pose), the capture is the only collaborator called, and
    the frame is dropped: frame counter, grayscale frames, point set,
    correspondences, features, plane hypothesis, confidence and pose are
    those before the call.  The engine is marked as not tracking. *)
Theorem capture_failure_drops_the_frame
    (cv : Vision) (now : Z) (video : Video) (e : Engine) :
  initialized e = true ->
  videoWidth video <> 0%nat ->
  videoHeight video <> 0%nat ->
  capture cv video = None ->
  let out := processFrame cv now video e in
  let e' := snd (fst out) in
  fst (fst out) = default_result e /\
  snd out = [CallCapture] /\
  isTracking e' = false /\
  frameCount e' = frameCount e /\
  grayFrame e' = grayFrame e /\
  prevGrayFrame e' = prevGrayFrame e /\
  prevPoints e' = prevPoints e /\
  trackedPoints e' = trackedPoints e /\
  goodFeatures e' = goodFeatures e /\
  groundPlane e' = groundPlane e /\
  planeConfidence e' = planeConfidence e /\
  currentPose e' = currentPose e.
Proof.
  intros Hi Hw Hh Hcap. cbv zeta.
  rewrite (@processFrame_capture_fails cv now video e Hi Hw Hh Hcap).
  cbn [fst snd]. fields.
  split; [reflexivity|]. split; [reflexivity|]. split; [reflexivity|].
  exact (prepared_fields now video e).
Qed.

Lemma capture_failure_drops_the_frame_witness :
  let e := Sessions.demo_session 6 in
  let out := processFrame no_vision 6000 Scenarios.demo_video e in
  fst (fst out) = default_result e /\
  snd out = [CallCapture] /\
  isTracking e = true /\
  isTracking (snd (fst out)) = false /\
  frameCount (snd (fst out)) = 6.
Proof.
  cbv zeta.
  destruct (@capture_failure_drops_the_frame no_vision 6000
              Scenarios.demo_video (Sessions.demo_session 6)
              ltac:(vm_compute; reflexivity) ltac:(discriminate)
              ltac:(discriminate) eq_refl)
    as (Hr & Hc & Ht & Hf & _).
  split; [exact Hr|]. split; [exact Hc|].
  split; [vm_compute; reflexivity|]. split; [exact Ht|].
  rewrite Hf. vm_compute. reflexivity.
Defined.

(** When the grayscale conversion throws, [processFrame] still returns
    the default result after calling the capture and the conversion only;
    the frame buffer holds the captured pixels, and the frame is dropped
    as above: counter, grayscale frames, point set, correspondences,
    features, plane hypothesis, confidence and pose are unchanged. *)
Theorem conversion_failure_drops_the_frame
    (cv : Vision) (now : Z) (video : Video) (e : Engine) (pixels : list Z) :
  initialized e = true ->
  videoWidth video <> 0%nat ->
  videoHeight video <> 0%nat ->
  capture cv video = Some pixels ->
  cvtColor cv (mkMat (videoHeight video) (videoWidth video) pixels) = None ->
  let out := processFrame cv now video e in
  let e' := snd (fst out) in
  fst (fst out) = default_result e /\
  snd out = [CallCapture; CallCvtColor] /\
  frame e' = Some (mkMat (videoHeight video) (videoWidth video) pixels) /\
  isTracking e' = false /\
  frameCount e' = frameCount e /\
  grayFrame e' = grayFrame e /\
  prevGrayFrame e' = prevGrayFrame e /\
  prevPoints e' = prevPoints e /\
  trackedPoints e' = trackedPoints e /\
  goodFeatures e' = goodFeatures e /\
  groundPlane e' = groundPlane e /\
  planeConfidence e' = planeConfidence e /\
  currentPose e' = currentPose e.
Proof.
  intros Hi Hw Hh Hcap Hcvt. cbv zeta.
  rewrite (@processFrame_conversion_fails cv now video e Hi Hw Hh pixels Hcap Hcvt).
  cbn [fst snd]. fields.
  split; [reflexivity|]. split; [reflexivity|]. split; [reflexivity|].
  split; [reflexivity|].
  exact (prepared_fields now video e).
Qed.

(** A collaborator that captures but cannot convert. *)
Definition blind_vision : Vision :=
  mkVision (fun v => Some (picture v)) (fun _ => None) (fun _ _ => None)
           (fun _ _ _ _ => None).

Lemma conversion_failure_drops_the_frame_witness :
  let e := Sessions.demo_session 6 in
  let out := processFrame blind_vision 6000 Scenarios.demo_video e in
  fst (fst out) = default_result e /\
  snd out = [CallCapture; CallCvtColor] /\
  isTracking (snd (fst out)) = false /\
  frameCount (snd (fst out)) = 6.
Proof.
  cbv zeta.
  destruct (@conversion_failure_drops_the_frame blind_vision 6000
              Scenarios.demo_video (Sessions.demo_session 6)
              Scenarios.demo_pixels
              ltac:(vm_compute; reflexivity) ltac:(discriminate)
              ltac:(discriminate) eq_refl eq_refl)
    as (Hr & Hc & _ & Ht & Hf & _).
  split; [exact Hr|]. split; [exact Hc|]. split; [exact Ht|].
  rewrite Hf. vm_compute. reflexivity.
Defined.

End DroppedFrames.


(** * Frames that are processed to the end *)

Module CompletedFrames.

Import Confidence PlaneEstimator MotionTracker FramePipeline Touched PlaneReport.
Local Open Scope Z_scope.

Section Completed.

Variables (cv : Vision) (now : Z) (video : Video).

Lemma refreshed_touches (e : Engine) (pts : Mat float) :
  exists pp, fst (refreshed cv e pts) = set_prevPoints pp e.
Proof.
  unfold refreshed. destruct (needs_refresh e pts).
  - apply detectFeatures_touches.
  - exists (prevPoints e). destruct e; reflexivity.
Qed.

Lemma branch_touches (e : Engine) (prevGray : Mat Z) (pts : Mat float)
    (r : FrameResult) :
  exists np st gf tp pp pc gp cp,
    snd (fst (branch cv e prevGray pts r))
    = set_currentPose cp
        (set_groundPlane gp
           (set_planeConfidence pc
              (set_prevPoints pp
                 (set_trackedPoints tp
                    (set_goodFeatures gf
                       (set_status st (set_nextPoints np e))))))).
Proof.
  unfold branch. destruct (tracking_gate e prevGray pts); cbv zeta; cbn [fst snd].
  - destruct (trackPoints_touches cv e) as (np & st & gf & tp & pp & Et).
    destruct (estimated_touches (fst (trackPoints cv e)) r)
      as (pc & gp & cp & ->).
    rewrite Et. do 8 eexists. reflexivity.
  - exists (nextPoints e), (status e), (goodFeatures e), (trackedPoints e),
      (prevPoints e), (planeConfidence e), (groundPlane e), (currentPose e).
    destruct e; reflexivity.
Qed.

(** What a processed frame leaves in the fields the next frame starts
    from. *)
Lemma frame_run_fields (e : Engine) (pts : Mat float) (prevGray : Mat Z)
    (pixels : list Z) (gray : Mat Z) :
  let e' := snd (fst (frame_run cv now video e pts prevGray pixels gray)) in
  frame e' = Some (mkMat (videoHeight video) (videoWidth video) pixels) /\
  grayFrame e' = Some gray /\
  prevGrayFrame e' = Some gray /\
  frameCount e' = JS.js_incr (frameCount e) /\
  lastLogTime e' = lastLogTime (logged now e).
Proof.
  cbv zeta. unfold frame_run. cbv zeta. cbn [fst snd].
  destruct (branch_touches
              (fst (refreshed cv (begun now video pixels gray e) pts)) prevGray
              (point_set cv (begun now video pixels gray e) pts)
              (mkResult false false 0 0 None (imuData e)))
    as (np & st & gf & tp & pp & pc & gp & cp & ->).
  destruct (refreshed_touches (begun now video pixels gray e) pts) as (pp' & ->).
  fields. unfold begun. cbv zeta. fields.
  destruct (allocated_touches video (logged now e)) as (f & dc & -> & _).
  fields.
  assert (Hl : frameCount (logged now e) = frameCount e).
  { unfold logged. destruct (2000 <? now - lastLogTime e); reflexivity. }
  rewrite Hl. repeat split; reflexivity.
Qed.

(** The engine the tracking decision looks at, on a processed frame. *)
Lemma before_branch (e : Engine) (pts : Mat float) (prevGray : Mat Z)
    (pixels : list Z) (gray : Mat Z) :
  prevPoints e = Some pts ->
  prevGrayFrame e = Some prevGray ->
  let e2 := fst (refreshed cv (begun now video pixels gray e) pts) in
  prevPoints e2 = Some (refreshed_points cv e gray pts) /\
  prevGrayFrame e2 = Some prevGray /\
  grayFrame e2 = Some gray /\
  settings e2 = settings e /\
  trackedPoints e2 = trackedPoints e /\
  goodFeatures e2 = goodFeatures e /\
  groundPlane e2 = groundPlane e /\
  planeConfidence e2 = planeConfidence e.
Proof.
  intros Hp Hpg. cbv zeta.
  destruct (begun_fields now video pixels gray e)
    as (B1 & _ & B3 & B4 & B5 & B6 & B7 & B8 & B9 & _).
  cbv zeta in B1, B3, B4, B5, B6, B7, B8, B9.
  assert (Hp1 : prevPoints (begun now video pixels gray e) = Some pts)
    by congruence.
  destruct (@refreshed_fields cv (begun now video pixels gray e) pts Hp1)
    as (R1 & R2 & R3 & R4 & R5 & R6 & R7 & R8).
  cbv zeta in R1, R2, R3, R4, R5, R6, R7, R8.
  rewrite (point_set_refreshed cv now video pixels gray e pts) in R1.
  repeat split; congruence.
Qed.

(** When the estimation that follows [trackPoints()] reports tracking. *)
Lemma estimated_tracking (e : Engine) (r : FrameResult) :
  r_isTracking r = false ->
  (r_isTracking (fst (estimated e r)) = true <->
   minFeatures (settings e) <= Z.of_nat (length (goodFeatures e)) /\
   (8 <= length (trackedPoints e))%nat /\
   isCoherent (trackedPoints e) = true /\
   (0.5 <? conf_incr (planeConfidence e))%float = true).
Proof.
  intros Hr. unfold estimated. cbv zeta.
  cbn [r_featureCount r_hasFeatures set_r_featureCount set_r_hasFeatures].
  destruct (Z.leb_spec (minFeatures (settings e))
              (Z.of_nat (length (goodFeatures e)))) as [Hmin | Hmin].
  2:{ cbn [fst]. cbn. split; [congruence | intros (H & _); lia]. }
  destruct (Nat.lt_ge_cases (length (trackedPoints e)) 8) as [Hn | Hn].
  { rewrite (estimatePlane_few e Hn). cbn. split; [congruence|].
    intros (_ & H & _). lia. }
  destruct (isCoherent (trackedPoints e)) eqn:Hc.
  - rewrite (estimatePlane_coherent e Hn Hc).
    destruct (0.5 <? conf_incr (planeConfidence e))%float eqn:Hf; cbn.
    + split; [intros _; repeat split; assumption | reflexivity].
    + split; [congruence | intros (_ & _ & _ & H); discriminate].
  - rewrite (estimatePlane_incoherent e Hn Hc). cbn.
    split; [congruence | intros (_ & _ & H & _); discriminate].
Qed.

Lemma estimated_counts (e : Engine) (r : FrameResult) :
  r_featureCount (fst (estimated e r)) = length (goodFeatures e) /\
  r_hasFeatures (fst (estimated e r))
  = (minFeatures (settings e) <=? Z.of_nat (length (goodFeatures e))).
Proof.
  unfold estimated. cbv zeta.
  cbn [r_featureCount r_hasFeatures set_r_featureCount set_r_hasFeatures].
  destruct (minFeatures (settings e) <=? Z.of_nat (length (goodFeatures e)));
    [| split; reflexivity].
  destruct (estimatePlane e) as [[] e1]; split; reflexivity.
Qed.

Lemma estimated_lists (e : Engine) (r : FrameResult) :
  trackedPoints (snd (estimated e r)) = trackedPoints e /\
  goodFeatures (snd (estimated e r)) = goodFeatures e /\
  prevPoints (snd (estimated e r)) = prevPoints e.
Proof.
  destruct (estimated_touches e r) as (pc & gp & cp & ->).
  repeat split; reflexivity.
Qed.

Lemma trackPoints_caught (e : Engine) (pts : Mat float)
    (prevGray gray : Mat Z) :
  prevPoints e = Some pts ->
  rows pts <> 0%nat ->
  prevGrayFrame e = Some prevGray ->
  grayFrame e = Some gray ->
  calcOpticalFlowPyrLK cv prevGray gray pts (settings e) = None ->
  trackPoints cv e
  = (set_trackedPoints []
       (set_goodFeatures []
          (set_status (Some emptyMat) (set_nextPoints (Some emptyMat) e))),
     [CallCalcOpticalFlowPyrLK]).
Proof.
  intros Hp Hr Hg Hc Hf. unfold trackPoints. rewrite Hp.
  apply Nat.eqb_neq in Hr. rewrite Hr.
  cbn [prevGrayFrame grayFrame settings set_status set_nextPoints].
  rewrite Hg, Hc, Hf. reflexivity.
Qed.

(** What [trackPoints()] leaves when the optical flow succeeds. *)
Lemma trackPoints_survivors (e : Engine) (pts : Mat float)
    (prevGray gray : Mat Z) (flow : Flow) :
  prevPoints e = Some pts ->
  rows pts <> 0%nat ->
  prevGrayFrame e = Some prevGray ->
  grayFrame e = Some gray ->
  calcOpticalFlowPyrLK cv prevGray gray pts (settings e) = Some flow ->
  let next := flow_next flow in
  let ks := kept pts next (flow_status flow) in
  trackedPoints (fst (trackPoints cv e)) = map (corr_at pts next) ks /\
  goodFeatures (fst (trackPoints cv e)) = map (feature_at next) ks /\
  exists m, prevPoints (fst (trackPoints cv e)) = Some m /\
            rows m = length ks /\
            data m = flat_map (fun i => [nextX next i; nextY next i]) ks.
Proof.
  intros Hp Hr Hg Hc Hf. cbv zeta.
  rewrite (trackPoints_flow cv e Hp Hr Hg Hc Hf). cbv zeta.
  rewrite filter_points_kept. cbn [fst f_good f_tracked f_newPrev]. fields.
  split; [reflexivity|]. split; [reflexivity|].
  set (ks := kept pts (flow_next flow) (flow_status flow)).
  pose proof (length_coords (flow_next flow) ks) as Hl.
  eexists. split; [reflexivity|].
  destruct (flat_map _ ks) as [| x l] eqn:Ec.
  - cbn in *. split; [lia | reflexivity].
  - unfold next_generation, matFromArray. cbn [rows data].
    rewrite Hl. split; [| reflexivity].
    rewrite Nat.mul_comm. apply Nat.div_mul. lia.
Qed.

(** The result and the engine of a processed frame, from the engine
    [e3] that [trackPoints()] leaves, when the tracking condition holds. *)
Lemma frame_run_tracked (e : Engine) (pts : Mat float) (prevGray : Mat Z)
    (pixels : list Z) (gray : Mat Z) :
  prevPoints e = Some pts ->
  prevGrayFrame e = Some prevGray ->
  can_follow e prevGray (refreshed_points cv e gray pts) ->
  let e2 := fst (refreshed cv (begun now video pixels gray e) pts) in
  let t := trackPoints cv e2 in
  let o := estimated (fst t) (mkResult false false 0 0 None (imuData e)) in
  let out := frame_run cv now video e pts prevGray pixels gray in
  fst (fst out) = fst o /\
  snd (fst out)
  = set_isTracking (r_isTracking (fst o))
      (set_prevGrayFrame (Some gray) (snd o)).
Proof.
  intros Hp Hpg Hcan. cbv zeta.
  destruct (before_branch e pixels gray Hp Hpg) as (_ & _ & _ & Hs & _).
  cbv zeta in Hs.
  apply (@tracking_gate_follow e _ prevGray _ Hs) in Hcan.
  rewrite <- (point_set_refreshed cv now video pixels gray e pts) in Hcan.
  unfold frame_run, branch. cbv zeta. rewrite Hcan. cbn [fst snd].
  split; reflexivity.
Qed.

End Completed.

(** On an engine driven in any way and initialized, a frame that has a
    size and that the capture and the grayscale conversion accept is
    processed to the end: the capture and the conversion are the first two
    calls, the frame counter moves on by one, the frame buffer holds the
    captured pixels at the video's size, and the grayscale image of this
    frame is both the current and the previous grayscale frame the next
    call starts from. *)
Theorem gray_frame_is_handed_over
    (cv : Vision) (now : Z) (video : Video) (e : Engine)
    (pixels : list Z) (gray : Mat Z) :
  Invariant.reachable cv e ->
  initialized e = true ->
  videoWidth video <> 0%nat ->
  videoHeight video <> 0%nat ->
  capture cv video = Some pixels ->
  cvtColor cv (mkMat (videoHeight video) (videoWidth video) pixels)
  = Some gray ->
  let out := processFrame cv now video e in
  let e' := snd (fst out) in
  (exists rest, snd out = CallCapture :: CallCvtColor :: rest) /\
  frameCount e' = JS.js_incr (frameCount e) /\
  frame e' = Some (mkMat (videoHeight video) (videoWidth video) pixels) /\
  grayFrame e' = Some gray /\
  prevGrayFrame e' = Some gray.
Proof.
  intros Hr Hi Hw Hh Hcap Hcvt. cbv zeta.
  destruct (@Invariant.reachable_processed cv video e pixels gray Hr Hi Hw Hh Hcap Hcvt)
    as (_ & pts & prevGray & HP).
  rewrite (processFrame_run now HP).
  destruct (frame_run_fields cv now video e pts prevGray pixels gray)
    as (A & B & C & D & _).
  cbv zeta in A, B, C, D.
  split; [| repeat split; assumption].
  unfold frame_run. cbv zeta. cbn [snd app]. rewrite <- !app_assoc.
  cbn [app]. eexists. reflexivity.
Qed.

Lemma gray_frame_is_handed_over_witness :
  let out := processFrame (Scenarios.demo_vision 16) 6000 Scenarios.demo_video
               (Sessions.demo_session 6) in
  (exists rest, snd out = CallCapture :: CallCvtColor :: rest) /\
  frameCount (snd (fst out)) = 7 /\
  prevGrayFrame (snd (fst out)) = Some Scenarios.demo_gray.
Proof.
  cbv zeta.
  destruct (@gray_frame_is_handed_over (Scenarios.demo_vision 16) 6000
              Scenarios.demo_video (Sessions.demo_session 6)
              Scenarios.demo_pixels Scenarios.demo_gray
              (Sessions.demo_session_reachable 6)
              ltac:(vm_compute; reflexivity) ltac:(discriminate)
              ltac:(discriminate) eq_refl eq_refl)
    as (Hc & Hf & _ & _ & Hp).
  split; [exact Hc|]. split; [| exact Hp].
  rewrite Hf. vm_compute. reflexivity.
Defined.

(** The rows of an optical flow that the filter keeps, as
    correspondences. *)
Definition survivors (pts : Mat float) (flow : Flow) : list Correspondence :=
  map (corr_at pts (flow_next flow))
      (kept pts (flow_next flow) (flow_status flow)).

(** The outcome of a processed frame whose tracking step runs and whose
    optical flow succeeds. *)
Lemma tracked_frame_outcome
    (cv : Vision) (now : Z) (video : Video) (e : Engine)
    (pts : Mat float) (prevGray : Mat Z) (pixels : list Z) (gray : Mat Z)
    (flow : Flow) :
  Processed cv video e pts prevGray pixels gray ->
  0 < minFeatures (settings e) ->
  let pts2 := refreshed_points cv e gray pts in
  can_follow e prevGray pts2 ->
  calcOpticalFlowPyrLK cv prevGray gray pts2 (settings e) = Some flow ->
  let out := processFrame cv now video e in
  let e' := snd (fst out) in
  let r := fst (fst out) in
  let next := flow_next flow in
  let rows_kept := kept pts2 next (flow_status flow) in
  times_called CallCalcOpticalFlowPyrLK (snd out) = 1%nat /\
  trackedPoints e' = survivors pts2 flow /\
  goodFeatures e' = map curr (survivors pts2 flow) /\
  (exists m, prevPoints e' = Some m /\
             rows m = length (survivors pts2 flow) /\
             data m = flat_map (fun i => [nextX next i; nextY next i]) rows_kept) /\
  prevGrayFrame e' = Some gray /\
  r_featureCount r = length (survivors pts2 flow) /\
  r_hasFeatures r
  = (minFeatures (settings e) <=? Z.of_nat (length (survivors pts2 flow))).
Proof.
  intros HP Hmin pts2 Hcan Hflow. cbv zeta.
  rewrite (processFrame_run now HP).
  pose proof HP as [_ _ _ _ _ _ Hpg Hp].
  destruct (@before_branch cv now video e pts prevGray pixels gray Hp Hpg)
    as (E1 & E2 & E3 & E4 & _).
  cbv zeta in E1, E2, E3, E4. fold pts2 in E1.
  destruct (@frame_run_tracked cv now video e pts prevGray pixels gray Hp Hpg Hcan)
    as (Hr & He).
  cbv zeta in Hr, He. rewrite Hr, He.
  set (e2 := fst (refreshed cv (begun now video pixels gray e) pts)) in *.
  assert (Hrows : rows pts2 <> 0%nat).
  { destruct Hcan as [_ Hge]. fold pts2 in Hge. lia. }
  rewrite <- E4 in Hflow.
  destruct (@trackPoints_survivors cv e2 pts2 prevGray gray flow
              E1 Hrows E2 E3 Hflow) as (T1 & T2 & T3).
  set (e3 := fst (trackPoints cv e2)) in *.
  destruct (estimated_lists e3 (mkResult false false 0 0 None (imuData e)))
    as (L1 & L2 & L3).
  destruct (estimated_counts e3 (mkResult false false 0 0 None (imuData e)))
    as (C1 & C2).
  assert (Hs3 : settings e3 = settings e2).
  { unfold e3. destruct (trackPoints_touches cv e2)
      as (np & st & gf & tp & pp & ->). reflexivity. }
  rewrite E4 in Hs3.
  fields. rewrite L1, L2, L3, C1, C2, Hs3, T1, T2.
  unfold survivors. rewrite map_map, !length_map.
  split.
  { rewrite (@frame_run_flows cv now video e pts prevGray pixels gray Hp Hpg Hmin).
    fold e2. rewrite (point_set_refreshed cv now video pixels gray e pts).
    fold pts2.
    assert (Hg : tracking_gate e2 prevGray pts2 = true)
      by (apply (@tracking_gate_follow e e2 prevGray pts2 E4); exact Hcan).
    rewrite Hg. reflexivity. }
  split; [reflexivity|]. split; [reflexivity|].
  split; [exact T3|]. repeat split; reflexivity.
Qed.

(** On a processed frame (with a positive [minFeatures]) whose tracking
    condition holds and whose optical flow succeeds, the flow is computed
    once, from the previous grayscale frame to this frame's, on the point
    set the refresh step left.  The engine then holds the surviving rows
    as correspondences, their current ends as features and as the next
    point set, and this frame's grayscale image as the previous frame; the
    result counts the survivors and has features exactly when they are at
    least [minFeatures]. *)
Theorem tracking_step_follows_the_previous_frame
    (cv : Vision) (now : Z) (video : Video) (e : Engine)
    (pts : Mat float) (prevGray : Mat Z) (pixels : list Z) (gray : Mat Z)
    (flow : Flow) :
  Processed cv video e pts prevGray pixels gray ->
  0 < minFeatures (settings e) ->
  let pts2 := refreshed_points cv e gray pts in
  can_follow e prevGray pts2 ->
  calcOpticalFlowPyrLK cv prevGray gray pts2 (settings e) = Some flow ->
  let out := processFrame cv now video e in
  let e' := snd (fst out) in
  let r := fst (fst out) in
  let next := flow_next flow in
  let rows_kept := kept pts2 next (flow_status flow) in
  times_called CallCalcOpticalFlowPyrLK (snd out) = 1%nat /\
  trackedPoints e' = survivors pts2 flow /\
  goodFeatures e' = map curr (survivors pts2 flow) /\
  (exists m, prevPoints e' = Some m /\
             rows m = length (survivors pts2 flow) /\
             data m = flat_map (fun i => [nextX next i; nextY next i]) rows_kept) /\
  prevGrayFrame e' = Some gray /\
  r_featureCount r = length (survivors pts2 flow) /\
  r_hasFeatures r
  = (minFeatures (settings e) <=? Z.of_nat (length (survivors pts2 flow))).
Proof.
  intros HP Hmin pts2 Hcan Hflow.
  exact (@tracked_frame_outcome cv now video e pts prevGray pixels gray flow
           HP Hmin Hcan Hflow).
Qed.

Lemma tracking_step_follows_the_previous_frame_witness :
  let e := Scenarios.second_engine 16 in
  let out := processFrame (Scenarios.demo_vision 16) 5033 Scenarios.demo_video e in
  times_called CallCalcOpticalFlowPyrLK (snd out) = 1%nat /\
  length (trackedPoints (snd (fst out))) = 16%nat /\
  r_featureCount (fst (fst out)) = 16%nat /\
  r_hasFeatures (fst (fst out)) = true.
Proof.
  cbv zeta.
  destruct (@tracking_step_follows_the_previous_frame
              (Scenarios.demo_vision 16) 5033 Scenarios.demo_video
              (Scenarios.second_engine 16) (Scenarios.demo_corners 16)
              Scenarios.demo_gray Scenarios.demo_pixels Scenarios.demo_gray
              (mkFlow
                 (mkMat 16 1
                    (map (fun x => (x + 1)%float)
                       (data (Scenarios.demo_corners 16))))
                 (mkMat 16 1 (repeat 1 16)))
              Scenarios.second_processed_16 eq_refl
              ltac:(split; [vm_compute; lia | vm_compute; discriminate])
              ltac:(vm_compute; reflexivity))
    as (Hc & Ht & _ & _ & _ & Hn & Hh).
  split; [exact Hc|].
  split; [rewrite Ht; vm_compute; reflexivity|].
  split; [rewrite Hn; vm_compute; reflexivity|].
  rewrite Hh. vm_compute. reflexivity.
Defined.

(** On a processed frame (with a positive [minFeatures]) the result
    reports tracking exactly when all of this holds: a previous grayscale
    frame exists and the point set left by the refresh step has at least
    [minFeatures] points; the optical flow does not throw; the rows it
    keeps are at least [minFeatures] and at least 8; the variance of their
    displacements is below 100; and the confidence raised by 0.15 (capped
    at 1) is above 0.5. *)
Theorem tracking_is_reported_exactly_when
    (cv : Vision) (now : Z) (video : Video) (e : Engine)
    (pts : Mat float) (prevGray : Mat Z) (pixels : list Z) (gray : Mat Z) :
  Processed cv video e pts prevGray pixels gray ->
  0 < minFeatures (settings e) ->
  let pts2 := refreshed_points cv e gray pts in
  let r := fst (fst (processFrame cv now video e)) in
  r_isTracking r = true <->
  can_follow e prevGray pts2 /\
  exists flow,
    calcOpticalFlowPyrLK cv prevGray gray pts2 (settings e) = Some flow /\
    minFeatures (settings e) <= Z.of_nat (length (survivors pts2 flow)) /\
    (8 <= length (survivors pts2 flow))%nat /\
    (displacement_variance (survivors pts2 flow) <? 100)%float = true /\
    (0.5 <? JS.Math_min 1 (planeConfidence e + 0.15))%float = true.
Proof.
  intros HP Hmin pts2 r. subst r.
  rewrite (processFrame_run now HP).
  pose proof HP as [_ _ _ _ _ _ Hpg Hp].
  destruct (@before_branch cv now video e pts prevGray pixels gray Hp Hpg)
    as (E1 & E2 & E3 & E4 & _ & _ & _ & E8).
  cbv zeta in E1, E2, E3, E4, E8. fold pts2 in E1.
  set (e2 := fst (refreshed cv (begun now video pixels gray e) pts)) in *.
  destruct (tracking_gate e2 prevGray pts2) eqn:Hgate.
  2:{ (* the tracking step is skipped *)
      assert (Hno : ~ can_follow e prevGray pts2).
      { intros Hc. apply (@tracking_gate_follow e e2 prevGray pts2 E4) in Hc.
        congruence. }
      unfold e2, pts2 in Hgate.
      rewrite <- (point_set_refreshed cv now video pixels gray e pts) in Hgate.
      destruct (@frame_run_skipped cv now video e pts prevGray pixels gray
                  Hp Hgate) as (Hr & _).
      cbv zeta in Hr. rewrite Hr. cbn.
      split; [discriminate | intros [Hc _]; contradiction]. }
  assert (Hcan : can_follow e prevGray pts2)
    by (apply (@tracking_gate_follow e e2 prevGray pts2 E4); exact Hgate).
  destruct (@frame_run_tracked cv now video e pts prevGray pixels gray
              Hp Hpg Hcan) as (Hr & _).
  cbv zeta in Hr. rewrite Hr. fold e2.
  rewrite (@estimated_tracking (fst (trackPoints cv e2))
             (mkResult false false 0 0 None (imuData e)) eq_refl).
  assert (Hrows : rows pts2 <> 0%nat).
  { destruct Hcan as [_ Hge]. lia. }
  assert (Hs3 : settings (fst (trackPoints cv e2)) = settings e /\
                planeConfidence (fst (trackPoints cv e2)) = planeConfidence e).
  { destruct (trackPoints_touches cv e2) as (np & st & gf & tp & pp & ->).
    fields. split; assumption. }
  destruct Hs3 as [Hs3 Hc3]. rewrite Hs3, Hc3.
  destruct (calcOpticalFlowPyrLK cv prevGray gray pts2 (settings e))
    as [flow |] eqn:Hflow.
  - rewrite <- E4 in Hflow.
    destruct (@trackPoints_survivors cv e2 pts2 prevGray gray flow
                E1 Hrows E2 E3 Hflow) as (T1 & T2 & _).
    cbv zeta in T1, T2. rewrite T1, T2.
    unfold isCoherent, conf_incr, survivors.
    rewrite motionVariance_variance, !length_map.
    split.
    + intros (A & B & C & D). split; [exact Hcan|]. exists flow.
      rewrite !length_map. repeat split; assumption.
    + intros (_ & flow' & Hf' & A & B & C & D).
      injection Hf' as <-. rewrite !length_map in A, B.
      repeat split; assumption.
  - rewrite <- E4 in Hflow.
    rewrite (@trackPoints_caught cv e2 pts2 prevGray gray E1 Hrows E2 E3 Hflow).
    cbn [fst]. fields. cbn [length].
    split; [intros (A & _); cbn in A; lia|].
    intros (_ & flow' & Hf' & _). discriminate.
Qed.

Lemma tracking_is_reported_exactly_when_witness :
  r_isTracking
    (fst (fst (processFrame (Scenarios.demo_vision 16) 5132
                 Scenarios.demo_video (Sessions.demo_session 4))))
  = true.
Proof.
  assert (HP : FramePipeline.Processed (Scenarios.demo_vision 16)
                 Scenarios.demo_video (Sessions.demo_session 4)
                 (mkMat 16 1
                    (map (fun x => (x + 3)%float)
                       (data (Scenarios.demo_corners 16))))
                 Scenarios.demo_gray Scenarios.demo_pixels Scenarios.demo_gray).
  { constructor; try (vm_compute; reflexivity); vm_compute; discriminate. }
  apply (@tracking_is_reported_exactly_when (Scenarios.demo_vision 16) 5132
           Scenarios.demo_video (Sessions.demo_session 4) _ _ _ _ HP eq_refl).
  split; [split; [vm_compute; lia | vm_compute; discriminate]|].
  eexists. split; [vm_compute; reflexivity|].
  split; [vm_compute; discriminate|].
  split; [vm_compute; lia|].
  split; vm_compute; reflexivity.
Defined.

(** On a processed frame (with a positive [minFeatures]) whose tracking
    condition holds, an optical flow that throws is caught: it has been
    called once, the correspondences and the features are emptied, the
    point set stays the one the refresh step left, the plane hypothesis
    and the confidence are not touched, the grayscale frame is handed
    over, and the result reports no tracking, no features, no plane and
    no pose. *)
Theorem flow_failure_clears_the_tracks
    (cv : Vision) (now : Z) (video : Video) (e : Engine)
    (pts : Mat float) (prevGray : Mat Z) (pixels : list Z) (gray : Mat Z) :
  Processed cv video e pts prevGray pixels gray ->
  0 < minFeatures (settings e) ->
  let pts2 := refreshed_points cv e gray pts in
  can_follow e prevGray pts2 ->
  calcOpticalFlowPyrLK cv prevGray gray pts2 (settings e) = None ->
  let out := processFrame cv now video e in
  let e' := snd (fst out) in
  times_called CallCalcOpticalFlowPyrLK (snd out) = 1%nat /\
  fst (fst out) = mkResult false false 0 0 None (imuData e) /\
  isTracking e' = false /\
  trackedPoints e' = [] /\
  goodFeatures e' = [] /\
  prevPoints e' = Some pts2 /\
  groundPlane e' = groundPlane e /\
  planeConfidence e' = planeConfidence e /\
  prevGrayFrame e' = Some gray.
Proof.
  intros HP Hmin pts2 Hcan Hflow. cbv zeta.
  rewrite (processFrame_run now HP).
  pose proof HP as [_ _ _ _ _ _ Hpg Hp].
  destruct (@before_branch cv now video e pts prevGray pixels gray Hp Hpg)
    as (E1 & E2 & E3 & E4 & E5 & E6 & E7 & E8).
  cbv zeta in E1, E2, E3, E4, E5, E6, E7, E8. fold pts2 in E1.
  split.
  { rewrite (@frame_run_flows cv now video e pts prevGray pixels gray Hp Hpg Hmin).
    rewrite (point_set_refreshed cv now video pixels gray e pts). fold pts2.
    apply (@tracking_gate_follow e _ prevGray pts2 E4) in Hcan.
    rewrite Hcan. reflexivity. }
  destruct (@frame_run_tracked cv now video e pts prevGray pixels gray
              Hp Hpg Hcan) as (Hr & He).
  cbv zeta in Hr, He. rewrite Hr, He.
  set (e2 := fst (refreshed cv (begun now video pixels gray e) pts)) in *.
  assert (Hrows : rows pts2 <> 0%nat).
  { destruct Hcan as [_ Hge]. lia. }
  rewrite <- E4 in Hflow.
  rewrite (@trackPoints_caught cv e2 pts2 prevGray gray E1 Hrows E2 E3 Hflow).
  cbn [fst]. unfold estimated. cbv zeta. fields.
  cbn [r_featureCount r_hasFeatures set_r_featureCount set_r_hasFeatures length].
  rewrite E4.
  assert (Hlt : (minFeatures (settings e) <=? Z.of_nat 0) = false)
    by (apply Z.leb_gt; cbn; lia).
  rewrite Hlt. cbn [fst snd r_isTracking]. fields.
  repeat split; try reflexivity; assumption.
Qed.

(** The scripted collaborator with an optical flow that throws. *)
Definition flowless_vision : Vision :=
  {| capture := capture (Scenarios.demo_vision 16);
     cvtColor := cvtColor (Scenarios.demo_vision 16);
     goodFeaturesToTrack := goodFeaturesToTrack (Scenarios.demo_vision 16);
     calcOpticalFlowPyrLK := fun _ _ _ _ => None |}.

Lemma flow_failure_clears_the_tracks_witness :
  let e := Scenarios.second_engine 16 in
  let out := processFrame flowless_vision 5033 Scenarios.demo_video e in
  times_called CallCalcOpticalFlowPyrLK (snd out) = 1%nat /\
  fst (fst out) = mkResult false false 0 0 None (imuData e) /\
  trackedPoints (snd (fst out)) = [] /\
  prevPoints (snd (fst out)) = Some (Scenarios.demo_corners 16).
Proof.
  cbv zeta.
  assert (HP : FramePipeline.Processed flowless_vision Scenarios.demo_video
                 (Scenarios.second_engine 16) (Scenarios.demo_corners 16)
                 Scenarios.demo_gray Scenarios.demo_pixels Scenarios.demo_gray).
  { constructor; try reflexivity; vm_compute; discriminate. }
  destruct (@flow_failure_clears_the_tracks flowless_vision 5033
              Scenarios.demo_video (Scenarios.second_engine 16) _ _ _ _
              HP eq_refl
              ltac:(split; [vm_compute; lia | vm_compute; discriminate])
              eq_refl)
    as (Hc & Hr & _ & Ht & _ & Hp & _).
  split; [exact Hc|]. split; [exact Hr|]. split; [exact Ht|].
  rewrite Hp. vm_compute. reflexivity.
Defined.

End CompletedFrames.


(** * The refresh schedule over a session *)

Module Schedule.

Import FramePipeline Invariant Sessions CompletedFrames.
Local Open Scope Z_scope.

(** A frame that has a size and that the capture and the grayscale
    conversion accept. *)
Definition good_frame (cv : Vision) (f : Z * Video) : Prop :=
  videoWidth (snd f) <> 0%nat /\
  videoHeight (snd f) <> 0%nat /\
  exists pixels gray,
    capture cv (snd f) = Some pixels /\
    cvtColor cv (mkMat (videoHeight (snd f)) (videoWidth (snd f)) pixels)
    = Some gray.

(** One good frame on a reachable, initialized engine. *)
Lemma good_frame_step (cv : Vision) (now : Z) (video : Video) (e : Engine) :
  reachable cv e ->
  initialized e = true ->
  good_frame cv (now, video) ->
  let out := processFrame cv now video e in
  frameCount (snd (fst out)) = JS.js_incr (frameCount e) /\
  settings (snd (fst out)) = settings e /\
  initialized (snd (fst out)) = true /\
  ((featureRefreshInterval (settings e) | JS.js_incr (frameCount e)) ->
   times_called CallGoodFeaturesToTrack (snd out) = 1%nat).
Proof.
  intros Hr Hi (Hw & Hh & pixels & gray & Hcap & Hcvt). cbn [snd] in *.
  cbv zeta.
  destruct (Configuration.processFrame_same_configuration cv now video e)
    as (Hs & _ & Hi' & _).
  cbv zeta in Hs, Hi'.
  destruct (@reachable_processed cv video e pixels gray Hr Hi Hw Hh Hcap Hcvt)
    as (Hfc & pts & prevGray & HP).
  split.
  { rewrite (processFrame_run now HP).
    apply (frame_run_fields cv now video e pts prevGray pixels gray). }
  split; [exact Hs|]. split; [congruence|].
  intros Hdiv. rewrite (processFrame_run now HP), frame_run_detections.
  assert (Hdue : needs_refresh (begun now video pixels gray e) pts = true).
  { apply (@needs_refresh_due now video pixels gray e pts Hfc).
    right. exact Hdiv. }
  rewrite Hdue. reflexivity.
Qed.

Lemma play_refreshes (cv : Vision) (fs : list (Z * Video)) :
  forall (e : Engine) (k : Z),
    reachable cv e ->
    initialized e = true ->
    Forall (good_frame cv) fs ->
    frameCount e + Z.of_nat (length fs) <= 2 ^ 53 ->
    1 <= k <= Z.of_nat (length fs) ->
    (featureRefreshInterval (settings e) | frameCount e + k) ->
    Exists (fun l => times_called CallGoodFeaturesToTrack l = 1%nat)
           (fst (play cv fs e)).
Proof.
  induction fs as [| [now video] rest IH]; intros e k Hr Hi Hgood Hbig Hk Hdiv.
  { cbn [length] in Hk. lia. }
  cbn [play fst]. cbn [length] in Hbig, Hk.
  inversion Hgood as [| f fs' Hf Hrest]; subst.
  destruct (@good_frame_step cv now video e Hr Hi Hf) as (Hfc & Hs & Hi' & Hdet).
  cbv zeta in Hfc, Hs, Hi', Hdet.
  assert (Hnn : 0 <= frameCount e) by (apply (reachable_sound Hr)).
  assert (Hincr : JS.js_incr (frameCount e) = frameCount e + 1).
  { unfold JS.js_incr.
    destruct (Z.ltb_spec (frameCount e) (2 ^ 53)); [reflexivity | lia]. }
  destruct (Z.eq_dec k 1) as [-> | Hk1].
  - apply Exists_cons_hd. apply Hdet. rewrite Hincr. exact Hdiv.
  - apply Exists_cons_tl.
    apply (IH _ (k - 1)).
    + apply reach_frame, Hr.
    + exact Hi'.
    + exact Hrest.
    + rewrite Hfc, Hincr. lia.
    + lia.
    + rewrite Hs, Hfc, Hincr.
      replace (frameCount e + 1 + (k - 1)) with (frameCount e + k) by lia.
      exact Hdiv.
Qed.

(** Over any run of as many good frames as the refresh interval says
    (15 by default), on an engine driven in any way and initialized, the
    corner detector is called on at least one of the frames: the engine
    never goes a whole interval without re-detecting. *)
Theorem detector_runs_within_every_interval
    (cv : Vision) (fs : list (Z * Video)) (e : Engine) :
  reachable cv e ->
  initialized e = true ->
  Forall (good_frame cv) fs ->
  0 < featureRefreshInterval (settings e) ->
  Z.of_nat (length fs) = featureRefreshInterval (settings e) ->
  frameCount e + featureRefreshInterval (settings e) <= 2 ^ 53 ->
  Exists (fun calls => times_called CallGoodFeaturesToTrack calls = 1%nat)
         (fst (play cv fs e)).
Proof.
  intros Hr Hi Hgood Hn Hlen Hbig.
  set (n := featureRefreshInterval (settings e)) in *.
  apply (@play_refreshes cv fs e (n - frameCount e mod n) Hr Hi Hgood).
  - lia.
  - pose proof (Z.mod_pos_bound (frameCount e) n Hn). lia.
  - exists (frameCount e / n + 1).
    pose proof (Z.div_mod (frameCount e) n ltac:(lia)). lia.
Qed.

Lemma demo_frames_good (k : nat) :
  Forall (good_frame (Scenarios.demo_vision 16)) (demo_frames k).
Proof.
  unfold demo_frames. apply Forall_map, Forall_forall. intros i _.
  split; [discriminate|]. split; [discriminate|].
  do 2 eexists. split; reflexivity.
Qed.

Lemma detector_runs_within_every_interval_witness :
  Exists (fun calls => times_called CallGoodFeaturesToTrack calls = 1%nat)
         (fst (play (Scenarios.demo_vision 16) (demo_frames 15)
                 (demo_session 3))).
Proof.
  apply (@detector_runs_within_every_interval (Scenarios.demo_vision 16)
           (demo_frames 15) (demo_session 3) (demo_session_reachable 3)).
  - vm_compute. reflexivity.
  - apply demo_frames_good.
  - vm_compute. reflexivity.
  - vm_compute. reflexivity.
  - vm_compute. discriminate.
Defined.

End Schedule.


(** * Starting over *)

Module Restart.

Import FramePipeline Invariant CompletedFrames.
Local Open Scope Z_scope.

Lemma reset_keeps (e : Engine) :
  settings (reset e) = settings e /\
  initialized (reset e) = initialized e /\
  imuData (reset e) = imuData e /\
  grayFrame (reset e) = grayFrame e.
Proof.
  unfold reset.
  destruct e as [fr gr pg pp np st tr po tp gf gp pc imu se fc ini dc dx ll].
  destruct pp as [[[| rp] cp dp] |], pg as [[[| rg] cg dg] |];
    cbv; repeat split; reflexivity.
Qed.

(** The first processed frame after [reset()], on an engine driven in any
    way before (with a positive [minFeatures]): the corner detector is
    called once and the optical flow not at all, whatever was tracked
    before the reset; the result reports no tracking, no plane, no pose
    and as many features as the detector found (none when it threw); the
    engine holds no correspondences and no plane, its confidence is 0 and
    its frame counter 1. *)
Theorem first_frame_after_reset_only_detects
    (cv : Vision) (now : Z) (video : Video) (e : Engine)
    (pixels : list Z) (gray : Mat Z) :
  reachable cv e ->
  initialized e = true ->
  videoWidth video <> 0%nat ->
  videoHeight video <> 0%nat ->
  capture cv video = Some pixels ->
  cvtColor cv (mkMat (videoHeight video) (videoWidth video) pixels)
  = Some gray ->
  0 < minFeatures (settings e) ->
  let out := processFrame cv now video (reset e) in
  let r := fst (fst out) in
  let e' := snd (fst out) in
  let found :=
    match goodFeaturesToTrack cv gray (settings e) with
    | Some corners => rows corners
    | None => 0%nat
    end in
  times_called CallGoodFeaturesToTrack (snd out) = 1%nat /\
  times_called CallCalcOpticalFlowPyrLK (snd out) = 0%nat /\
  r_isTracking r = false /\
  r_planeCount r = 0%nat /\
  r_pose r = None /\
  r_featureCount r = found /\
  r_hasFeatures r = (0 <? found)%nat /\
  trackedPoints e' = [] /\
  groundPlane e' = None /\
  planeConfidence e' = 0%float /\
  frameCount e' = 1.
Proof.
  intros Hr Hi Hw Hh Hcap Hcvt Hmin. cbv zeta.
  destruct (reset_keeps e) as (Ks & Ki & _).
  destruct (Lifecycle.reset_cleared e)
    as (C1 & C2 & C3 & C4 & C5 & C6 & C7 & C8 & C9).
  assert (Hi' : initialized (reset e) = true) by (rewrite Ki; exact Hi).
  destruct (@reachable_processed cv video (reset e) pixels gray
              (reach_reset Hr) Hi' Hw Hh Hcap Hcvt)
    as (_ & pts & prevGray & HP).
  rewrite (processFrame_run now HP).
  pose proof HP as [_ _ _ _ _ _ Hpg Hp].
  rewrite Hp in C8. rewrite Hpg in C9.
  destruct (@before_branch cv now video (reset e) pts prevGray pixels gray
              Hp Hpg) as (E1 & _ & _ & E4 & E5 & _ & E7 & E8).
  cbv zeta in E1, E4, E5, E7, E8.
  assert (Hgate :
    tracking_gate (fst (refreshed cv (begun now video pixels gray (reset e)) pts))
      prevGray (point_set cv (begun now video pixels gray (reset e)) pts) = false).
  { unfold tracking_gate. rewrite C9. reflexivity. }
  assert (Hdue : needs_refresh (begun now video pixels gray (reset e)) pts = true).
  { unfold needs_refresh.
    destruct (begun_fields now video pixels gray (reset e))
      as (_ & _ & _ & _ & -> & _).
    rewrite C8, Ks.
    assert ((Z.of_nat 0 <? minFeatures (settings e)) = true) as ->
      by (apply Z.ltb_lt; cbn; lia).
    reflexivity. }
  split; [rewrite frame_run_detections, Hdue; reflexivity|].
  split.
  { rewrite (@frame_run_flows cv now video (reset e) pts prevGray pixels gray
               Hp Hpg) by (rewrite Ks; exact Hmin).
    rewrite Hgate. reflexivity. }
  destruct (@frame_run_skipped cv now video (reset e) pts prevGray pixels gray
              Hp Hgate) as (Hres & Ht & _).
  cbv zeta in Hres, Ht.
  assert (Hfound : rows (refreshed_points cv (reset e) gray pts)
                   = match goodFeaturesToTrack cv gray (settings e) with
                     | Some corners => rows corners
                     | None => 0%nat
                     end).
  { unfold refreshed_points. rewrite C8, Ks.
    assert ((Z.of_nat 0 <? minFeatures (settings e)) = true) as ->
      by (apply Z.ltb_lt; cbn; lia).
    cbn [orb].
    destruct (goodFeaturesToTrack cv gray (settings e)); reflexivity. }
  rewrite Hres, Ht, C2. unfold reported. cbv zeta.
  cbn [r_isTracking r_featureCount r_hasFeatures r_planeCount r_pose
       set_r_featureCount set_r_hasFeatures].
  rewrite Hfound.
  do 6 (split; [reflexivity|]).
  destruct (frame_run_fields cv now video (reset e) pts prevGray pixels gray)
    as (_ & _ & _ & F4 & _).
  cbv zeta in F4. rewrite F4, C7.
  unfold frame_run, branch. cbv zeta. rewrite Hgate. cbn [fst snd].
  Touched.fields. rewrite E7, E8, C5, C6.
  repeat split; reflexivity.
Qed.

Lemma first_frame_after_reset_only_detects_witness :
  let out := processFrame (Scenarios.demo_vision 16) 6000 Scenarios.demo_video
               (reset (Sessions.demo_session 6)) in
  isTracking (Sessions.demo_session 6) = true /\
  times_called CallGoodFeaturesToTrack (snd out) = 1%nat /\
  times_called CallCalcOpticalFlowPyrLK (snd out) = 0%nat /\
  r_isTracking (fst (fst out)) = false /\
  r_featureCount (fst (fst out)) = 16%nat /\
  frameCount (snd (fst out)) = 1.
Proof.
  cbv zeta. split; [vm_compute; reflexivity|].
  destruct (@first_frame_after_reset_only_detects (Scenarios.demo_vision 16)
              6000 Scenarios.demo_video (Sessions.demo_session 6)
              Scenarios.demo_pixels Scenarios.demo_gray
              (Sessions.demo_session_reachable 6)
              ltac:(vm_compute; reflexivity) ltac:(discriminate)
              ltac:(discriminate) eq_refl eq_refl
              ltac:(vm_compute; reflexivity))
    as (A & B & C & _ & _ & D & _ & _ & _ & _ & E).
  repeat split; assumption.
Defined.

End Restart.


(** * Warming up *)

Module WarmUp.

Import Confidence PlaneEstimator PlaneReport.
Local Open Scope float_scope.

(** What [estimatePlane()] answers over a run of frames, each bringing
    its correspondences and features. *)
Fixpoint report_history
    (frames : list (list Correspondence * list Point)) (e : Engine)
    : list bool :=
  match frames with
  | [] => []
  | (tracked, feats) :: rest =>
      let o := estimatePlane (set_goodFeatures feats (set_trackedPoints tracked e)) in
      fst o :: report_history rest (snd o)
  end.

(** A frame with at least 8 correspondences that move coherently. *)
Definition coherent_frame (f : list Correspondence * list Point) : Prop :=
  (8 <= length (fst f))%nat /\ isCoherent (fst f) = true.

(** The confidence after [k] coherent frames in a row, from 0. *)
Fixpoint raised (k : nat) : float :=
  match k with
  | O => 0
  | S k' => conf_incr (raised k')
  end.

Lemma raised_saturates (j : nat) : raised (7 + j) = 1.
Proof.
  induction j as [| j IH].
  - vm_compute. reflexivity.
  - replace (7 + S j)%nat with (S (7 + j)) by lia.
    cbn [raised]. rewrite IH. vm_compute. reflexivity.
Qed.

Lemma raised_reports (k : nat) : (0.5 <? raised (S k)) = (3 <=? k)%nat.
Proof.
  destruct (Nat.lt_ge_cases k 7) as [Hk | Hk].
  - do 7 (destruct k as [| k]; [vm_compute; reflexivity|]). lia.
  - replace (S k) with (7 + (S k - 7))%nat by lia.
    rewrite raised_saturates.
    destruct (Nat.leb_spec 3 k); [vm_compute; reflexivity | lia].
Qed.

Lemma coherent_run (frames : list (list Correspondence * list Point)) :
  forall (e : Engine) (k : nat),
    planeConfidence e = raised k ->
    Forall coherent_frame frames ->
    report_history frames e
    = map (fun i => (3 <=? k + i)%nat) (seq 0 (length frames)) /\
    map planeConfidence (estimate_history frames e)
    = map (fun i => raised (S (k + i))) (seq 0 (length frames)).
Proof.
  induction frames as [| [tracked feats] rest IH]; intros e k Hc Hall.
  { split; reflexivity. }
  inversion Hall as [| f fs [Hn Hcoh] Hrest]; subst. cbn [fst] in Hn, Hcoh.
  cbn [report_history estimate_history length seq map].
  rewrite (@estimatePlane_coherent
             (set_goodFeatures feats (set_trackedPoints tracked e)) Hn Hcoh).
  cbn [fst snd]. Touched.fields. rewrite Hc.
  destruct (IH (set_groundPlane
                  (Some
                     {| center := centroid feats;
                        confidence := conf_incr (raised k);
                        motion := mean_displacement tracked |})
                  (set_planeConfidence (conf_incr (raised k))
                     (set_goodFeatures feats (set_trackedPoints tracked e))))
              (S k) eq_refl Hrest) as [IH1 IH2].
  rewrite IH1, IH2, <- !seq_shift, !map_map.
  change (conf_incr (raised k)) with (raised (S k)).
  rewrite raised_reports, !Nat.add_0_r.
  split; (f_equal; apply map_ext; intros i);
    [replace (S k + i)%nat with (k + S i)%nat by lia
    | replace (S k + i)%nat with (k + S i)%nat by lia]; reflexivity.
Qed.

(** From a confidence of 0 (a new engine, or one after [reset()]), over
    any run of frames that each bring at least 8 coherently moving
    correspondences, [estimatePlane()] answers false on the first three
    frames and true on every later one, and from the seventh frame on the
    confidence is exactly 1. *)
Theorem plane_reported_from_the_fourth_coherent_frame
    (frames : list (list Correspondence * list Point)) (e : Engine) :
  planeConfidence e = 0 ->
  Forall coherent_frame frames ->
  report_history frames e
  = map (fun i => (3 <=? i)%nat) (seq 0 (length frames)) /\
  (forall i e',
     nth_error (estimate_history frames e) i = Some e' ->
     (6 <= i)%nat -> planeConfidence e' = 1).
Proof.
  intros Hc Hall.
  destruct (@coherent_run frames e 0%nat Hc Hall) as [H1 H2].
  split; [exact H1|].
  intros i e' Hi Hge.
  assert (Hm : nth_error (map planeConfidence (estimate_history frames e)) i
               = Some (planeConfidence e'))
    by (rewrite nth_error_map, Hi; reflexivity).
  rewrite H2, nth_error_map in Hm.
  destruct (nth_error (seq 0 (length frames)) i) as [j |] eqn:Ej;
    [| discriminate].
  assert (Hlt : (i < length (seq 0 (length frames)))%nat)
    by (apply nth_error_Some; congruence).
  rewrite length_seq in Hlt.
  rewrite (nth_error_nth' _ 0%nat) in Ej by (rewrite length_seq; exact Hlt).
  rewrite seq_nth in Ej by exact Hlt. injection Ej as <-.
  cbn [option_map] in Hm. injection Hm as <-.
  change (raised (S i) = 1).
  replace (S i) with (7 + (i - 6))%nat by lia.
  apply raised_saturates.
Qed.

Lemma plane_reported_from_the_fourth_coherent_frame_witness :
  report_history (repeat (steady_tracked, steady_features) 9)
    (constructor None false)
  = [false; false; false; true; true; true; true; true; true].
Proof.
  refine (proj1 (@plane_reported_from_the_fourth_coherent_frame
                   (repeat (steady_tracked, steady_features) 9)
                   (constructor None false) eq_refl _)).
  apply Forall_forall. intros f Hf. apply repeat_spec in Hf. subst f.
  split; [vm_compute; lia | vm_compute; reflexivity].
Defined.

End WarmUp.


(** * The order of the calls *)

Module Protocol.

Import FramePipeline FrameLogic.
Local Open Scope Z_scope.

(** A call that is made once or not at all. *)
Definition optional (c : Call) (l : list Call) : Prop := l = [] \/ l = [c].

(** The calls of a frame that got past the grayscale conversion: the
    detector, the optical flow and the overlay, each at most once, in this
    order. *)
Definition converted (d f w : list Call) (l : list Call) : Prop :=
  l = [CallCapture; CallCvtColor] ++ d ++ f ++ w /\
  optional CallGoodFeaturesToTrack d /\
  optional CallCalcOpticalFlowPyrLK f.

(** The logs a frame can leave when it ends before the overlay. *)
Definition cut_short (c : Ctx) : Prop :=
  calls c = [] \/ calls c = [CallCapture] \/
  exists d f, converted d f [] (calls c).

(** The logs a frame can leave. *)
Definition in_order (r : FrameResult) (l : list Call) : Prop :=
  l = [] \/ l = [CallCapture] \/
  exists d f w,
    converted d f w l /\ optional (CallDrawDebug (status_label r)) w.

Lemma converted_cut_short (c : Ctx) (d f : list Call) :
  converted d f [] (calls c) -> cut_short c.
Proof. intros H. right. right. exists d, f. exact H. Qed.

Section Order.

Variables (cv : Vision) (now : Z) (video : Video).

Lemma processFrame_try_in_order :
  triple cut_short (fun c => calls c = []) (fun c => calls c = [])
    (processFrame_try cv now video)
    (fun _ c => in_order (result c) (calls c)).
Proof.
  unfold processFrame_try.
  apply triple_bind with (Q := fun _ c => calls c = []).
  { intros c Hc. exact Hc. }
  intros e.
  apply triple_bind with (Q := fun _ c => calls c = []).
  { apply triple_when; intros _.
    - apply triple_modify. intros c Hc. exact Hc.
    - intros c Hc. exact Hc. }
  intros _.
  destruct ((videoWidth video =? 0)%nat || (videoHeight video =? 0)%nat).
  { apply triple_return_result. intros c Hc. exact Hc. }
  apply triple_bind with (Q := fun _ c => calls c = []).
  { apply triple_run
      with (a := fun _ => tt)
           (next := fun c => mkCtx (allocated video (this c)) (result c) (calls c)).
    - intros c _. apply ensure_frame_run.
    - intros c Hc. exact Hc. }
  intros _.
  (* capture and conversion *)
  apply triple_bind with (Q := fun _ c => converted [] [] [] (calls c)).
  { unfold grab_frame.
    apply triple_bind with (Q := fun _ c => calls c = [CallCapture]).
    { apply triple_external; intros c; intros; cbn [calls].
      - rewrite H. reflexivity.
      - right. left. cbn [calls]. rewrite H. reflexivity. }
    intros pixels.
    apply triple_bind with (Q := fun _ c => calls c = [CallCapture]).
    { apply triple_deref; intros c; intros; [assumption|].
      right. left. assumption. }
    intros f.
    apply triple_bind with (Q := fun _ c => calls c = [CallCapture]).
    { apply triple_modify. intros c Hc. exact Hc. }
    intros _.
    apply triple_bind with (Q := fun _ c => calls c = [CallCapture]).
    { intros c Hc. exact Hc. }
    intros e1.
    apply triple_bind with (Q := fun _ c => converted [] [] [] (calls c)).
    { apply triple_external; intros c; intros.
      - cbn [calls]. rewrite H. repeat split; left; reflexivity.
      - apply converted_cut_short with (d := []) (f := []).
        cbn [calls]. rewrite H. repeat split; left; reflexivity. }
    intros gray. apply triple_modify. intros c Hc. exact Hc. }
  intros _.
  apply triple_bind with (Q := fun _ c => converted [] [] [] (calls c)).
  { apply triple_modify. intros c Hc. exact Hc. }
  intros _.
  (* the refresh *)
  apply triple_bind with (Q := fun _ c => exists d, converted d [] [] (calls c)).
  { unfold refresh_features.
    apply triple_bind with (Q := fun _ c => converted [] [] [] (calls c)).
    { apply triple_deref; intros c; intros; [assumption|].
      exact (converted_cut_short c H). }
    intros pts.
    apply triple_bind with (Q := fun _ c => converted [] [] [] (calls c)).
    { intros c Hc. exact Hc. }
    intros e1.
    apply triple_when; intros _.
    - apply triple_method. intros c (Hc & _). cbn [calls].
      exists (snd (detectFeatures cv (this c))).
      split; [rewrite Hc; cbn [app]; rewrite app_nil_r; reflexivity|].
      split; [| left; reflexivity].
      destruct (detectFeatures_run cv (this c)) as [_ ->].
      destruct (grayFrame (this c)); [right | left]; reflexivity.
    - intros c Hc. exists []. exact Hc. }
  intros _.
  apply triple_bind with (Q := fun _ c => exists d, converted d [] [] (calls c)).
  { unfold can_track.
    apply triple_bind with (Q := fun _ c => exists d, converted d [] [] (calls c)).
    { apply triple_deref; intros c; intros; [assumption|].
      destruct H as [d H]. exact (converted_cut_short c H). }
    intros prevGray.
    destruct (0 <? rows prevGray)%nat.
    - apply triple_bind
        with (Q := fun _ c => exists d, converted d [] [] (calls c)).
      { apply triple_deref; intros c; intros; [assumption|].
        destruct H as [d H]. exact (converted_cut_short c H). }
      intros pts.
      apply triple_bind
        with (Q := fun _ c => exists d, converted d [] [] (calls c)).
      { intros c Hc. exact Hc. }
      intros e1. apply triple_ret. auto.
    - apply triple_ret. auto. }
  intros tracking.
  (* the branch *)
  apply triple_bind
    with (Q := fun _ c => exists d f, converted d f [] (calls c)).
  { destruct tracking.
    - apply triple_run
        with (a := fun _ => tt)
             (next := fun c =>
                let t := trackPoints cv (this c) in
                let o := estimated (fst t) (result c) in
                mkCtx (snd o) (fst o) (calls c ++ snd t)).
      + intros c _. apply track_and_estimate_run.
      + intros c (d & Hc & Hd & _). cbv zeta. cbn [calls].
        exists d, (snd (trackPoints cv (this c))).
        split; [rewrite Hc, !app_nil_r; reflexivity|].
        split; [exact Hd|].
        destruct (trackPoints_calls cv (this c)) as [-> | ->];
          [left | right]; reflexivity.
    - unfold report_detected.
      apply triple_bind
        with (Q := fun _ c => exists d, converted d [] [] (calls c)).
      { apply triple_deref; intros c; intros; [assumption|].
        destruct H as [d H]. exact (converted_cut_short c H). }
      intros pts.
      apply triple_bind
        with (Q := fun _ c => exists d, converted d [] [] (calls c)).
      { apply triple_modify_result. intros c Hc. exact Hc. }
      intros _.
      apply triple_bind
        with (Q := fun _ c => exists d, converted d [] [] (calls c)).
      { intros c Hc. exact Hc. }
      intros r.
      apply triple_modify_result. intros c (d & Hc). cbn [calls].
      exists d, []. exact Hc. }
  intros _.
  (* the hand-over and the overlay *)
  apply triple_bind
    with (Q := fun _ c => exists d f, converted d f [] (calls c)).
  { apply triple_deref; intros c; intros; [assumption|].
    destruct H as (d & f & H). exact (converted_cut_short c H). }
  intros gray.
  apply triple_bind
    with (Q := fun _ c => exists d f, converted d f [] (calls c)).
  { apply triple_deref; intros c; intros; [assumption|].
    destruct H as (d & f & H). exact (converted_cut_short c H). }
  intros _.
  apply triple_bind
    with (Q := fun _ c => exists d f, converted d f [] (calls c)).
  { apply triple_modify. intros c Hc. exact Hc. }
  intros _.
  apply triple_bind
    with (Q := fun _ c => exists d f, converted d f [] (calls c)).
  { intros c Hc. exact Hc. }
  intros e1.
  apply triple_bind
    with (Q := fun r c =>
                 (exists d f, converted d f [] (calls c)) /\ r = result c).
  { apply triple_get_result. }
  intros r.
  apply triple_log. intros c ((d & f & Hc & Hd & Hf) & ->). cbn [calls result].
  right. right. exists d, f, (drawDebug e1 (result c)).
  split.
  - split; [rewrite Hc, !app_nil_r, <- !app_assoc; reflexivity|].
    split; assumption.
  - unfold drawDebug. destruct (debugCanvas e1); [| left; reflexivity].
    destruct (debugCtx e1); [right | left]; reflexivity.
Qed.

End Order.

(** Whatever the frame, the collaborators and the way the frame ends,
    the calls [processFrame] makes are, in this order: the capture, the
    grayscale conversion, the corner detector, the optical flow, the debug
    overlay; each at most once, none before the ones ahead of it that are
    not optional (nothing is called before the capture, and nothing after
    it before the conversion), and the overlay, when drawn, shows the
    status of the result that is returned. *)
Theorem calls_follow_the_pipeline
    (cv : Vision) (now : Z) (video : Video) (e : Engine) :
  let out := processFrame cv now video e in
  snd out = [] \/
  snd out = [CallCapture] \/
  exists d f w,
    snd out = [CallCapture; CallCvtColor] ++ d ++ f ++ w /\
    (d = [] \/ d = [CallGoodFeaturesToTrack]) /\
    (f = [] \/ f = [CallCalcOpticalFlowPyrLK]) /\
    (w = [] \/ w = [CallDrawDebug (status_label (fst (fst out)))]).
Proof.
  cbv zeta. unfold processFrame.
  destruct (initialized e); cbn [negb]; [| left; reflexivity].
  set (c0 := mkCtx e (mkResult false false 0 0 None (imuData e)) []).
  pose proof (@processFrame_try_in_order cv now video c0 eq_refl) as H.
  destruct (processFrame_try cv now video c0) as [[[] | |] c];
    cbn [fst snd].
  - destruct H as [H | [H | (d & f & w & (Hc & Hd & Hf) & Hw)]];
      [left; exact H | right; left; exact H |].
    right. right. exists d, f, w. repeat split; assumption.
  - left. exact H.
  - destruct H as [H | [H | (d & f & Hc & Hd & Hf)]];
      [left; exact H | right; left; exact H |].
    right. right. exists d, f, []. repeat split; try assumption.
    left. reflexivity.
Qed.

End Protocol.


(** * The filter loop and the ends of the arrays *)

Module FilterBounds.

Import FloatClass MotionTracker.
Local Open Scope float_scope.

Lemma get32F_stored (m : Mat float) (k : nat) :
  is_finite (get32F m k) = true -> (k < length (data m))%nat.
Proof.
  intros H. unfold get32F in H.
  destruct (Nat.lt_ge_cases k (length (data m))) as [Hk | Hk]; [exact Hk|].
  rewrite (nth_overflow _ _ Hk) in H. vm_compute in H. discriminate.
Qed.

Lemma byte_is_one_stored (m : Mat Z) (i : nat) :
  byte_is_one m i = true -> (i < length (data m))%nat.
Proof.
  unfold byte_is_one. intros H. apply nth_error_Some.
  destruct (nth_error (data m) i); [discriminate | discriminate].
Qed.

Lemma kept_stored (pts next : Mat float) (st : Mat Z) (i : nat) :
  In i (kept pts next st) ->
  (i < rows st)%nat /\
  (i < length (data st))%nat /\
  (2 * i + 1 < length (data pts))%nat /\
  (2 * i + 1 < length (data next))%nat.
Proof.
  intros H. apply kept_iff in H. destruct H as [Hr H].
  apply retained_iff in H. destruct H as (Hs & _ & Hpy & _ & Hny & _).
  split; [exact Hr|]. split; [exact (byte_is_one_stored _ _ Hs)|].
  unfold prevY in Hpy. unfold nextY in Hny.
  apply get32F_stored in Hpy, Hny. lia.
Qed.

Lemma kept_below (pts next : Mat float) (st : Mat Z) (n : nat) :
  (forall i, In i (kept pts next st) -> (i < n)%nat) ->
  (length (kept pts next st) <= n)%nat.
Proof.
  intros H.
  assert (Hnd : NoDup (kept pts next st)).
  { unfold kept. apply NoDup_filter, seq_NoDup. }
  assert (Hincl : incl (kept pts next st) (seq 0 n)).
  { intros i Hi. apply in_seq. specialize (H i Hi). lia. }
  pose proof (NoDup_incl_length Hnd Hincl) as Hl.
  rewrite length_seq in Hl. exact Hl.
Qed.

(** The filter loop of [trackPoints()] never keeps a row it had to read
    past the end of an array for: every kept row has its status byte and
    its previous and current x and y stored in the arrays the optical flow
    filled.  So the loop keeps no more rows than the status matrix has,
    than it has bytes, and than either point array has coordinate pairs;
    the three lists it fills have the same length, and the next point set
    has two numbers per kept row. *)
Theorem filter_keeps_only_stored_rows (pts next : Mat float) (st : Mat Z) :
  let f := filter_points pts next st in
  (forall i, In i (kept pts next st) ->
     (i < rows st)%nat /\ (i < length (data st))%nat /\
     (2 * i + 1 < length (data pts))%nat /\
     (2 * i + 1 < length (data next))%nat) /\
  length (f_tracked f) = length (f_good f) /\
  length (f_newPrev f) = (2 * length (f_good f))%nat /\
  (length (f_good f) <= rows st)%nat /\
  (length (f_good f) <= length (data st))%nat /\
  (2 * length (f_good f) <= length (data pts))%nat /\
  (2 * length (f_good f) <= length (data next))%nat.
Proof.
  cbv zeta. rewrite filter_points_kept. cbn [f_good f_tracked f_newPrev].
  rewrite !length_map, length_coords.
  split; [intros i Hi; exact (kept_stored _ _ _ _ Hi)|].
  split; [reflexivity|]. split; [reflexivity|].
  split; [apply kept_below; intros i Hi; apply (kept_stored _ _ _ _ Hi)|].
  split; [apply kept_below; intros i Hi; apply (kept_stored _ _ _ _ Hi)|].
  split.
  - assert (H : (length (kept pts next st) <= length (data pts) / 2)%nat).
    { apply kept_below. intros i Hi.
      destruct (kept_stored _ _ _ _ Hi) as (_ & _ & H & _).
      assert (Hq : (i + 1 <= length (data pts) / 2)%nat)
        by (apply Nat.div_le_lower_bound; lia).
      lia. }
    pose proof (Nat.Div0.mul_div_le (length (data pts)) 2). lia.
  - assert (H : (length (kept pts next st) <= length (data next) / 2)%nat).
    { apply kept_below. intros i Hi.
      destruct (kept_stored _ _ _ _ Hi) as (_ & _ & _ & H).
      assert (Hq : (i + 1 <= length (data next) / 2)%nat)
        by (apply Nat.div_le_lower_bound; lia).
      lia. }
    pose proof (Nat.Div0.mul_div_le (length (data next)) 2). lia.
Qed.

End FilterBounds.


(** * The first two frames *)

Module FirstFrames.

Import FramePipeline CompletedFrames.
Local Open Scope Z_scope.

Section TwoFrames.

Variables (cv : Vision) (canvas : option Canvas) (ctx : bool) (e0 : Engine).
Variables (now1 now2 : Z) (v1 v2 : Video).
Variables (pixels1 pixels2 : list Z) (gray1 gray2 : Mat Z).
Variables (corners : Mat float).

Hypothesis Hinit : init true (constructor canvas ctx) = Some e0.
Hypothesis Hw1 : videoWidth v1 <> 0%nat.
Hypothesis Hh1 : videoHeight v1 <> 0%nat.
Hypothesis Hw2 : videoWidth v2 <> 0%nat.
Hypothesis Hh2 : videoHeight v2 <> 0%nat.
Hypothesis Hcap1 : capture cv v1 = Some pixels1.
Hypothesis Hcvt1 :
  cvtColor cv (mkMat (videoHeight v1) (videoWidth v1) pixels1) = Some gray1.
Hypothesis Hcap2 : capture cv v2 = Some pixels2.
Hypothesis Hcvt2 :
  cvtColor cv (mkMat (videoHeight v2) (videoWidth v2) pixels2) = Some gray2.
Hypothesis Hdet : goodFeaturesToTrack cv gray1 default_settings = Some corners.
Hypothesis Hmany : (15 <= rows corners)%nat.
Hypothesis Hgray : (0 < rows gray1)%nat.

Lemma fresh_fields :
  initialized e0 = true /\
  settings e0 = default_settings /\
  frameCount e0 = 0 /\
  prevPoints e0 = Some emptyMat /\
  prevGrayFrame e0 = Some emptyMat /\
  grayFrame e0 = Some emptyMat.
Proof.
  unfold init in Hinit. injection Hinit as <-. repeat split; reflexivity.
Qed.

Lemma first_processed :
  Processed cv v1 e0 emptyMat emptyMat pixels1 gray1.
Proof.
  destruct fresh_fields as (A & B & C & D & E & F).
  constructor; try assumption. rewrite F. discriminate.
Qed.

Lemma first_points : refreshed_points cv e0 gray1 emptyMat = corners.
Proof.
  destruct fresh_fields as (_ & B & _).
  unfold refreshed_points. rewrite B, Hdet. reflexivity.
Qed.

Lemma first_gate :
  tracking_gate (fst (refreshed cv (begun now1 v1 pixels1 gray1 e0) emptyMat))
    emptyMat (point_set cv (begun now1 v1 pixels1 gray1 e0) emptyMat) = false.
Proof. reflexivity. Qed.

(** The engine after the first frame. *)
Definition e1 : Engine := snd (fst (processFrame cv now1 v1 e0)).

Lemma second_fields :
  initialized e1 = true /\
  settings e1 = default_settings /\
  frameCount e1 = 1 /\
  prevPoints e1 = Some corners /\
  prevGrayFrame e1 = Some gray1 /\
  grayFrame e1 = Some gray1.
Proof.
  destruct fresh_fields as (A & B & C & D & E & F).
  destruct (Configuration.processFrame_same_configuration cv now1 v1 e0)
    as (Hs & _ & Hi & _).
  cbv zeta in Hs, Hi. fold e1 in Hs, Hi.
  split; [rewrite Hi; exact A|]. split; [rewrite Hs; exact B|].
  unfold e1. rewrite (processFrame_run now1 first_processed).
  destruct (frame_run_fields cv now1 v1 e0 emptyMat emptyMat pixels1 gray1)
    as (_ & F2 & F3 & F4 & _).
  cbv zeta in F2, F3, F4.
  destruct (@frame_run_skipped cv now1 v1 e0 emptyMat emptyMat pixels1 gray1
              D first_gate) as (_ & _ & _ & S4).
  cbv zeta in S4. rewrite first_points in S4.
  split; [rewrite F4, C; reflexivity|].
  split; [exact S4|]. split; assumption.
Qed.

Lemma second_processed :
  Processed cv v2 e1 corners gray1 pixels2 gray2.
Proof.
  destruct second_fields as (A & B & C & D & E & F).
  constructor; try assumption. rewrite F. discriminate.
Qed.

Lemma second_not_due : ~ refresh_due e1 corners.
Proof using Hinit Hw1 Hh1 Hcap1 Hcvt1 Hdet Hmany.
  clear Hw2 Hh2 Hgray.
  destruct second_fields as (_ & B & C & _).
  unfold refresh_due. rewrite B, C. cbn [minFeatures featureRefreshInterval default_settings].
  intros [H | [k H]]; [lia|].
  assert (H' : 2 = k * 15) by exact H. lia.
Qed.

Lemma second_points : refreshed_points cv e1 gray2 corners = corners.
Proof using Hinit Hw1 Hh1 Hcap1 Hcvt1 Hdet Hmany.
  clear Hw2 Hh2 Hgray.
  destruct second_fields as (_ & B & C & _).
  unfold refreshed_points. rewrite B, C.
  cbn [minFeatures featureRefreshInterval default_settings].
  assert ((Z.of_nat (rows corners) <? 15) = false) as ->
    by (apply Z.ltb_ge; lia).
  reflexivity.
Qed.

End TwoFrames.

(** A new engine, [init()], then two frames that the capture and the
    conversion accept, with the default settings.  When the corner
    detector finds at least 15 corners in the first frame, whose grayscale
    image is not empty, then: the first frame calls the detector once and
    no optical flow, and reports the corners it found without tracking;
    the second frame calls no detector and the optical flow once, from the
    first frame's grayscale image to the second's on the corners of the
    first; when that flow succeeds, the engine holds its surviving rows as
    correspondences, the result counts them, and the frame counter is
    2. *)
Theorem second_frame_tracks_the_first
    (cv : Vision) (canvas : option Canvas) (ctx : bool) (e0 : Engine)
    (now1 now2 : Z) (v1 v2 : Video)
    (pixels1 pixels2 : list Z) (gray1 gray2 : Mat Z)
    (corners : Mat float) (flow : Flow) :
  init true (constructor canvas ctx) = Some e0 ->
  videoWidth v1 <> 0%nat -> videoHeight v1 <> 0%nat ->
  videoWidth v2 <> 0%nat -> videoHeight v2 <> 0%nat ->
  capture cv v1 = Some pixels1 ->
  cvtColor cv (mkMat (videoHeight v1) (videoWidth v1) pixels1) = Some gray1 ->
  capture cv v2 = Some pixels2 ->
  cvtColor cv (mkMat (videoHeight v2) (videoWidth v2) pixels2) = Some gray2 ->
  goodFeaturesToTrack cv gray1 default_settings = Some corners ->
  (15 <= rows corners)%nat ->
  (0 < rows gray1)%nat ->
  calcOpticalFlowPyrLK cv gray1 gray2 corners default_settings = Some flow ->
  let out1 := processFrame cv now1 v1 e0 in
  let out2 := processFrame cv now2 v2 (snd (fst out1)) in
  (times_called CallGoodFeaturesToTrack (snd out1) = 1%nat /\
   times_called CallCalcOpticalFlowPyrLK (snd out1) = 0%nat /\
   r_isTracking (fst (fst out1)) = false /\
   r_featureCount (fst (fst out1)) = rows corners) /\
  (times_called CallGoodFeaturesToTrack (snd out2) = 0%nat /\
   times_called CallCalcOpticalFlowPyrLK (snd out2) = 1%nat /\
   trackedPoints (snd (fst out2)) = survivors corners flow /\
   r_featureCount (fst (fst out2)) = length (survivors corners flow) /\
   prevGrayFrame (snd (fst out2)) = Some gray2 /\
   frameCount (snd (fst out2)) = 2).
Proof.
  intros Hinit Hw1 Hh1 Hw2 Hh2 Hcap1 Hcvt1 Hcap2 Hcvt2 Hdet Hmany Hgray Hflow.
  cbv zeta.
  pose proof (@fresh_fields canvas ctx e0 Hinit) as (A & B & C & D & E & F).
  pose proof (@first_processed cv canvas ctx e0 v1 pixels1 gray1
                Hinit Hw1 Hh1 Hcap1 Hcvt1) as HP1.
  pose proof (@second_fields cv canvas ctx e0 now1 v1 pixels1 gray1 corners
                Hinit Hw1 Hh1 Hcap1 Hcvt1 Hdet)
    as (A2 & B2 & C2 & D2 & E2 & F2).
  pose proof (@second_processed cv canvas ctx e0 now1 v1 v2 pixels1 pixels2
                gray1 gray2 corners Hinit Hw1 Hh1 Hw2 Hh2 Hcap1 Hcvt1
                Hcap2 Hcvt2 Hdet) as HP2.
  pose proof (@second_points cv canvas ctx e0 now1 v1 pixels1 gray1 gray2
                corners Hinit Hw1 Hh1 Hcap1 Hcvt1 Hdet Hmany) as Hpts2.
  pose proof (@second_not_due cv canvas ctx e0 now1 v1 pixels1 gray1
                corners Hinit Hw1 Hh1 Hcap1 Hcvt1 Hdet Hmany) as Hnd.
  fold (e1 cv e0 now1 v1) in *.
  set (e1' := e1 cv e0 now1 v1) in *.
  split.
  - (* the first frame *)
    rewrite (processFrame_run now1 HP1).
    pose proof (@first_gate cv e0 now1 v1 pixels1 gray1) as Hgate.
    destruct (@frame_run_skipped cv now1 v1 e0 emptyMat emptyMat pixels1 gray1
                D Hgate) as (S1 & _).
    cbv zeta in S1.
    rewrite (@first_points cv canvas ctx e0 gray1 corners Hinit Hdet) in S1.
    split.
    { rewrite frame_run_detections.
      assert (Hdue : needs_refresh (begun now1 v1 pixels1 gray1 e0) emptyMat
                     = true).
      { apply (@needs_refresh_due now1 v1 pixels1 gray1 e0 emptyMat);
          [rewrite C; lia|].
        left. rewrite B. cbn. lia. }
      rewrite Hdue. reflexivity. }
    split.
    { rewrite (@frame_run_flows cv now1 v1 e0 emptyMat emptyMat pixels1 gray1
                 D E) by (rewrite B; reflexivity).
      rewrite Hgate. reflexivity. }
    rewrite S1. split; reflexivity.
  - (* the second frame *)
    assert (Hmin : 0 < minFeatures (settings e1'))
      by (rewrite B2; reflexivity).
    assert (Hcan : can_follow e1' gray1 (refreshed_points cv e1' gray2 corners)).
    { rewrite Hpts2. split; [exact Hgray|]. rewrite B2. cbn. lia. }
    assert (Hflow' : calcOpticalFlowPyrLK cv gray1 gray2
                       (refreshed_points cv e1' gray2 corners) (settings e1')
                     = Some flow)
      by (rewrite Hpts2, B2; exact Hflow).
    destruct (@tracked_frame_outcome cv now2 v2 e1' corners gray1 pixels2 gray2
                flow HP2 Hmin Hcan Hflow')
      as (T1 & T2 & _ & _ & T5 & T6 & _).
    cbv zeta in T1, T2, T5, T6. rewrite Hpts2 in T2, T6.
    split.
    { rewrite (processFrame_run now2 HP2), frame_run_detections.
      destruct (needs_refresh (begun now2 v2 pixels2 gray2 e1') corners) eqn:Hn;
        [| reflexivity].
      exfalso. apply Hnd.
      apply (@needs_refresh_due now2 v2 pixels2 gray2 e1' corners);
        [rewrite C2; lia | exact Hn]. }
    split; [exact T1|]. split; [exact T2|]. split; [exact T6|].
    split; [exact T5|].
    rewrite (processFrame_run now2 HP2).
    destruct (frame_run_fields cv now2 v2 e1' corners gray1 pixels2 gray2)
      as (_ & _ & _ & F4 & _).
    cbv zeta in F4. rewrite F4, C2. reflexivity.
Qed.

Lemma second_frame_tracks_the_first_witness :
  let out1 := processFrame (Scenarios.demo_vision 16) 5000 Scenarios.demo_video
                Scenarios.fresh_engine in
  let out2 := processFrame (Scenarios.demo_vision 16) 5033 Scenarios.demo_video
                (snd (fst out1)) in
  times_called CallGoodFeaturesToTrack (snd out1) = 1%nat /\
  times_called CallCalcOpticalFlowPyrLK (snd out2) = 1%nat /\
  r_featureCount (fst (fst out2)) = 16%nat /\
  frameCount (snd (fst out2)) = 2.
Proof.
  cbv zeta.
  destruct (@second_frame_tracks_the_first (Scenarios.demo_vision 16)
              (Some (mkCanvas 300 150)) true Scenarios.fresh_engine
              5000 5033 Scenarios.demo_video Scenarios.demo_video
              Scenarios.demo_pixels Scenarios.demo_pixels
              Scenarios.demo_gray Scenarios.demo_gray
              (Scenarios.demo_corners 16)
              (mkFlow
                 (mkMat 16 1
                    (map (fun x => (x + 1)%float)
                       (data (Scenarios.demo_corners 16))))
                 (mkMat 16 1 (repeat 1 16)))
              eq_refl ltac:(discriminate) ltac:(discriminate)
              ltac:(discriminate) ltac:(discriminate)
              eq_refl eq_refl eq_refl eq_refl eq_refl
              ltac:(vm_compute; lia) ltac:(vm_compute; lia) eq_refl)
    as ((A & _) & (_ & B & _ & C & _ & D)).
  split; [exact A|]. split; [exact B|].
  split; [rewrite C; vm_compute; reflexivity | exact D].
Defined.

End FirstFrames.


(** * One confidence step per frame *)

Module ConfidenceStep.

Import Confidence PlaneEstimator FramePipeline Touched PlaneReport.
Local Open Scope Z_scope.

(** What a frame can have done to the confidence [c0] and the plane
    hypothesis [g0] it started with. *)
Definition stepped (c0 : float) (g0 : option Plane)
    (e : Engine) (r : FrameResult) : Prop :=
  (planeConfidence e = c0 /\ groundPlane e = g0 /\ r_isTracking r = false) \/
  (r_hasFeatures r = true /\ r_isTracking r = false /\
   planeConfidence e = conf_decr c0 /\ groundPlane e = g0) \/
  (r_hasFeatures r = true /\
   planeConfidence e = conf_incr c0 /\
   exists p, groundPlane e = Some p /\ confidence p = conf_incr c0).

Definition untouched (c0 : float) (g0 : option Plane)
    (e : Engine) (r : FrameResult) : Prop :=
  planeConfidence e = c0 /\ groundPlane e = g0 /\ r_isTracking r = false.

Lemma estimated_stepped (e : Engine) (r : FrameResult) :
  r_isTracking r = false ->
  stepped (planeConfidence e) (groundPlane e)
    (snd (estimated e r)) (fst (estimated e r)).
Proof.
  intros Hr. unfold estimated. cbv zeta.
  cbn [r_featureCount r_hasFeatures set_r_featureCount set_r_hasFeatures].
  destruct (minFeatures (settings e) <=? Z.of_nat (length (goodFeatures e))).
  2:{ left. cbn. auto. }
  destruct (Nat.lt_ge_cases (length (trackedPoints e)) 8) as [Hn | Hn].
  { rewrite (estimatePlane_few e Hn). right. left. cbn. auto. }
  destruct (isCoherent (trackedPoints e)) eqn:Hc.
  - rewrite (estimatePlane_coherent e Hn Hc).
    right. right.
    destruct (0.5 <? conf_incr (planeConfidence e))%float.
    + unfold estimatePose. fields. cbv zeta. cbn [fst snd]. fields.
      split; [reflexivity|]. split; [reflexivity|].
      eexists. split; reflexivity.
    + cbn [fst snd]. fields.
      split; [reflexivity|]. split; [reflexivity|].
      eexists. split; reflexivity.
  - rewrite (estimatePlane_incoherent e Hn Hc). right. left. cbn. auto.
Qed.

Lemma processFrame_stepped
    (cv : Vision) (now : Z) (video : Video) (e : Engine) :
  let out := processFrame cv now video e in
  stepped (planeConfidence e) (groundPlane e) (snd (fst out)) (fst (fst out)).
Proof.
  cbv zeta. destruct (initialized e) eqn:Hi.
  2:{ unfold processFrame. rewrite Hi. cbn [negb fst snd].
      left. repeat split; reflexivity. }
  pose (Pre := untouched (planeConfidence e) (groundPlane e)).
  pose (Post := stepped (planeConfidence e) (groundPlane e)).
  assert (S0 : forall e' r, Pre e' r -> Post e' r).
  { intros e' r H. left. exact H. }
  assert (S1 : forall e' r, Pre e' r -> Pre (set_lastLogTime now e') r).
  { intros e' r H. exact H. }
  assert (S2 : forall e' r, Pre e' r -> Pre (allocated video e') r).
  { intros e' r H. destruct (allocated_touches video e') as (f & dc & -> & _).
    exact H. }
  assert (S3 : forall e' r f px, Pre e' r -> frame e' = Some f ->
                 Pre (set_frame (Some (mkMat (rows f) (cols f) px)) e') r).
  { intros e' r f px H _. exact H. }
  assert (S4 : forall e' r g, Pre e' r -> Pre (set_grayFrame (Some g) e') r).
  { intros e' r g H. exact H. }
  assert (S5 : forall e' r,
                 Pre e' r -> Pre (set_frameCount (JS.js_incr (frameCount e')) e') r).
  { intros e' r H. exact H. }
  assert (S6 : forall e' r, Pre e' r -> Pre (fst (detectFeatures cv e')) r).
  { intros e' r H. destruct (detectFeatures_touches cv e') as (pp & ->).
    exact H. }
  assert (S7 : forall e' r, Pre e' r ->
                 Post (snd (estimated (fst (trackPoints cv e')) r))
                      (fst (estimated (fst (trackPoints cv e')) r))).
  { intros e' r (Hc & Hg & Hr).
    pose proof (@estimated_stepped (fst (trackPoints cv e')) r Hr) as H.
    destruct (trackPoints_touches cv e') as (np & st & gf & tp & pp & Et).
    rewrite Et in H at 1 2. fields. rewrite Hc, Hg in H. exact H. }
  assert (S8 : forall e' r pts, Pre e' r -> prevPoints e' = Some pts ->
                 Post e' (reported pts r)).
  { intros e' r pts H _. left. exact H. }
  assert (S9 : forall e' r g, Post e' r -> grayFrame e' = Some g ->
                 Post (set_prevGrayFrame (Some g) e') r).
  { intros e' r g H _. exact H. }
  assert (H0 : Pre e (mkResult false false 0 0 None (imuData e)))
    by (repeat split; reflexivity).
  destruct (@Stages.processFrame_stages cv now video Pre Post Pre
              S0 (fun _ _ H _ => H)
              S1 S2 S3 S4 S5 S6 S7 S8 S9 e Hi H0)
    as [e1 [[H ->] | [H ->]]].
  - left. exact H.
  - exact H.
Qed.

(** Whatever the frame, the collaborators and the way the frame ends,
    one call of [processFrame] moves the plane confidence by at most one
    step: afterwards it is the confidence before, or that lowered by 0.1
    (floored at 0) with the plane hypothesis untouched, or that raised by
    0.15 (capped at 1) with a plane hypothesis of that confidence.  It
    moves only when the result says has-features, and a result that
    reports tracking comes with the raised confidence. *)
Theorem frame_moves_confidence_one_step
    (cv : Vision) (now : Z) (video : Video) (e : Engine) :
  let out := processFrame cv now video e in
  let r := fst (fst out) in
  let e' := snd (fst out) in
  let c := planeConfidence e in
  ((planeConfidence e' = c /\ groundPlane e' = groundPlane e) \/
   (planeConfidence e' = JS.Math_max 0 (c - 0.1) /\
    groundPlane e' = groundPlane e) \/
   (planeConfidence e' = JS.Math_min 1 (c + 0.15) /\
    exists p, groundPlane e' = Some p /\
              confidence p = JS.Math_min 1 (c + 0.15))) /\
  (r_hasFeatures r = false ->
   planeConfidence e' = c /\ groundPlane e' = groundPlane e) /\
  (r_isTracking r = true -> planeConfidence e' = JS.Math_min 1 (c + 0.15)).
Proof.
  cbv zeta.
  fold (conf_incr (planeConfidence e)). fold (conf_decr (planeConfidence e)).
  destruct (processFrame_stepped cv now video e)
    as [(A & B & C) | [(A & B & C & D) | (A & B & C)]];
    cbv zeta in *.
  - split; [left; split; assumption|].
    split; [intros _; split; assumption | congruence].
  - split; [right; left; split; assumption|].
    split; congruence.
  - split; [right; right; split; assumption|].
    split; [congruence | intros _; exact B].
Qed.

End ConfidenceStep.


(** * A detector that throws *)

Module DetectorFailure.

Import FramePipeline CompletedFrames.
Local Open Scope Z_scope.

(** On a processed frame (with a positive [minFeatures]) whose refresh is
    due, a corner detector that throws is caught inside
    [detectFeatures()]: it has been called once, the point set is left
    empty, so no optical flow runs on this frame; the correspondences, the
    features, the plane hypothesis and the confidence are not touched, the
    grayscale frame is handed over, and the result reports no tracking and
    no features. *)
Theorem detector_failure_empties_the_point_set
    (cv : Vision) (now : Z) (video : Video) (e : Engine)
    (pts : Mat float) (prevGray : Mat Z) (pixels : list Z) (gray : Mat Z) :
  Processed cv video e pts prevGray pixels gray ->
  0 <= frameCount e ->
  0 < minFeatures (settings e) ->
  refresh_due e pts ->
  goodFeaturesToTrack cv gray (settings e) = None ->
  let out := processFrame cv now video e in
  let e' := snd (fst out) in
  times_called CallGoodFeaturesToTrack (snd out) = 1%nat /\
  times_called CallCalcOpticalFlowPyrLK (snd out) = 0%nat /\
  fst (fst out) = mkResult false false 0 0 None (imuData e) /\
  prevPoints e' = Some emptyMat /\
  trackedPoints e' = trackedPoints e /\
  goodFeatures e' = goodFeatures e /\
  groundPlane e' = groundPlane e /\
  planeConfidence e' = planeConfidence e /\
  prevGrayFrame e' = Some gray.
Proof.
  intros HP Hfc Hmin Hdue Hdet. cbv zeta.
  rewrite (processFrame_run now HP).
  pose proof HP as [_ _ _ _ _ _ Hpg Hp].
  assert (Hneed : needs_refresh (begun now video pixels gray e) pts = true)
    by (apply (@needs_refresh_due now video pixels gray e pts Hfc); exact Hdue).
  assert (Hpts2 : refreshed_points cv e gray pts = emptyMat).
  { rewrite <- (point_set_refreshed cv now video pixels gray e pts).
    unfold point_set, detected. rewrite Hneed.
    destruct (begun_fields now video pixels gray e) as (-> & _ & _ & _ & -> & _).
    rewrite Hdet. reflexivity. }
  assert (Hgate :
    tracking_gate (fst (refreshed cv (begun now video pixels gray e) pts))
      prevGray (point_set cv (begun now video pixels gray e) pts) = false).
  { rewrite (point_set_refreshed cv now video pixels gray e pts), Hpts2.
    unfold tracking_gate.
    destruct (@before_branch cv now video e pts prevGray pixels gray Hp Hpg)
      as (_ & _ & _ & E4 & _).
    cbv zeta in E4. rewrite E4.
    assert ((minFeatures (settings e) <=? Z.of_nat (rows (@emptyMat float)))
            = false) as -> by (apply Z.leb_gt; cbn; lia).
    apply andb_false_r. }
  split; [rewrite frame_run_detections, Hneed; reflexivity|].
  split.
  { rewrite (@frame_run_flows cv now video e pts prevGray pixels gray
               Hp Hpg Hmin), Hgate. reflexivity. }
  destruct (@frame_run_skipped cv now video e pts prevGray pixels gray
              Hp Hgate) as (S1 & S2 & S3 & S4).
  cbv zeta in S1, S2, S3, S4. rewrite Hpts2 in S1, S4.
  split; [rewrite S1; reflexivity|].
  split; [exact S4|]. split; [exact S2|]. split; [exact S3|].
  destruct (frame_run_fields cv now video e pts prevGray pixels gray)
    as (_ & _ & F3 & _).
  cbv zeta in F3.
  destruct (@before_branch cv now video e pts prevGray pixels gray Hp Hpg)
    as (_ & _ & _ & _ & _ & _ & E7 & E8).
  cbv zeta in E7, E8.
  split; [| split; [| exact F3]].
  - unfold frame_run, branch. cbv zeta. rewrite Hgate. cbn [fst snd].
    Touched.fields. exact E7.
  - unfold frame_run, branch. cbv zeta. rewrite Hgate. cbn [fst snd].
    Touched.fields. exact E8.
Qed.

(** The scripted collaborator with a detector that throws. *)
Definition cornerless_vision : Vision :=
  {| capture := capture (Scenarios.demo_vision 16);
     cvtColor := cvtColor (Scenarios.demo_vision 16);
     goodFeaturesToTrack := fun _ _ => None;
     calcOpticalFlowPyrLK := calcOpticalFlowPyrLK (Scenarios.demo_vision 16) |}.

Lemma detector_failure_empties_the_point_set_witness :
  let out := processFrame cornerless_vision 5000 Scenarios.demo_video
               Scenarios.fresh_engine in
  times_called CallGoodFeaturesToTrack (snd out) = 1%nat /\
  times_called CallCalcOpticalFlowPyrLK (snd out) = 0%nat /\
  prevPoints (snd (fst out)) = Some emptyMat.
Proof.
  cbv zeta.
  assert (HP : Processed cornerless_vision Scenarios.demo_video
                 Scenarios.fresh_engine emptyMat emptyMat
                 Scenarios.demo_pixels Scenarios.demo_gray).
  { constructor; try reflexivity; vm_compute; discriminate. }
  destruct (@detector_failure_empties_the_point_set cornerless_vision 5000
              Scenarios.demo_video Scenarios.fresh_engine _ _ _ _ HP
              ltac:(vm_compute; discriminate) eq_refl
              ltac:(left; vm_compute; reflexivity) eq_refl)
    as (A & B & _ & C & _).
  repeat split; assumption.
Defined.

End DetectorFailure.


(** * Coordinates that are not numbers *)

Module Robustness.

Import FloatOrder FloatClass PlaneEstimator.
Local Open Scope float_scope.

Lemma SFadd_nonfinite_l a b :
  SFfinite a = false -> SFfinite (SF64add a b) = false.
Proof. destruct a as [| [] | |], b as [| [] | |]; cbn; congruence. Qed.

Lemma blown_nonfinite a : blown a -> SFfinite a = false.
Proof. intros [-> | ->]; reflexivity. Qed.

(** NaN and [+Infinity] absorb every later term of a sum. *)
Lemma sum_blown_acc (ts : list float) (a : float) :
  blown (Prim2SF a) -> blown (Prim2SF (fold_left add ts a)).
Proof.
  revert a. induction ts as [| t ts IH]; intros a Ha; cbn [fold_left].
  - exact Ha.
  - apply IH. rewrite add_spec. apply SFadd_blown_l, Ha.
Qed.

Lemma sum_blown (ts : list float) (t a : float) :
  In t ts -> blown (Prim2SF t) -> blown (Prim2SF (fold_left add ts a)).
Proof.
  revert a. induction ts as [| t' ts IH]; intros a Hin Ht; [contradiction|].
  cbn [fold_left]. destruct Hin as [-> | Hin].
  - apply sum_blown_acc. rewrite add_spec. apply SFadd_blown_r, Ht.
  - apply IH; assumption.
Qed.

(** The number of an array length is not negative. *)
Definition not_negative (x : spec_float) : Prop :=
  match x with
  | S754_zero s | S754_finite s _ _ | S754_infinity s => s = false
  | S754_nan => False
  end.

Lemma of_length_not_negative (n : nat) : not_negative (Prim2SF (JS.of_length n)).
Proof.
  unfold JS.of_length. rewrite of_uint63_spec. unfold binary_normalize.
  pose proof (Uint63.to_Z_bounded (Uint63.of_Z (Z.of_nat n))) as [Hlo _].
  destruct (Uint63.to_Z (Uint63.of_Z (Z.of_nat n))) as [| p | p]; [reflexivity | | lia].
  pose proof (binary_round_sign false p 0) as Hs.
  destruct (binary_round prec emax false p 0); cbn in *; auto.
Qed.

Lemma SFdiv_blown a b : blown a -> not_negative b -> blown (SF64div a b).
Proof.
  unfold blown. intros [-> | ->] Hb; [left; reflexivity|].
  destruct b as [s | s | | s m e]; cbn in Hb; subst; cbn; auto.
Qed.

(** The squared deviation of a correspondence whose displacement is not
    finite. *)
Lemma deviation_blown (avgDX avgDY : float) (pt : Correspondence) :
  is_finite (disp_x pt) = false \/ is_finite (disp_y pt) = false ->
  blown (Prim2SF
           (let dx := disp_x pt - avgDX in
            let dy := disp_y pt - avgDY in
            dx * dx + dy * dy)).
Proof.
  rewrite !is_finite_spec. cbv zeta. rewrite add_spec, !mul_spec, !sub_spec.
  intros [H | H].
  - apply SFadd_blown_l, SFmul_self_blown, SFsub_nonfinite_l, H.
  - apply SFadd_blown_r, SFmul_self_blown, SFsub_nonfinite_l, H.
Qed.

Lemma variance_blown (tracked : list Correspondence) (pt : Correspondence) :
  In pt tracked ->
  is_finite (disp_x pt) = false \/ is_finite (disp_y pt) = false ->
  isCoherent tracked = false.
Proof.
  intros Hin Hbad. unfold isCoherent.
  rewrite FloatAxioms.ltb_spec. apply SFltb_blown.
  unfold motionVariance, motion_variance_sum. cbv zeta.
  rewrite (fold_map_sum
             (fun pt =>
                let dx := disp_x pt - mdx (avg_motion tracked) in
                let dy := disp_y pt - mdy (avg_motion tracked) in
                dx * dx + dy * dy)).
  rewrite div_spec.
  apply SFdiv_blown; [| apply of_length_not_negative].
  apply sum_blown
    with (t := (let dx := disp_x pt - mdx (avg_motion tracked) in
                let dy := disp_y pt - mdy (avg_motion tracked) in
                dx * dx + dy * dy)).
  - apply (in_map (fun pt =>
                     let dx := disp_x pt - mdx (avg_motion tracked) in
                     let dy := disp_y pt - mdy (avg_motion tracked) in
                     dx * dx + dy * dy)), Hin.
  - apply deviation_blown, Hbad.
Qed.

Lemma coordinate_displacement (pt : Correspondence) :
  is_finite (px (prev pt)) = false \/ is_finite (py (prev pt)) = false \/
  is_finite (px (curr pt)) = false \/ is_finite (py (curr pt)) = false ->
  is_finite (disp_x pt) = false \/ is_finite (disp_y pt) = false.
Proof.
  unfold disp_x, disp_y. rewrite !is_finite_spec, !sub_spec.
  intros [H | [H | [H | H]]].
  - left. apply SFsub_nonfinite_r, H.
  - right. apply SFsub_nonfinite_r, H.
  - left. apply SFsub_nonfinite_l, H.
  - right. apply SFsub_nonfinite_l, H.
Qed.

(** A frame in which some correspondence has a coordinate that is not a
    finite number (NaN or an infinity) is never taken for a plane, however
    many correspondences it has and however coherent the others are:
    [estimatePlane()] answers false, lowers the confidence by 0.1 (floored
    at 0) and leaves the plane hypothesis alone. *)
Theorem non_finite_coordinate_rejects_the_frame
    (e : Engine) (pt : Correspondence) :
  In pt (trackedPoints e) ->
  is_finite (px (prev pt)) = false \/ is_finite (py (prev pt)) = false \/
  is_finite (px (curr pt)) = false \/ is_finite (py (curr pt)) = false ->
  estimatePlane e
  = (false, set_planeConfidence (JS.Math_max 0 (planeConfidence e - 0.1)) e).
Proof.
  intros Hin Hbad. fold (conf_decr (planeConfidence e)).
  destruct (Nat.lt_ge_cases (length (trackedPoints e)) 8) as [Hn | Hn].
  - apply estimatePlane_few, Hn.
  - apply estimatePlane_incoherent; [exact Hn|].
    apply (variance_blown _ _ Hin), coordinate_displacement, Hbad.
Qed.

Lemma non_finite_coordinate_rejects_the_frame_witness :
  let tracked :=
    mkCorr (mkPoint 10 20) (mkPoint nan 20) :: steady_tracked in
  let e := set_planeConfidence 0.6
             (set_trackedPoints tracked (constructor None false)) in
  length tracked = 9%nat /\
  estimatePlane e = (false, set_planeConfidence 0.5 e).
Proof.
  cbv zeta. split; [reflexivity|].
  exact (@non_finite_coordinate_rejects_the_frame
           (set_planeConfidence 0.6
              (set_trackedPoints
                 (mkCorr (mkPoint 10 20) (mkPoint nan 20) :: steady_tracked)
                 (constructor None false)))
           (mkCorr (mkPoint 10 20) (mkPoint nan 20))
           (or_introl eq_refl)
           (or_intror (or_intror (or_introl eq_refl)))).
Defined.

End Robustness.


(** * Losing the plane *)

Module Decay.

Import FloatOrder Confidence PlaneEstimator.
Local Open Scope Z_scope.

(** ** A difference of positive numbers, against a bound *)

Lemma SFsub_cases mx ex my ey :
  valid_binary (S754_finite false mx ex) = true ->
  valid_binary (S754_finite false my ey) = true ->
  let r := SF64sub (S754_finite false mx ex) (S754_finite false my ey) in
  (scaled (Zpos mx) ex <= scaled (Zpos my) ey ->
   r = S754_zero false \/ has_sign true r) /\
  (forall mB eB,
     canonical mB eB ->
     scaled (Zpos mx) ex - scaled (Zpos my) ey <= scaled (Zpos mB) eB ->
     r = S754_zero false \/ has_sign true r \/ rounds_below false mB eB r).
Proof.
  intros Vx Vy.
  destruct (valid_finite_inv false mx ex Vx) as [Cx _].
  destruct (valid_finite_inv false my ey Vy) as [Cy _].
  destruct (canonical_bounds Cx) as (Lx & _ & _).
  destruct (canonical_bounds Cy) as (Ly & _ & _).
  unfold SF64sub, SFsub. cbn [cond_Zopp].
  pose proof (@shl_align_scaled mx ex (Z.min ex ey) Lx ltac:(lia)) as Ha.
  replace (Z.min ex (Z.min ex ey)) with (Z.min ex ey) in Ha by lia.
  pose proof (@shl_align_scaled my ey (Z.min ex ey) Ly ltac:(lia)) as Hb.
  replace (Z.min ey (Z.min ex ey)) with (Z.min ex ey) in Hb by lia.
  set (a := Zpos (fst (shl_align mx ex (Z.min ex ey)))) in *.
  set (b := Zpos (fst (shl_align my ey (Z.min ex ey)))) in *.
  assert (Hp : 0 < 2 ^ (Z.min ex ey + 1074)) by (apply pow2_pos; lia).
  cbv zeta. unfold binary_normalize.
  rewrite <- Ha, <- Hb. unfold scaled at 1 2 3 4.
  destruct (a - b) as [| z | z] eqn:Ez.
  - split; [left; reflexivity | intros; left; reflexivity].
  - split; [intros Hle; exfalso; nia|].
    intros mB eB CB Hle. right. right.
    apply binary_round_le; [lia | exact CB |].
    unfold scaled at 1. nia.
  - split; [intros _; right; apply binary_round_sign|].
    intros mB eB _ _. right. left. apply binary_round_sign.
Qed.

Lemma SFleb_scaled_inv m1 e1 m2 e2 :
  valid_binary (S754_finite false m1 e1) = true ->
  valid_binary (S754_finite false m2 e2) = true ->
  SFleb (S754_finite false m1 e1) (S754_finite false m2 e2) = true ->
  scaled (Zpos m1) e1 <= scaled (Zpos m2) e2.
Proof.
  intros V1 V2. unfold SFleb. rewrite (@SFcompare_scaled m1 e1 m2 e2 V1 V2).
  destruct (Z.compare_spec (scaled (Zpos m1) e1) (scaled (Zpos m2) e2));
    [lia | lia | discriminate].
Qed.

(** ** One decrement, below a bound *)

(** [x] is the positive number [m * 2 ^ e]. *)
Definition is_positive (x : float) (m : positive) (e : Z) : Prop :=
  Prim2SF x = S754_finite false m e.

Lemma is_positive_valid x m e :
  is_positive x m e -> valid_binary (S754_finite false m e) = true.
Proof. intros H. rewrite <- H. apply Prim2SF_valid. Qed.

Lemma zero_below x m e s :
  is_positive x m e -> SFleb (S754_zero s) (Prim2SF x) = true.
Proof. intros ->. reflexivity. Qed.

Lemma conf_decr_zero (c : float) :
  Prim2SF (c - 0.1) = S754_zero false \/ has_sign true (Prim2SF (c - 0.1)) ->
  conf_decr c = 0%float.
Proof.
  intros H. unfold conf_decr.
  apply Math_max_0_nonpos.
  - destruct H as [-> | H]; [discriminate|].
    destruct (Prim2SF (c - 0.1)); cbn in H; try discriminate; contradiction.
  - destruct H as [-> | H]; [reflexivity|].
    destruct (Prim2SF (c - 0.1)) as [s | s | | s m e]; cbn in H;
      try contradiction; subst; reflexivity.
Qed.

(** A confidence that is at most [B] is, one decrement later, at most
    any number [B'] that is not below [B - 0.1]. *)
Lemma conf_decr_below (c B B' : float) mB eB mB' eB' :
  is_positive B mB eB ->
  is_positive B' mB' eB' ->
  scaled (Zpos mB) eB - scaled 7205759403792794 (-56) <= scaled (Zpos mB') eB' ->
  scaled (Zpos mB') eB' < 2 ^ 2046 ->
  conf_ok c -> (c <=? B)%float = true ->
  (conf_decr c <=? B')%float = true.
Proof.
  intros PB PB' Hstep Hsmall Hc Hle.
  pose proof (@is_positive_valid B mB eB PB) as VB.
  pose proof (@is_positive_valid B' mB' eB' PB') as VB'.
  destruct (valid_finite_inv false mB' eB' VB') as [CB' _].
  rewrite FloatAxioms.leb_spec in Hle. rewrite FloatAxioms.leb_spec.
  destruct (conf_ok_inv Hc) as [[s E] | (m & e & E & V & _)].
  - (* c is zero *)
    assert (Hz : conf_decr c = 0%float).
    { apply conf_decr_zero. rewrite sub_spec, E, Prim2SF_tenth.
      right. destruct s; reflexivity. }
    rewrite Hz, Prim2SF_zero. exact (@zero_below B' mB' eB' false PB').
  - rewrite E, PB in Hle.
    pose proof (@SFleb_scaled_inv m e mB eB V VB Hle) as Hs.
    destruct (@SFsub_cases m e 7205759403792794 (-56) V eq_refl) as [_ Hr].
    cbv zeta in Hr. specialize (Hr mB' eB' CB' ltac:(lia)).
    fold SFtenth in Hr. rewrite <- Prim2SF_tenth, <- E, <- sub_spec in Hr.
    destruct Hr as [Hr | [Hr | Hr]].
    + rewrite (conf_decr_zero c (or_introl Hr)), Prim2SF_zero.
      exact (@zero_below B' mB' eB' false PB').
    + rewrite (conf_decr_zero c (or_intror Hr)), Prim2SF_zero.
      exact (@zero_below B' mB' eB' false PB').
    + pose proof (Prim2SF_valid (c - 0.1)) as Vd.
      destruct (Prim2SF (c - 0.1)) as [s | s | | s m' e'] eqn:Ed.
      * cbn in Hr. subst s.
        rewrite (conf_decr_zero c (or_introl Ed)), Prim2SF_zero.
        exact (@zero_below B' mB' eB' false PB').
      * destruct Hr as [_ Hbig]. lia.
      * contradiction.
      * destruct Hr as (-> & _ & Hb).
        unfold conf_decr.
        rewrite Math_max_0_pos
          by (rewrite Ed; first [discriminate | reflexivity]).
        rewrite Ed, PB'. apply SFleb_scaled; assumption.
Qed.

(** A confidence that is below 0.1 is 0 one decrement later. *)
Lemma conf_decr_floor (c B : float) mB eB :
  is_positive B mB eB ->
  scaled (Zpos mB) eB <= scaled 7205759403792794 (-56) ->
  conf_ok c -> (c <=? B)%float = true ->
  conf_decr c = 0%float.
Proof.
  intros PB Hsmall Hc Hle.
  pose proof (@is_positive_valid B mB eB PB) as VB.
  rewrite FloatAxioms.leb_spec in Hle.
  destruct (conf_ok_inv Hc) as [[s E] | (m & e & E & V & _)].
  - apply conf_decr_zero. rewrite sub_spec, E, Prim2SF_tenth.
    right. destruct s; reflexivity.
  - rewrite E, PB in Hle.
    pose proof (@SFleb_scaled_inv m e mB eB V VB Hle) as Hs.
    destruct (@SFsub_cases m e 7205759403792794 (-56) V eq_refl) as [Hr _].
    cbv zeta in Hr. specialize (Hr ltac:(lia)).
    fold SFtenth in Hr. rewrite <- Prim2SF_tenth, <- E, <- sub_spec in Hr.
    apply conf_decr_zero, Hr.
Qed.

(** ** Eleven decrements *)

(** The confidence after [k] rejected frames in a row, from 1. *)
Fixpoint lowered (k : nat) : float :=
  match k with
  | O => 1%float
  | S k' => conf_decr (lowered k')
  end.

Lemma lowered_step (k : nat) :
  (k < 10)%nat ->
  exists mB eB mB' eB',
    is_positive (lowered k) mB eB /\
    is_positive (lowered (S k)) mB' eB' /\
    scaled (Zpos mB) eB - scaled 7205759403792794 (-56)
    <= scaled (Zpos mB') eB' /\
    scaled (Zpos mB') eB' < 2 ^ 2046.
Proof.
  intros Hk.
  do 10 (destruct k as [| k];
         [do 4 eexists; split; [vm_compute; reflexivity|];
          split; [vm_compute; reflexivity|];
          split; vm_compute; [discriminate | reflexivity] |]).
  lia.
Qed.

Lemma lowered_last :
  exists mB eB,
    is_positive (lowered 10) mB eB /\
    scaled (Zpos mB) eB <= scaled 7205759403792794 (-56).
Proof.
  do 2 eexists. split; [vm_compute; reflexivity | vm_compute; discriminate].
Qed.

Lemma conf_decr_iter_ok (k : nat) (c : float) :
  conf_ok c -> conf_ok (Nat.iter k conf_decr c).
Proof.
  intros H. induction k as [| k IH]; cbn [Nat.iter]; [exact H|].
  apply conf_decr_spec, IH.
Qed.

Lemma decrements_below (k : nat) (c : float) :
  (k <= 10)%nat -> conf_ok c ->
  (Nat.iter k conf_decr c <=? lowered k)%float = true.
Proof.
  intros Hk Hc. induction k as [| k IH]; cbn [Nat.iter lowered].
  - apply Hc.
  - destruct (@lowered_step k ltac:(lia))
      as (mB & eB & mB' & eB' & PB & PB' & Hstep & Hsmall).
    cbn [lowered] in PB'.
    apply (@conf_decr_below _ _ _ mB eB mB' eB' PB PB' Hstep Hsmall).
    + apply conf_decr_iter_ok, Hc.
    + apply IH. lia.
Qed.

Lemma eleven_decrements (c : float) (j : nat) :
  conf_ok c -> Nat.iter (11 + j) conf_decr c = 0%float.
Proof.
  intros Hc. induction j as [| j IH].
  - replace (11 + 0)%nat with (S 10) by reflexivity. rewrite Nat.iter_succ.
    destruct lowered_last as (mB & eB & PB & Hsmall).
    apply (@conf_decr_floor _ _ mB eB PB Hsmall).
    + apply conf_decr_iter_ok, Hc.
    + apply decrements_below; [lia | exact Hc].
  - replace (11 + S j)%nat with (S (11 + j)) by lia.
    rewrite Nat.iter_succ, IH. vm_compute. reflexivity.
Qed.

(** ** Over a run of rejected frames *)

(** A frame that [estimatePlane()] rejects: too few correspondences, or
    motion that is not coherent. *)
Definition rejected_frame (f : list Correspondence * list Point) : Prop :=
  (length (fst f) < 8)%nat \/ isCoherent (fst f) = false.

Lemma rejected_run (frames : list (list Correspondence * list Point)) :
  forall (e : Engine),
    Forall rejected_frame frames ->
    map planeConfidence (estimate_history frames e)
    = map (fun i => Nat.iter (S i) conf_decr (planeConfidence e))
          (seq 0 (length frames)).
Proof.
  induction frames as [| [tracked feats] rest IH]; intros e Hall;
    [reflexivity|].
  inversion Hall as [| f fs Hrej Hrest]; subst. cbn [fst] in Hrej.
  cbn [estimate_history length seq map].
  set (e0 := set_goodFeatures feats (set_trackedPoints tracked e)).
  assert (E : estimatePlane e0
              = (false, set_planeConfidence (conf_decr (planeConfidence e0)) e0)).
  { destruct Hrej as [Hn | Hc].
    - apply estimatePlane_few. exact Hn.
    - destruct (Nat.lt_ge_cases (length tracked) 8) as [Hn | Hn].
      + apply estimatePlane_few. exact Hn.
      + apply estimatePlane_incoherent; assumption. }
  rewrite E. cbn [snd]. rewrite (IH _ Hrest). unfold e0. Touched.fields.
  rewrite <- seq_shift, map_map. f_equal.
  apply map_ext. intros i. symmetry. apply (Nat.iter_succ_r (S i)).
Qed.

(** Whatever confidence in [0, 1] an engine has, over any run of frames
    that [estimatePlane()] rejects (fewer than 8 correspondences, or
    incoherent motion) the confidence is exactly 0 from the eleventh frame
    on.  Ten frames are not enough: from a confidence of 1 the tenth
    decrement leaves 1.3877787807814457e-16, the rounding error of the
    ten subtractions of 0.1. *)
Theorem confidence_is_lost_after_eleven_rejections
    (frames : list (list Correspondence * list Point)) (e : Engine) :
  conf_ok (planeConfidence e) ->
  Forall rejected_frame frames ->
  (forall i e',
     nth_error (estimate_history frames e) i = Some e' ->
     (10 <= i)%nat -> planeConfidence e' = 0%float) /\
  Nat.iter 10 (fun c => JS.Math_max 0 (c - 0.1)) 1%float
  = 0x1.4p-53%float.
Proof.
  intros Hc Hall. split; [| vm_compute; reflexivity].
  intros i e' Hi Hge.
  assert (Hm : nth_error (map planeConfidence (estimate_history frames e)) i
               = Some (planeConfidence e'))
    by (rewrite nth_error_map, Hi; reflexivity).
  rewrite (@rejected_run frames e Hall), nth_error_map in Hm.
  destruct (nth_error (seq 0 (length frames)) i) as [j |] eqn:Ej;
    [| discriminate].
  assert (Hlt : (i < length (seq 0 (length frames)))%nat)
    by (apply nth_error_Some; congruence).
  rewrite length_seq in Hlt.
  rewrite (nth_error_nth' _ 0%nat) in Ej by (rewrite length_seq; exact Hlt).
  rewrite seq_nth in Ej by exact Hlt. injection Ej as <-.
  cbn [option_map] in Hm. injection Hm as <-.
  rewrite <- (Nat.iter_succ i).
  replace (S i) with (11 + (i - 10))%nat by lia.
  apply eleven_decrements, Hc.
Qed.

Lemma confidence_is_lost_after_eleven_rejections_witness :
  let e := set_planeConfidence 1 (constructor None false) in
  let history := estimate_history (repeat ([], []) 11) e in
  length history = 11%nat /\
  planeConfidence (nth 10 history e) = 0%float.
Proof.
  cbv zeta. split; [reflexivity|].
  destruct (@confidence_is_lost_after_eleven_rejections
              (repeat ([], []) 11)
              (set_planeConfidence 1 (constructor None false))
              conf_ok_1
              ltac:(apply Forall_forall; intros f Hf;
                    apply repeat_spec in Hf; subst f; left; cbn; lia))
    as [H _].
  exact (H 10%nat _ ltac:(vm_compute; reflexivity) (le_n 10)).
Defined.

End Decay.


(** * The angles of the pose *)

Module PoseAngles.

Import FloatOrder Confidence FramePipeline Touched PlaneReport Invariant.
Local Open Scope float_scope.

(** The factor from degrees to radians, [Math.PI / 180]. *)
Definition radians : float := JS.Math_PI / 180.

Lemma is_nan_true x : is_nan x = true -> Prim2SF x = S754_nan.
Proof.
  unfold is_nan. rewrite FloatAxioms.eqb_spec. intros H.
  destruct (Prim2SF x) as [s | s | | s m e] eqn:E; [| | reflexivity |];
    rewrite SFeqb_refl in H by discriminate; discriminate.
Qed.

(** An angle in degrees that is a number is a number in radians. *)
Lemma radians_number (x : float) :
  is_nan x = false -> is_nan (x * radians) = false.
Proof.
  intros H. apply is_nan_false. rewrite mul_spec.
  assert (Hx : Prim2SF x <> S754_nan).
  { intros E. rewrite <- (SF2Prim_Prim2SF x), E in H. discriminate. }
  change (Prim2SF radians)
    with (S754_finite false 5030569068109113 (-58)).
  destruct (Prim2SF x) as [s | s | | s m e]; try discriminate;
    [contradiction|].
  unfold SF64mul, SFmul.
  pose proof (binary_round_aux_sign (xorb s false) (m * 5030569068109113)
                (e + -58)) as Hs.
  destruct (binary_round_aux prec emax (xorb s false)
              (Zpos (m * 5030569068109113)) (e + -58) loc_Exact);
    [discriminate | discriminate | contradiction | discriminate].
Qed.

(** The rotation of a pose holds numbers. *)
Definition angles_are_numbers (q : Pose) : Prop :=
  is_nan (vx (rotation q)) = false /\
  is_nan (vy (rotation q)) = false /\
  is_nan (vz (rotation q)) = false.

Definition orientation_is_numbers (e : Engine) : Prop :=
  is_nan (alpha (imuData e)) = false /\
  is_nan (beta (imuData e)) = false /\
  is_nan (gamma (imuData e)) = false.

Definition posed (e : Engine) : Prop :=
  orientation_is_numbers e /\
  forall q, currentPose e = Some q -> angles_are_numbers q.

Lemma estimatePose_posed (e : Engine) : posed e -> posed (estimatePose e).
Proof.
  intros [(Ha & Hb & Hg) Hq]. unfold estimatePose.
  destruct (groundPlane e) as [p |]; [| split; [repeat split|]; assumption].
  cbv zeta. split; [repeat split; assumption|].
  fields. intros q E. injection E as <-.
  unfold angles_are_numbers. cbn [rotation vx vy vz].
  fold radians. repeat split; apply radians_number; assumption.
Qed.

Lemma estimated_posed (e : Engine) (r : FrameResult) :
  posed e -> posed (snd (estimated e r)).
Proof.
  intros H. unfold estimated. cbv zeta.
  destruct (r_hasFeatures _); [| exact H].
  destruct (estimatePlane_touches e) as (pc & gp & Et).
  destruct (estimatePlane e) as [[] e1]; cbn [snd] in *; subst e1.
  - apply estimatePose_posed. exact H.
  - exact H.
Qed.

Lemma processFrame_posed
    (cv : Vision) (now : Z) (video : Video) (e : Engine) :
  posed e -> posed (snd (fst (processFrame cv now video e))).
Proof.
  intros H. destruct (initialized e) eqn:Hi.
  2:{ unfold processFrame. rewrite Hi. exact H. }
  pose (K := fun (e' : Engine) (_ : FrameResult) => posed e').
  assert (S2 : forall e' r, K e' r -> K (FramePipeline.allocated video e') r).
  { intros e' r H'. destruct (allocated_touches video e') as (f & dc & -> & _).
    exact H'. }
  assert (S6 : forall e' r, K e' r -> K (fst (detectFeatures cv e')) r).
  { intros e' r H'. destruct (detectFeatures_touches cv e') as (pp & ->).
    exact H'. }
  assert (S7 : forall e' r, K e' r ->
                 K (snd (estimated (fst (trackPoints cv e')) r))
                   (fst (estimated (fst (trackPoints cv e')) r))).
  { intros e' r H'. apply estimated_posed.
    destruct (trackPoints_touches cv e') as (np & st & gf & tp & pp & ->).
    exact H'. }
  destruct (@Stages.processFrame_stages cv now video K K K
              (fun _ _ H' => H') (fun _ _ H' _ => H')
              (fun _ _ H' => H') S2 (fun _ _ _ _ H' _ => H')
              (fun _ _ _ H' => H') (fun _ _ H' => H') S6 S7
              (fun _ _ _ H' _ => H') (fun _ _ _ H' _ => H') e Hi H)
    as [e1 [[H1 ->] | [H1 ->]]]; exact H1.
Qed.

Lemma reachable_posed (cv : Vision) (e : Engine) : reachable cv e -> posed e.
Proof.
  induction 1 as [canvas ctx | e e' Hr IH Hi | e a b g _ IH | e f _ IH
                 | e now video Hr IH | e _ IH].
  - split; [repeat split; reflexivity | discriminate].
  - unfold init in Hi. injection Hi as <-. exact IH.
  - destruct IH as [_ Hq]. split; [| exact Hq].
    repeat split; apply Consistency.or_zero_number.
  - exact IH.
  - apply processFrame_posed, IH.
  - destruct IH as [Ho _].
    destruct (Lifecycle.reset_cleared e) as (_ & _ & _ & Hp & _).
    destruct (Restart.reset_keeps e) as (_ & _ & Hi & _).
    split; [unfold orientation_is_numbers; rewrite Hi; exact Ho|].
    rewrite Hp. discriminate.
Qed.

(** However an engine is driven, the three rotation angles of a pose it
    holds are numbers, never NaN: they are the orientation sample's angles
    (which are numbers) times [Math.PI / 180]. *)
Theorem pose_angles_are_numbers (cv : Vision) (e : Engine) (q : Pose) :
  reachable cv e ->
  currentPose e = Some q ->
  is_nan (vx (rotation q)) = false /\
  is_nan (vy (rotation q)) = false /\
  is_nan (vz (rotation q)) = false.
Proof.
  intros Hr Hq. destruct (reachable_posed Hr) as [_ H]. exact (H q Hq).
Qed.

Lemma pose_angles_are_numbers_witness :
  exists q,
    currentPose (Sessions.demo_session 6) = Some q /\
    is_nan (vx (rotation q)) = false /\
    is_nan (vy (rotation q)) = false /\
    is_nan (vz (rotation q)) = false.
Proof.
  eexists. split; [vm_compute; reflexivity|].
  apply (@pose_angles_are_numbers (Scenarios.demo_vision 16)
           (Sessions.demo_session 6) _ (Sessions.demo_session_reachable 6)).
  vm_compute. reflexivity.
Defined.

End PoseAngles.


(** * A scene that does not move *)

Module StillScene.

Import FloatOrder FloatClass Confidence PlaneEstimator.
Local Open Scope float_scope.

Lemma Prim2SF_inj (x y : float) : Prim2SF x = Prim2SF y -> x = y.
Proof.
  intros H. rewrite <- (SF2Prim_Prim2SF x), <- (SF2Prim_Prim2SF y), H.
  reflexivity.
Qed.

(** A finite number minus itself is [+0]. *)
Lemma sub_self (x : float) : is_finite x = true -> x - x = 0.
Proof.
  rewrite is_finite_spec. intros H. apply Prim2SF_inj.
  rewrite sub_spec, Prim2SF_zero.
  destruct (Prim2SF x) as [s | s | | s m e]; try discriminate.
  - destruct s; reflexivity.
  - unfold SF64sub, SFsub. cbv zeta. rewrite Z.sub_diag. reflexivity.
Qed.

(** [0 / n] is [+0] for the number [n] of a non-empty array. *)
Lemma zero_over_length (n : nat) :
  (0 < n)%nat -> (Z.of_nat n < 2 ^ 63)%Z -> 0 / JS.of_length n = 0.
Proof.
  intros Hpos Hbig. apply Prim2SF_inj.
  rewrite div_spec, Prim2SF_zero.
  unfold JS.of_length. rewrite of_uint63_spec.
  rewrite Uint63.of_Z_spec.
  rewrite Z.mod_small by (change Uint63.wB with (2 ^ 63)%Z; lia).
  destruct (Z.of_nat n) as [| p | p] eqn:En; [lia | | lia].
  unfold binary_normalize.
  assert (H1 : (scaled 4503599627370496 (-52) <= scaled (Zpos p) 0)%Z).
  { unfold scaled. change (-52 + 1074)%Z with 1022%Z.
    change (0 + 1074)%Z with 1074%Z.
    replace (2 ^ 1074)%Z with (2 ^ 52 * 2 ^ 1022)%Z
      by (rewrite <- Z.pow_add_r by lia; reflexivity).
    assert (0 < 2 ^ 1022)%Z by (apply pow2_pos; lia).
    change 4503599627370496%Z with (2 ^ 52)%Z. nia. }
  pose proof (@binary_round_ge false p 0 4503599627370496 (-52)
                ltac:(lia) eq_refl H1) as Hr.
  destruct (binary_round prec emax false p 0) as [s | s | | s m e];
    cbn in Hr; try contradiction.
  - subst s. reflexivity.
  - destruct Hr as (-> & _). reflexivity.
Qed.

Lemma sum_of_zeros (ds : list float) :
  Forall (fun d => d = 0) ds -> fold_left add ds 0 = 0.
Proof.
  induction 1 as [| d ds -> _ IH]; cbn [fold_left]; [reflexivity|].
  change (0 + 0) with 0. exact IH.
Qed.

(** A correspondence that joins a finite point to itself. *)
Definition still (pt : Correspondence) : Prop :=
  curr pt = prev pt /\
  is_finite (px (prev pt)) = true /\ is_finite (py (prev pt)) = true.

Lemma still_displacement (pt : Correspondence) :
  still pt -> disp_x pt = 0 /\ disp_y pt = 0.
Proof.
  intros (E & Hx & Hy). unfold disp_x, disp_y. rewrite E.
  split; apply sub_self; assumption.
Qed.

Section Still.

Variable tracked : list Correspondence.
Hypothesis Hstill : Forall still tracked.
Hypothesis Hsome : (0 < length tracked)%nat.
Hypothesis Hsize : (Z.of_nat (length tracked) < 2 ^ 63)%Z.

Lemma still_mean : mean_displacement tracked = mkMotion 0 0.
Proof.
  unfold mean_displacement, mean. rewrite !length_map.
  rewrite !sum_of_zeros.
  - rewrite (zero_over_length Hsome Hsize). reflexivity.
  - apply Forall_map. eapply Forall_impl; [| exact Hstill].
    intros pt H. apply (still_displacement H).
  - apply Forall_map. eapply Forall_impl; [| exact Hstill].
    intros pt H. apply (still_displacement H).
Qed.

Lemma still_variance : displacement_variance tracked = 0.
Proof.
  unfold displacement_variance. cbv zeta. rewrite still_mean.
  unfold mean. rewrite length_map, sum_of_zeros.
  - apply (zero_over_length Hsome Hsize).
  - apply Forall_map. eapply Forall_impl; [| exact Hstill].
    intros pt H. destruct (still_displacement H) as [-> ->].
    cbn [mdx mdy]. vm_compute. reflexivity.
Qed.

End Still.

(** A frame in which nothing moved: at least 8 correspondences, each
    joining a finite point to itself.  Its mean displacement is exactly
    (0, 0) and its variance exactly 0, so [estimatePlane()] takes it for
    coherent: it raises the confidence by 0.15 (capped at 1), stores the
    plane hypothesis with the features' centroid and a motion of (0, 0),
    and reports the plane exactly when the new confidence is above
    0.5. *)
Theorem still_frame_is_coherent (e : Engine) :
  (8 <= length (trackedPoints e))%nat ->
  (Z.of_nat (length (trackedPoints e)) < 2 ^ 63)%Z ->
  Forall still (trackedPoints e) ->
  let c' := JS.Math_min 1 (planeConfidence e + 0.15) in
  displacement_variance (trackedPoints e) = 0 /\
  estimatePlane e
  = (0.5 <? c',
     set_groundPlane
       (Some {| center := centroid (goodFeatures e);
                confidence := c';
                motion := mkMotion 0 0 |})
       (set_planeConfidence c' e)).
Proof.
  intros Hn Hsize Hstill. cbv zeta.
  assert (Hsome : (0 < length (trackedPoints e))%nat) by lia.
  pose proof (@still_variance (trackedPoints e) Hstill Hsome Hsize) as Hv.
  split; [exact Hv|].
  rewrite estimatePlane_coherent.
  - rewrite (@still_mean (trackedPoints e) Hstill Hsome Hsize). reflexivity.
  - exact Hn.
  - unfold isCoherent. rewrite motionVariance_variance, Hv. reflexivity.
Qed.

Lemma still_frame_is_coherent_witness :
  let tracked := repeat (mkCorr (mkPoint 10 20) (mkPoint 10 20)) 8 in
  let e := set_planeConfidence 0.4
             (set_goodFeatures (map curr tracked)
                (set_trackedPoints tracked (constructor None false))) in
  estimatePlane e
  = (true,
     set_groundPlane (Some (mkPlane (mkPoint 10 20) 0.55 (mkMotion 0 0)))
       (set_planeConfidence 0.55 e)).
Proof.
  cbv zeta.
  destruct (@still_frame_is_coherent
              (set_planeConfidence 0.4
                 (set_goodFeatures
                    (map curr (repeat (mkCorr (mkPoint 10 20) (mkPoint 10 20)) 8))
                    (set_trackedPoints
                       (repeat (mkCorr (mkPoint 10 20) (mkPoint 10 20)) 8)
                       (constructor None false))))
              ltac:(vm_compute; lia) ltac:(vm_compute; reflexivity)
              ltac:(apply Forall_forall; intros pt Hpt;
                    apply repeat_spec in Hpt; subst pt;
                    repeat split; reflexivity))
    as [_ E].
  rewrite E. vm_compute. reflexivity.
Defined.

End StillScene.
